(** * Hotel booking agent: turn orchestration, verified against its specification

    A shallow embedding of the agent service of the repository
    (services/agent/app): the grounding validator ([grounding.py]), the
    constraint helpers ([graph_helpers.py], [constraints.py]), the tool client
    ([tool_client.py]), the turn graph ([graph.py]) and the chat handler
    ([main.py]).

    Modelling conventions.
    - Python [str] is [string]: a sequence of 8-bit code points (Latin-1).
      The character classes of [re] are Python's Unicode classes restricted
      to that range.
    - Python [int] is [Z]; Python [float] is the kernel's binary64 [float].
    - The language model and the HTTP tool service are external: their
      answers are read from tapes held in the [world], one entry per call.
    - Exceptions are the [Raise] outcome of the monad [M]. *)

From Stdlib Require Import List String Ascii ZArith Lia Bool Permutation.
From Stdlib Require Import Floats DecimalString.
Import ListNotations.
Open Scope string_scope.
Open Scope Z_scope.

(* ================================================================= *)
(** ** Python built-ins used by the service *)

Module Py.

(** [str(n)] for an integer. *)
Definition str_int (n : Z) : string := NilZero.string_of_int (Z.to_int n).

(** ["0" * n]. *)
Fixpoint zeros (n : nat) : string :=
  match n with O => "" | S k => String "0" (zeros k) end.

(** [f"{n:0{w}d}"] for a non-negative [n]. *)
Definition pad0 (w : nat) (n : Z) : string :=
  let s := str_int n in zeros (w - String.length s) ++ s.

(** Truthiness of a string / an optional string ([bool(s)], [bool(d.get(k))]). *)
Definition truthy_str (s : string) : bool :=
  match s with EmptyString => false | _ => true end.

Definition truthy_ostr (o : option string) : bool :=
  match o with Some s => truthy_str s | None => false end.

Definition truthy_oint (o : option Z) : bool :=
  match o with Some n => negb (n =? 0) | None => false end.

Definition truthy_list {A} (l : list A) : bool :=
  match l with [] => false | _ => true end.

Definition is_some {A} (o : option A) : bool :=
  match o with Some _ => true | None => false end.

(** [bool(x)] for a float: zero (of either sign) is falsy, NaN is truthy. *)
Definition truthy_float (f : float) : bool := negb (PrimFloat.eqb f 0%float).

Definition truthy_ofloat (o : option float) : bool :=
  match o with Some f => truthy_float f | None => false end.

(** [str(b)] for a bool. *)
Definition str_bool (b : bool) : string := if b then "True" else "False".

(** *** Floats: [f"{x:.2f}"] and [repr(x)]

    Both are computed from the exact value [m * 2^e] of the float. *)

(** Round the rational [n / d] ([d > 0]) to the nearest integer, ties to even. *)
Definition round_half_even (n d : Z) : Z :=
  let q := n / d in
  let r := n mod d in
  match (2 * r) ?= d with
  | Lt => q
  | Gt => q + 1
  | Eq => if Z.even q then q else q + 1
  end.

(** [f"{x:.2f}"]: the exact value correctly rounded to two decimals. *)
Definition format_2f (x : float) : string :=
  match Prim2SF x with
  | S754_nan => "nan"
  | S754_infinity s => if s then "-inf" else "inf"
  | S754_zero s => if s then "-0.00" else "0.00"
  | S754_finite s m e =>
      let cents :=
        if 0 <=? e then Z.pos m * 2 ^ e * 100
        else round_half_even (Z.pos m * 100) (2 ^ (- e)) in
      (if s then "-" else "") ++ str_int (cents / 100) ++ "." ++ pad0 2 (cents mod 100)
  end.

(** A positive rational [num / den] with [den > 0]. *)
Definition rat_le (n1 d1 n2 d2 : Z) : bool := n1 * d2 <=? n2 * d1.
Definition rat_lt (n1 d1 n2 d2 : Z) : bool := n1 * d2 <? n2 * d1.

(** [x * 10^q] as a fraction. *)
Definition scale10 (x q : Z) : Z * Z :=
  if 0 <=? q then (x * 10 ^ q, 1) else (x, 10 ^ (- q)).

(** [x * 2^e] as a fraction. *)
Definition scale2 (x e : Z) : Z * Z :=
  if 0 <=? e then (x * 2 ^ e, 1) else (x, 2 ^ (- e)).

(** The decimal exponent [n] with [10^n <= v < 10^(n+1)], searched from an
    estimate [n0]. *)
Fixpoint dec_exponent (fuel : nat) (vn vd n : Z) : Z :=
  match fuel with
  | O => n
  | S k =>
      let '(pn, pd) := scale10 1 n in
      if rat_lt vn vd pn pd then dec_exponent k vn vd (n - 1)
      else
        let '(qn, qd) := scale10 1 (n + 1) in
        if rat_le qn qd vn vd then dec_exponent k vn vd (n + 1) else n
  end.

(** The shortest decimal [d * 10^q] that reads back as the float [m * 2^e],
    the closest to it among the shortest (David Gay's mode 0, which [repr]
    uses), searched by increasing precision [p .. p + fuel]. *)
Fixpoint shortest_digits (fuel : nat) (m : positive) (e n p : Z) : Z * Z :=
  let e2 := e - 2 in
  let v := 4 * Z.pos m in
  let lo := if (Z.pos m =? 2 ^ 52) && (-1074 <? e) then v - 1 else v - 2 in
  let hi := v + 2 in
  let incl := Z.even (Z.pos m) in
  let q := n - (p - 1) in
  let '(vn, vd) := scale2 v e2 in
  let '(ln, ld) := scale2 lo e2 in
  let '(hn, hd) := scale2 hi e2 in
  let '(un, ud) := scale10 1 q in
  (* d_lo = floor (v / 10^q) *)
  let dlo := (vn * ud) / (vd * un) in
  let dhi := dlo + 1 in
  let inside d :=
    let '(cn, cd) := scale10 d q in
    if incl then rat_le ln ld cn cd && rat_le cn cd hn hd
    else rat_lt ln ld cn cd && rat_lt cn cd hn hd in
  let '(sn, sd) := scale10 (dlo + dhi) q in
  let pick :=
    match inside dlo, inside dhi with
    | true, true =>
        (* the closer of the two: compare 2v with (dlo + dhi) * 10^q *)
        match (2 * vn * sd) ?= (sn * vd) with
        | Lt => Some dlo
        | Gt => Some dhi
        | Eq => Some (if Z.even dlo then dlo else dhi)
        end
    | true, false => Some dlo
    | false, true => Some dhi
    | false, false => None
    end in
  match pick, fuel with
  | Some d, _ => (d, q)
  | None, O => (dlo, q)
  | None, S k => shortest_digits k m e n (p + 1)
  end.

(** Drop the trailing zeros of a digit string. *)
Fixpoint strip_zeros_rev (l : list ascii) : list ascii :=
  match l with
  | "0"%char :: r => strip_zeros_rev r
  | _ => l
  end.

Definition strip_trailing_zeros (s : string) : string :=
  string_of_list_ascii (rev (strip_zeros_rev (rev (list_ascii_of_string s)))).

(** The layout of [repr]: exponent notation when the decimal point would be
    far from the digits, a plain decimal (with [.0] added) otherwise. *)
Definition repr_layout (digits : string) (decpt : Z) : string :=
  let n := Z.of_nat (String.length digits) in
  if (decpt <=? -4) || (16 <? decpt) then
    let ex := decpt - 1 in
    let mant :=
      match digits with
      | String c EmptyString => digits
      | String c rest => String c ("." ++ rest)
      | EmptyString => ""
      end in
    mant ++ "e" ++ (if ex <? 0 then "-" else "+") ++ pad0 2 (Z.abs ex)
  else if decpt <=? 0 then
    "0." ++ zeros (Z.to_nat (- decpt)) ++ digits
  else if n <=? decpt then
    digits ++ zeros (Z.to_nat (decpt - n)) ++ ".0"
  else
    substring 0 (Z.to_nat decpt) digits ++ "." ++
    substring (Z.to_nat decpt) (Z.to_nat (n - decpt)) digits.

(** [repr(x)], which is also [str(x)]. *)
Definition float_repr (x : float) : string :=
  match Prim2SF x with
  | S754_nan => "nan"
  | S754_infinity s => if s then "-inf" else "inf"
  | S754_zero s => if s then "-0.0" else "0.0"
  | S754_finite s m e =>
      let '(vn, vd) := scale2 (Z.pos m) e in
      let n0 := ((Z.log2 (Z.pos m) + e) * 30103) / 100000 in
      let n := dec_exponent 8 vn vd n0 in
      let '(d, q) := shortest_digits 16 m e n 1 in
      let ds := str_int d in
      let decpt := Z.of_nat (String.length ds) + q in
      (if s then "-" else "") ++ repr_layout (strip_trailing_zeros ds) decpt
  end.

(** *** Characters *)

Definition code (c : ascii) : N := N_of_ascii c.

(** [[0-9]]; within Latin-1 this is also [\d]. *)
Definition is_digit (c : ascii) : bool := ((48 <=? code c) && (code c <=? 57))%N.

(** [\w] of a [str] pattern within Latin-1: [c.isalnum() or c == "_"]. *)
Definition is_word (c : ascii) : bool :=
  let n := code c in
  (is_digit c
   || ((65 <=? n) && (n <=? 90)) || ((97 <=? n) && (n <=? 122)) || (n =? 95)
   || (n =? 170) || (n =? 181) || (n =? 186)
   || (n =? 178) || (n =? 179) || (n =? 185)
   || ((188 <=? n) && (n <=? 190))
   || ((192 <=? n) && (n <=? 214)) || ((216 <=? n) && (n <=? 246))
   || ((248 <=? n) && (n <=? 255)))%N.

Definition digit_val (c : ascii) : Z := Z.of_N (code c) - 48.

(** The value of a string of decimal digits. *)
Definition digits_val (l : list ascii) : Z :=
  fold_left (fun acc c => 10 * acc + digit_val c) l 0.

(** [s.endswith(suffix)] and [s[:-n]]. *)
Definition endswith (s suffix : string) : bool :=
  let n := String.length s in
  let k := String.length suffix in
  (k <=? n)%nat && String.eqb (substring (n - k) k s) suffix.

Definition drop_last (n : nat) (s : string) : string :=
  substring 0 (String.length s - n) s.

(** [x in set_of_strings]. *)
Definition mem (x : string) (l : list string) : bool :=
  existsb (String.eqb x) l.

(** *** Dates and datetimes *)

Record date := mkdate { year : Z; month : Z; day : Z }.

(** A [datetime]; [tzoffset] is [utcoffset()] in microseconds, [None] for a
    naive value. *)
Record datetime := mkdatetime {
  dt_date : date;
  hour : Z; minute : Z; second : Z; microsecond : Z;
  tzoffset : option Z
}.

(** [date.isoformat()]. *)
Definition date_isoformat (d : date) : string :=
  pad0 4 (year d) ++ "-" ++ pad0 2 (month d) ++ "-" ++ pad0 2 (day d).

(** The UTC offset as [isoformat] writes it: [+HH:MM], with [:SS] and
    [.ffffff] only when they are not zero. *)
Definition format_offset (off : Z) : string :=
  let sign := if off <? 0 then "-" else "+" in
  let a := Z.abs off in
  let hh := a / 3600000000 in
  let r := a mod 3600000000 in
  let mm := r / 60000000 in
  let r' := r mod 60000000 in
  let ss := r' / 1000000 in
  let us := r' mod 1000000 in
  sign ++ pad0 2 hh ++ ":" ++ pad0 2 mm ++
  (if negb (r' =? 0) then ":" ++ pad0 2 ss else "") ++
  (if negb (us =? 0) then "." ++ pad0 6 us else "").

(** [datetime.isoformat()]. *)
Definition isoformat (t : datetime) : string :=
  date_isoformat (dt_date t) ++ "T" ++
  pad0 2 (hour t) ++ ":" ++ pad0 2 (minute t) ++ ":" ++ pad0 2 (second t) ++
  (if negb (microsecond t =? 0) then "." ++ pad0 6 (microsecond t) else "") ++
  match tzoffset t with Some off => format_offset off | None => "" end.

Definition is_leap (y : Z) : bool :=
  ((y mod 4 =? 0) && negb (y mod 100 =? 0)) || (y mod 400 =? 0).

Definition days_in_month (y m : Z) : Z :=
  if m =? 2 then (if is_leap y then 29 else 28)
  else if (m =? 4) || (m =? 6) || (m =? 9) || (m =? 11) then 30 else 31.

Definition days_before_year (y : Z) : Z :=
  let p := y - 1 in p * 365 + p / 4 - p / 100 + p / 400.

Fixpoint days_before_month_from (n : nat) (y m : Z) : Z :=
  match n with
  | O => 0
  | S k => if Z.of_nat n <? m then days_in_month y (Z.of_nat n) + days_before_month_from k y m
           else days_before_month_from k y m
  end.

(** [date.toordinal()]. *)
Definition toordinal (d : date) : Z :=
  days_before_year (year d) + days_before_month_from 12 (year d) (month d) + day d.

(** The instant of an aware datetime, in microseconds of UTC; aware datetimes
    compare equal exactly when their instants are equal. *)
Definition instant (t : datetime) : option Z :=
  match tzoffset t with
  | None => None
  | Some off =>
      Some (((toordinal (dt_date t) * 24 + hour t) * 60 + minute t) * 60000000
            + second t * 1000000 + microsecond t - off)
  end.

(** [s.replace(old, new)] for a one-character [old]. *)
Fixpoint replace_char (old : ascii) (new : string) (s : string) : string :=
  match s with
  | EmptyString => EmptyString
  | String c r =>
      if Ascii.eqb c old then new ++ replace_char old new r
      else String c (replace_char old new r)
  end.

(** Reading [n] digits off the front of a list of characters. *)
Fixpoint read_digits (n : nat) (l : list ascii) : option (list ascii * list ascii) :=
  match n with
  | O => Some ([], l)
  | S k =>
      match l with
      | c :: r =>
          if is_digit c then
            match read_digits k r with
            | Some (ds, rest) => Some (c :: ds, rest)
            | None => None
            end
          else None
      | [] => None
      end
  end.

(** The longest run of digits at the front. *)
Fixpoint span_digits (l : list ascii) : list ascii * list ascii :=
  match l with
  | c :: r => if is_digit c then let '(ds, rest) := span_digits r in (c :: ds, rest)
              else ([], l)
  | [] => ([], [])
  end.

Definition read_char (c : ascii) (l : list ascii) : option (list ascii) :=
  match l with
  | x :: r => if Ascii.eqb x c then Some r else None
  | [] => None
  end.

(** Six fractional digits, truncated or zero-padded, as microseconds. *)
Definition micros_of_fraction (ds : list ascii) : Z :=
  digits_val (firstn 6 (ds ++ repeat "0"%char 6)).

(** [datetime.fromisoformat] on the spelling the tool service emits:
    [YYYY-MM-DD], one separator character, [HH:MM:SS], an optional fraction and
    an optional offset [+HH:MM] or [-HH:MM]. Other strings are rejected
    ([None] stands for [ValueError]); Python reads further ISO 8601 spellings
    (date only, basic format, offsets with seconds), which tool payloads do
    not use. *)
Definition fromisoformat (s : string) : option datetime :=
  let l := list_ascii_of_string s in
  match read_digits 4 l with
  | Some (y, l1) =>
  match read_char "-" l1 with Some l2 =>
  match read_digits 2 l2 with Some (mo, l3) =>
  match read_char "-" l3 with Some l4 =>
  match read_digits 2 l4 with Some (d, l5) =>
  match l5 with _sep :: l6 =>
  match read_digits 2 l6 with Some (h, l7) =>
  match read_char ":" l7 with Some l8 =>
  match read_digits 2 l8 with Some (mi, l9) =>
  match read_char ":" l9 with Some l10 =>
  match read_digits 2 l10 with Some (sec, l11) =>
    let '(us, l12) :=
      match l11 with
      | "."%char :: r =>
          let '(fs, rest) := span_digits r in
          match fs with [] => (None, l11) | _ => (Some (micros_of_fraction fs), rest) end
      | _ => (Some 0, l11)
      end in
    let tz :=
      match l12 with
      | [] => Some None
      | sg :: r =>
          if Ascii.eqb sg "+" || Ascii.eqb sg "-" then
            match read_digits 2 r with Some (oh, r1) =>
            match read_char ":" r1 with Some r2 =>
            match read_digits 2 r2 with
            | Some (om, []) =>
                let off := (digits_val oh * 60 + digits_val om) * 60000000 in
                if (digits_val oh <? 24) && (digits_val om <? 60)
                then Some (Some (if Ascii.eqb sg "-" then - off else off))
                else None
            | _ => None end
            | None => None end
            | None => None end
          else None
      end in
    let yy := digits_val y in
    let mm := digits_val mo in
    let dd := digits_val d in
    match us, tz with
    | Some u, Some off =>
        if (1 <=? yy) && (1 <=? mm) && (mm <=? 12) && (1 <=? dd)
           && (dd <=? days_in_month yy mm)
           && (digits_val h <? 24) && (digits_val mi <? 60) && (digits_val sec <? 60)
        then Some (mkdatetime (mkdate yy mm dd) (digits_val h) (digits_val mi)
                              (digits_val sec) u off)
        else None
    | _, _ => None
    end
  | None => None end | None => None end | None => None end | None => None end
  | None => None end | [] => None end | None => None end | None => None end
  | None => None end | None => None end | None => None end.

End Py.

Import Py.

(* ================================================================= *)
(** ** Outcomes of fallible code *)

(** The exceptions the service raises or lets through. *)
Inductive exn :=
| GroundingViolation (msg : string)
| ToolClientError (msg : string)
| TransportError (msg : string)      (* httpx timeouts and connection errors *)
| JSONDecodeError                    (* [resp.json()] on a body that is not JSON *)
| ValueError (msg : string)
| ValidationError (msg : string)     (* pydantic *)
| AssertionError
| GraphRecursionError                (* langgraph *)
| ModelConfigError (msg : string).

Inductive result (A : Type) :=
| Ok (a : A)
| Raise (e : exn).
Arguments Ok {A} a.
Arguments Raise {A} e.

(* ================================================================= *)
(** ** grounding.py *)

Module Grounding.

(** *** [_MONEY_RE = (?<!\w)\$([0-9]{1,3}(?:,[0-9]{3})*(?:\.[0-9]{2})?)] *)

(** [[0-9]{1,n}], greedy: the digits taken and the rest. *)
Fixpoint take_digits (n : nat) (l : list ascii) : list ascii * list ascii :=
  match n, l with
  | S k, c :: r =>
      if is_digit c then let '(ds, rest) := take_digits k r in (c :: ds, rest)
      else ([], l)
  | _, _ => ([], l)
  end.

(** [(?:,[0-9]{3})*], greedy. *)
Fixpoint comma_groups (l : list ascii) : list ascii * list ascii :=
  match l with
  | ","%char :: a :: b :: c :: r =>
      if is_digit a && is_digit b && is_digit c then
        let '(g, rest) := comma_groups r in ("," :: a :: b :: c :: g, rest)%char
      else ([], l)
  | _ => ([], l)
  end.

(** [(?:\.[0-9]{2})?], greedy. *)
Definition decimals (l : list ascii) : list ascii * list ascii :=
  match l with
  | "."%char :: a :: b :: r =>
      if is_digit a && is_digit b then (["."; a; b]%char, r) else ([], l)
  | _ => ([], l)
  end.

(** The group after the dollar sign: [None] when no digit follows. Nothing
    follows the optional parts in the pattern, so the greedy choices are the
    match the engine returns. *)
Definition money_group (l : list ascii) : option (list ascii) :=
  let '(d, r1) := take_digits 3 l in
  match d with
  | [] => None
  | _ =>
      let '(g, r2) := comma_groups r1 in
      let '(f, _) := decimals r2 in
      Some (d ++ g ++ f)%list
  end.

(** [_MONEY_RE.finditer]: [group(1)] of the successive non-overlapping
    matches, left to right. [prev] is the character before the position,
    [skip] counts the characters still inside the last match. *)
Fixpoint money_scan (prev : option ascii) (skip : nat) (l : list ascii) : list string :=
  match l with
  | [] => []
  | c :: r =>
      match skip with
      | S k => money_scan (Some c) k r
      | O =>
          let lookbehind := match prev with Some p => negb (is_word p) | None => true end in
          if lookbehind && Ascii.eqb c "$" then
            match money_group r with
            | Some g => string_of_list_ascii g :: money_scan (Some c) (List.length g) r
            | None => money_scan (Some c) 0 r
            end
          else money_scan (Some c) 0 r
      end
  end.

Definition money_tokens (text : string) : list string :=
  money_scan None 0 (list_ascii_of_string text).

(** *** [_ISO_TS_RE =
        \b(\d{4}-\d{2}-\d{2}T\d{2}:\d{2}:\d{2}(?:\.\d+)?(?:Z|[+-]\d{2}:\d{2}))\b] *)

Definition opt_bind {A B} (o : option A) (f : A -> option B) : option B :=
  match o with Some a => f a | None => None end.

(** A literal character followed by [n] digits. *)
Definition lit_digits (c : ascii) (n : nat) (l : list ascii)
  : option (list ascii * list ascii) :=
  opt_bind (read_char c l) (fun r =>
  opt_bind (read_digits n r) (fun '(ds, rest) => Some (c :: ds, rest))).

(** [(?:\.\d+)?]: a dot with all the digits after it. Giving digits back
    cannot help the rest of the pattern, which wants [Z], [+] or [-] next. *)
Definition fraction (l : list ascii) : list ascii * list ascii :=
  match l with
  | "."%char :: r =>
      let '(ds, rest) := span_digits r in
      match ds with [] => ([], l) | _ => ("."%char :: ds, rest) end
  | _ => ([], l)
  end.

(** [(?:Z|[+-]\d{2}:\d{2})]. *)
Definition zone (l : list ascii) : option (list ascii * list ascii) :=
  match l with
  | "Z"%char :: r => Some (["Z"%char], r)
  | sg :: r =>
      if Ascii.eqb sg "+" || Ascii.eqb sg "-" then
        opt_bind (read_digits 2 r) (fun '(hh, r1) =>
        opt_bind (lit_digits ":" 2 r1) (fun '(mm, r2) =>
        Some ((sg :: hh ++ mm)%list, r2)))
      else None
  | [] => None
  end.

(** The pattern from its first digit to the closing [\b]. *)
Definition ts_group (l : list ascii) : option (list ascii) :=
  opt_bind (read_digits 4 l) (fun '(y, l1) =>
  opt_bind (lit_digits "-" 2 l1) (fun '(mo, l2) =>
  opt_bind (lit_digits "-" 2 l2) (fun '(d, l3) =>
  opt_bind (lit_digits "T" 2 l3) (fun '(h, l4) =>
  opt_bind (lit_digits ":" 2 l4) (fun '(mi, l5) =>
  opt_bind (lit_digits ":" 2 l5) (fun '(sec, l6) =>
  let '(fr, l7) := fraction l6 in
  opt_bind (zone l7) (fun '(z, l8) =>
  let boundary := match l8 with c :: _ => negb (is_word c) | [] => true end in
  if boundary then Some (y ++ mo ++ d ++ h ++ mi ++ sec ++ fr ++ z)%list else None))))))).

(** [_ISO_TS_RE.finditer]. *)
Fixpoint ts_scan (prev : option ascii) (skip : nat) (l : list ascii) : list string :=
  match l with
  | [] => []
  | c :: r =>
      match skip with
      | S k => ts_scan (Some c) k r
      | O =>
          let boundary := match prev with Some p => negb (is_word p) | None => true end in
          if boundary then
            match ts_group l with
            | Some g => string_of_list_ascii g :: ts_scan (Some c) (List.length g - 1) r
            | None => ts_scan (Some c) 0 r
            end
          else ts_scan (Some c) 0 r
      end
  end.

Definition ts_tokens (text : string) : list string :=
  ts_scan None 0 (list_ascii_of_string text).

(** [v.replace(",", "")]. *)
Definition strip_commas (v : string) : string := replace_char "," "" v.

(** The set of strings built from the allowed timestamps. *)
Definition allowed_ts_strings (allowed_timestamps : list datetime) : list string :=
  flat_map (fun t =>
    let s := isoformat t in
    if endswith s "+00:00" then [s; drop_last 6 s ++ "Z"] else [s])
    allowed_timestamps.

(** The first element of a list that is not in the set. *)
Fixpoint first_outside (f : string -> string) (set : list string) (toks : list string)
  : option string :=
  match toks with
  | [] => None
  | t :: r => if mem (f t) set then first_outside f set r else Some t
  end.

Definition validate_grounded_response
    (assistant_text : string)
    (allowed_prices : list float)
    (allowed_timestamps : list datetime) : result unit :=
  let allowed_price_set := map format_2f allowed_prices in
  match first_outside strip_commas allowed_price_set (money_tokens assistant_text) with
  | Some g => Raise (GroundingViolation ("ungrounded price $" ++ g))
  | None =>
      let allowed_ts_set := allowed_ts_strings allowed_timestamps in
      match first_outside (fun g => g) allowed_ts_set (ts_tokens assistant_text) with
      | Some g => Raise (GroundingViolation ("ungrounded timestamp " ++ g))
      | None => Ok tt
      end
  end.

(** The float a money token denotes, [float(v)] for a token of at most
    fifteen digits: a correctly rounded quotient of two exact integers. *)
Definition money_value (v : string) : float :=
  let l := list_ascii_of_string (strip_commas v) in
  let '(ip, rest) := span_digits l in
  match rest with
  | "."%char :: fr =>
      PrimFloat.div (PrimFloat.of_uint63 (Uint63.of_Z (digits_val (ip ++ fr)%list)))
                    (PrimFloat.of_uint63 (Uint63.of_Z (10 ^ Z.of_nat (List.length fr))))
  | _ => PrimFloat.of_uint63 (Uint63.of_Z (digits_val ip))
  end.

End Grounding.
Import Grounding.

(* ================================================================= *)
(** ** Dictionaries and [json.dumps] *)

Module Json.

(** The values a constraints dictionary holds. Lists hold strings, which is
    what the schema's [list[str]] admits. *)
Inductive value :=
| VNone
| VBool (b : bool)
| VInt (n : Z)
| VFloat (x : float)
| VStr (s : string)
| VDate (d : date)
| VList (l : list string).

(** A [dict[str, Any]] in insertion order. *)
Definition dict := list (string * value).

Definition keys (d : dict) : list string := map fst d.

(** [d.get(k)]. *)
Fixpoint dict_get (k : string) (d : dict) : option value :=
  match d with
  | [] => None
  | (k', v) :: r => if String.eqb k k' then Some v else dict_get k r
  end.

(** [d[k] = v]: in place when the key is there, at the end otherwise. *)
Fixpoint dict_set (k : string) (v : value) (d : dict) : dict :=
  match d with
  | [] => [(k, v)]
  | (k', v') :: r => if String.eqb k k' then (k', v) :: r else (k', v') :: dict_set k v r
  end.

(** [sorted] on strings, as an insertion sort: the order is total and equal
    strings are identical, so every sorting algorithm returns this list. *)
Fixpoint insert_str (x : string) (l : list string) : list string :=
  match l with
  | [] => [x]
  | h :: t => if String.leb x h then x :: l else h :: insert_str x t
  end.

Definition sorted_strs (l : list string) : list string :=
  fold_right insert_str [] l.

(** [sorted(d.items())]: by key; the keys of a dictionary are distinct, so the
    values are never compared. *)
Fixpoint insert_item (x : string * value) (l : dict) : dict :=
  match l with
  | [] => [x]
  | h :: t => if String.leb (fst x) (fst h) then x :: l else h :: insert_item x t
  end.

Definition sorted_items (d : dict) : dict := fold_right insert_item [] d.

Definition dquote : ascii := ascii_of_nat 34.
Definition backslash : ascii := ascii_of_nat 92.

Definition hex_digit (n : N) : ascii :=
  if (n <? 10)%N then ascii_of_N (48 + n) else ascii_of_N (87 + n).

(** One character of a JSON string with [ensure_ascii=True]. *)
Definition escape_char (c : ascii) : string :=
  let n := code c in
  if (n =? 34)%N then String backslash (String dquote "")
  else if (n =? 92)%N then String backslash (String backslash "")
  else if (n =? 10)%N then String backslash "n"
  else if (n =? 13)%N then String backslash "r"
  else if (n =? 9)%N then String backslash "t"
  else if (n =? 12)%N then String backslash "f"
  else if (n =? 8)%N then String backslash "b"
  else if ((n <? 32) || (126 <? n))%N then
    String backslash ("u00" ++ String (hex_digit (n / 16)) (String (hex_digit (n mod 16)) ""))
  else String c "".

Fixpoint escape (s : string) : string :=
  match s with
  | EmptyString => ""
  | String c r => escape_char c ++ escape r
  end.

Definition json_string (s : string) : string :=
  String dquote (escape s ++ String dquote "").

(** [", ".join(l)]. *)
Definition join_comma (l : list string) : string := String.concat ", " l.

(** A float as [json.dumps] writes it. *)
Definition json_float (x : float) : string :=
  match Prim2SF x with
  | S754_nan => "NaN"
  | S754_infinity s => if s then "-Infinity" else "Infinity"
  | _ => float_repr x
  end.

(** A value as [json.dumps(..., default=str)] writes it; a [date] is not
    serializable and goes through [str]. *)
Definition json_value (v : value) : string :=
  match v with
  | VNone => "null"
  | VBool b => if b then "true" else "false"
  | VInt n => str_int n
  | VFloat x => json_float x
  | VStr s => json_string s
  | VDate d => json_string (date_isoformat d)
  | VList l => "[" ++ join_comma (map json_string l) ++ "]"
  end.

Definition json_item (kv : string * value) : string :=
  json_string (fst kv) ++ ": " ++ json_value (snd kv).

(** [json.dumps(d, sort_keys=True, default=str)]. *)
Definition json_dumps_sorted (d : dict) : string :=
  "{" ++ join_comma (map json_item (sorted_items d)) ++ "}".

End Json.
Import Json.

(* ================================================================= *)
(** ** llm_schemas.py, constraints.py, graph_helpers.py *)

Module Schemas.

(** [LLMConstraints]: every field optional. *)
Record LLMConstraints := mkLLMConstraints {
  city : option string;
  check_in : option date;
  check_out : option date;
  adults : option Z;
  children : option Z;
  rooms : option Z;
  max_price : option float;
  min_star : option float;
  amenities : option (list string);
  currency : option string;
  refundable_preferred : option bool
}.

Definition no_constraints : LLMConstraints :=
  mkLLMConstraints None None None None None None None None None None None.

Definition in_range (lo hi : Z) (o : option Z) : bool :=
  match o with Some n => (lo <=? n) && (n <=? hi) | None => true end.

(** The [Field] bounds of [LLMConstraints]; a comparison with NaN fails. *)
Definition valid_constraints (c : LLMConstraints) : bool :=
  in_range 1 10 (adults c) && in_range 0 10 (children c) && in_range 1 5 (rooms c)
  && match max_price c with Some p => PrimFloat.ltb 0 p | None => true end
  && match min_star c with Some m => PrimFloat.leb 1 m && PrimFloat.leb m 5 | None => true end.

Definition opt_item {A} (k : string) (f : A -> value) (o : option A) : dict :=
  match o with Some a => [(k, f a)] | None => [] end.

(** [model_dump(exclude_none=True)], in field order. *)
Definition model_dump (c : LLMConstraints) : dict :=
  (opt_item "city" VStr (city c) ++ opt_item "check_in" VDate (check_in c)
   ++ opt_item "check_out" VDate (check_out c) ++ opt_item "adults" VInt (adults c)
   ++ opt_item "children" VInt (children c) ++ opt_item "rooms" VInt (rooms c)
   ++ opt_item "max_price" VFloat (max_price c) ++ opt_item "min_star" VFloat (min_star c)
   ++ opt_item "amenities" VList (amenities c) ++ opt_item "currency" VStr (currency c)
   ++ opt_item "refundable_preferred" VBool (refundable_preferred c))%list.

End Schemas.
Import Schemas.

(** *** Tool data, as the tool service's response schemas type it *)

Module Data.

Record candidate := mkcandidate {
  hotel_id : string;
  name : string;
  h_city : option string;
  neighborhood : option string;
  latitude : float;
  longitude : float;
  star_rating : option float
}.

Record offer := mkoffer {
  offer_id : string;
  o_hotel_id : string;
  total_price : float;
  taxes_total : float;
  fees_total : float;
  refundable : bool;
  cancellation_deadline : option string;
  inventory_status : string;
  last_priced_ts : string;
  expires_ts : string;
  room_type : string;
  bed_config : option string;
  rate_plan : string
}.

Record ranked := mkranked { r_offer : offer; score : float }.

Record reason := mkreason { reason_offer_id : string; reason_lines : list string }.

(** An offer decorated with the fields of its hotel. *)
Record card := mkcard {
  c_offer : offer;
  hotel_name : string;
  c_city : option string;
  c_neighborhood : option string;
  c_latitude : option float;
  c_longitude : option float;
  c_star_rating : option float
}.

(** The JSON object a tool answers with; an absent list reads as empty
    ([result.get(k) or []]). *)
Record tool_data := mktool_data {
  td_candidates : list candidate;
  td_offers : list offer;
  td_ranked_offers : list ranked;
  td_reasons : list reason
}.

End Data.
Import Data.

(** *** The constraints dictionary of a session

    [state["constraints"]] only ever holds dumps of validated
    [LLMConstraints], possibly read back from the JSON snapshot, where a date
    is its ISO string. It is modelled with one optional entry per key;
    [LLMConstraints.model_validate] succeeds on it. *)

Module Constraints.

Inductive rawdate :=
| DateObj (d : date)      (* a [date] object *)
| DateIso (d : date).     (* the string [d.isoformat()] *)

Definition date_of (r : rawdate) : date :=
  match r with DateObj d => d | DateIso d => d end.

Record cdict := mkcdict {
  d_city : option string;
  d_check_in : option rawdate;
  d_check_out : option rawdate;
  d_adults : option Z;
  d_children : option Z;
  d_rooms : option Z;
  d_max_price : option float;
  d_min_star : option float;
  d_amenities : option (list string);
  d_currency : option string;
  d_refundable_preferred : option bool
}.

Definition empty_cdict : cdict :=
  mkcdict None None None None None None None None None None None.

(** [LLMConstraints.model_validate(d)]. *)
Definition model_validate (d : cdict) : LLMConstraints :=
  mkLLMConstraints (d_city d) (option_map date_of (d_check_in d))
    (option_map date_of (d_check_out d)) (d_adults d) (d_children d) (d_rooms d)
    (d_max_price d) (d_min_star d) (d_amenities d) (d_currency d)
    (d_refundable_preferred d).

(** [c.model_dump(exclude_none=True)] as a constraints dictionary. *)
Definition dump (c : LLMConstraints) : cdict :=
  mkcdict (city c) (option_map DateObj (check_in c)) (option_map DateObj (check_out c))
    (adults c) (children c) (rooms c) (max_price c) (min_star c) (amenities c)
    (currency c) (refundable_preferred c).

(** [LLMConstraints.model_validate(d).model_dump(exclude_none=True)]. *)
Definition parsed (d : cdict) : cdict := dump (model_validate d).

(** The same dictionary for [json.dumps]. *)
Definition to_dict (d : cdict) : dict :=
  let dv r := match r with DateObj x => VDate x | DateIso x => VStr (date_isoformat x) end in
  (opt_item "city" VStr (d_city d) ++ opt_item "check_in" dv (d_check_in d)
   ++ opt_item "check_out" dv (d_check_out d) ++ opt_item "adults" VInt (d_adults d)
   ++ opt_item "children" VInt (d_children d) ++ opt_item "rooms" VInt (d_rooms d)
   ++ opt_item "max_price" VFloat (d_max_price d) ++ opt_item "min_star" VFloat (d_min_star d)
   ++ opt_item "amenities" VList (d_amenities d) ++ opt_item "currency" VStr (d_currency d)
   ++ opt_item "refundable_preferred" VBool (d_refundable_preferred d))%list.

Definition opt_eqb {A} (eqb : A -> A -> bool) (a b : option A) : bool :=
  match a, b with
  | Some x, Some y => eqb x y
  | None, None => true
  | _, _ => false
  end.

Definition date_eqb (a b : date) : bool :=
  (year a =? year b) && (month a =? month b) && (day a =? day b).

(** A [date] never equals a [str]. *)
Definition rawdate_eqb (a b : rawdate) : bool :=
  match a, b with
  | DateObj x, DateObj y => date_eqb x y
  | DateIso x, DateIso y => date_eqb x y
  | _, _ => false
  end.

Fixpoint strs_eqb (a b : list string) : bool :=
  match a, b with
  | [], [] => true
  | x :: a', y :: b' => String.eqb x y && strs_eqb a' b'
  | _, _ => false
  end.

(** [d1 == d2] on constraints dictionaries. *)
Definition cdict_eqb (a b : cdict) : bool :=
  opt_eqb String.eqb (d_city a) (d_city b)
  && opt_eqb rawdate_eqb (d_check_in a) (d_check_in b)
  && opt_eqb rawdate_eqb (d_check_out a) (d_check_out b)
  && opt_eqb Z.eqb (d_adults a) (d_adults b)
  && opt_eqb Z.eqb (d_children a) (d_children b)
  && opt_eqb Z.eqb (d_rooms a) (d_rooms b)
  && opt_eqb PrimFloat.eqb (d_max_price a) (d_max_price b)
  && opt_eqb PrimFloat.eqb (d_min_star a) (d_min_star b)
  && opt_eqb strs_eqb (d_amenities a) (d_amenities b)
  && opt_eqb String.eqb (d_currency a) (d_currency b)
  && opt_eqb Bool.eqb (d_refundable_preferred a) (d_refundable_preferred b).

(** The [Constraints] dataclass of constraints.py. *)
Record Constraints := mkConstraints {
  k_city : option string;
  k_check_in : option date;
  k_check_out : option date;
  k_adults : option Z;
  k_children : option Z;
  k_rooms : option Z;
  k_max_price : option float;
  k_min_star : option float;
  k_amenities : option (list string);
  k_refundable_preferred : option bool;
  k_currency : string
}.

(** The dataclass built from the tool subset of a parsed dictionary: every key of a parsed
    dictionary is tool-relevant; [currency] defaults to ["USD"]. *)
Definition Constraints_of (parsed : cdict) : Constraints :=
  mkConstraints (d_city parsed) (option_map date_of (d_check_in parsed))
    (option_map date_of (d_check_out parsed)) (d_adults parsed) (d_children parsed)
    (d_rooms parsed) (d_max_price parsed) (d_min_star parsed) (d_amenities parsed)
    (d_refundable_preferred parsed)
    (match d_currency parsed with Some c => c | None => "USD" end).

Definition is_complete (c : Constraints) : bool :=
  truthy_ostr (k_city c) && is_some (k_check_in c) && is_some (k_check_out c)
  && truthy_oint (k_adults c) && truthy_oint (k_rooms c).

Record hard_filters := mkhard_filters {
  hf_max_price : option float;
  hf_min_star : option float;
  hf_amenities : option (list string);
  hf_refundable_only : option bool
}.

Definition keep_if {A} (truthy : A -> bool) (o : option A) : option A :=
  match o with Some a => if truthy a then Some a else None | None => None end.

Definition hard_filters_payload (c : Constraints) : option hard_filters :=
  let hf := mkhard_filters (keep_if truthy_float (k_max_price c))
                           (keep_if truthy_float (k_min_star c))
                           (keep_if truthy_list (k_amenities c))
                           (keep_if (fun b => b) (k_refundable_preferred c)) in
  match hf with
  | mkhard_filters None None None None => None
  | _ => Some hf
  end.

Record occupancy := mkoccupancy { occ_adults : option Z; occ_children : Z; occ_rooms : option Z }.

Definition or_zero (o : option Z) : Z :=
  match o with Some n => if n =? 0 then 0 else n | None => 0 end.

Record search_payload := mksearch_payload {
  sp_tenant_id : string;
  sp_city : string;
  sp_check_in : string;
  sp_check_out : string;
  sp_occupancy : occupancy;
  sp_hard_filters : option hard_filters
}.

(** [to_tool_payload]; [None] stands for the failed [assert]. *)
Definition to_tool_payload (c : Constraints) (tenant_id : string) : option search_payload :=
  if is_complete c then
    match k_city c, k_check_in c, k_check_out c with
    | Some ct, Some ci, Some co =>
        Some (mksearch_payload tenant_id ct (date_isoformat ci) (date_isoformat co)
                (mkoccupancy (k_adults c) (or_zero (k_children c)) (k_rooms c))
                (hard_filters_payload c))
    | _, _, _ => None
    end
  else None.

End Constraints.
Import Constraints.

Module Helpers.

Definition tool_constraint_keys : list string :=
  ["city"; "check_in"; "check_out"; "adults"; "children"; "rooms"; "max_price";
   "min_star"; "amenities"; "refundable_preferred"; "currency"].

(** [tool_constraint_subset]. *)
Definition tool_constraint_subset (d : dict) : dict :=
  filter (fun kv => mem (fst kv) tool_constraint_keys) d.

(** [if isinstance(subset.get(k), date): subset[k] = subset[k].isoformat()]. *)
Definition iso_date_at (k : string) (d : dict) : dict :=
  match dict_get k d with
  | Some (VDate x) => dict_set k (VStr (date_isoformat x)) d
  | _ => d
  end.

(** [if isinstance(subset.get(k), list): subset[k] = sorted([str(a) for a in subset[k]])]. *)
Definition sort_list_at (k : string) (d : dict) : dict :=
  match dict_get k d with
  | Some (VList l) => dict_set k (VList (sorted_strs l)) d
  | _ => d
  end.

(** [_tool_constraints_key] of graph.py. *)
Definition _tool_constraints_key (constraints : dict) : string :=
  let subset := tool_constraint_subset constraints in
  let subset := iso_date_at "check_in" subset in
  let subset := iso_date_at "check_out" subset in
  let subset := sort_list_at "amenities" subset in
  json_dumps_sorted subset.

(** The names of the required fields, as [missing_required_fields] lists them. *)
Inductive required := RCity | RDates | RAdults | RRooms.

Definition required_eqb (a b : required) : bool :=
  match a, b with
  | RCity, RCity | RDates, RDates | RAdults, RAdults | RRooms, RRooms => true
  | _, _ => false
  end.

Definition required_name (r : required) : string :=
  match r with RCity => "city" | RDates => "dates" | RAdults => "adults" | RRooms => "rooms" end.

Definition has (r : required) (l : list required) : bool := existsb (required_eqb r) l.

Definition missing_required_fields (c : cdict) : list required :=
  ((if negb (truthy_ostr (d_city c)) then [RCity] else [])
   ++ (if negb (is_some (d_check_in c)) || negb (is_some (d_check_out c)) then [RDates] else [])
   ++ (if negb (truthy_oint (d_adults c)) then [RAdults] else [])
   ++ (if negb (truthy_oint (d_rooms c)) then [RRooms] else []))%list.

(** [f"{ci}"] for a stored date. *)
Definition str_rawdate (r : rawdate) : string := date_isoformat (date_of r).

Definition clarify_message (missing : list required) (c : cdict) : string :=
  let city := d_city c in
  let ci := d_check_in c in
  let co := d_check_out c in
  let is_adults_rooms :=
    match missing with [RAdults; RRooms] => true | _ => false end in
  match is_adults_rooms, keep_if truthy_str city, ci, co with
  | true, Some ct, Some i, Some o =>
      "I can search " ++ ct ++ " for " ++ str_rawdate i ++ " to " ++ str_rawdate o
      ++ ". How many adults and rooms?"
  | _, _, _, _ =>
      if has RDates missing && truthy_ostr city then
        "What dates should I use for " ++ match city with Some ct => ct | None => "" end
        ++ "? (YYYY-MM-DD to YYYY-MM-DD)"
      else if has RCity missing && has RDates missing then
        "Which city and dates? (Example: Austin, 2026-03-10 to 2026-03-12)"
      else if has RCity missing then "Which city should I search in?"
      else if has RDates missing then
        "What are your check-in and check-out dates? (YYYY-MM-DD to YYYY-MM-DD)"
      else if has RAdults missing && has RRooms missing then "How many adults and rooms?"
      else if has RAdults missing then "How many adults?"
      else if has RRooms missing then "How many rooms?"
      else "What details should I use to continue?"
  end.

Definition or_else {A} (upd base : option A) : option A :=
  match upd with Some v => Some v | None => base end.

(** [merge_constraints_dict]: the fields present in the update overwrite. *)
Definition merge_constraints_dict (base : cdict) (update : option LLMConstraints) : cdict :=
  match update with
  | None => base
  | Some u =>
      mkcdict (or_else (city u) (d_city base))
        (or_else (option_map DateObj (check_in u)) (d_check_in base))
        (or_else (option_map DateObj (check_out u)) (d_check_out base))
        (or_else (adults u) (d_adults base))
        (or_else (children u) (d_children base))
        (or_else (rooms u) (d_rooms base))
        (or_else (max_price u) (d_max_price base))
        (or_else (min_star u) (d_min_star base))
        (or_else (amenities u) (d_amenities base))
        (or_else (currency u) (d_currency base))
        (or_else (refundable_preferred u) (d_refundable_preferred base))
  end.

(** [parse_dt] on a string: [datetime.fromisoformat(v.replace("Z", "+00:00"))]. *)
Definition parse_dt (v : string) : option datetime :=
  fromisoformat (replace_char "Z" "+00:00" v).

Definition find_by {A} (f : A -> bool) (l : list A) : option A := List.find f l.

(** A dictionary is falsy when empty: an offer or a card always has keys. *)
Definition find_selected_offer
    (selected_offer_id : option string)
    (recommended_offers : list card)
    (offers : list offer)
    (candidates : list candidate) : option card :=
  match keep_if truthy_str selected_offer_id with
  | None => None
  | Some sel =>
      match find_by (fun c => String.eqb (offer_id (c_offer c)) sel) recommended_offers with
      | Some c => Some c
      | None =>
          match find_by (fun o => String.eqb (offer_id o) sel) offers with
          | None => None
          | Some target =>
              let h := find_by (fun cand => String.eqb (hotel_id cand) (o_hotel_id target))
                               candidates in
              Some (mkcard target
                      (match h with Some x => name x | None => "Unknown hotel" end)
                      (match h with Some x => h_city x | None => None end)
                      (match h with Some x => neighborhood x | None => None end)
                      (option_map latitude h)
                      (option_map longitude h)
                      (match h with Some x => star_rating x | None => None end))
          end
      end
  end.

End Helpers.
Import Helpers.

(** *** More string built-ins *)

Module Str.

Definition nl : string := String (ascii_of_nat 10) "".

(** [str.lower()] within Latin-1. *)
Definition lower_char (c : ascii) : ascii :=
  let n := code c in
  if (((65 <=? n) && (n <=? 90))
      || ((192 <=? n) && (n <=? 222) && negb (n =? 215)))%N
  then ascii_of_N (n + 32) else c.

Fixpoint lower (s : string) : string :=
  match s with
  | EmptyString => EmptyString
  | String c r => String (lower_char c) (lower r)
  end.

(** [needle in hay] for a non-empty [needle]. *)
Definition contains (needle hay : string) : bool :=
  is_some (String.index 0 needle hay).

(** [c.isspace()] within Latin-1. *)
Definition is_space (c : ascii) : bool :=
  let n := code c in
  (((9 <=? n) && (n <=? 13)) || ((28 <=? n) && (n <=? 32)) || (n =? 133) || (n =? 160))%N.

Fixpoint lstrip_list (l : list ascii) : list ascii :=
  match l with
  | c :: r => if is_space c then lstrip_list r else l
  | [] => []
  end.

(** [s.rstrip()] and [s.strip()]. *)
Definition rstrip (s : string) : string :=
  string_of_list_ascii (rev (lstrip_list (rev (list_ascii_of_string s)))).

Definition strip (s : string) : string :=
  string_of_list_ascii
    (rev (lstrip_list (rev (lstrip_list (list_ascii_of_string s))))).

(** [l[:n]], where a negative [n] counts from the end. *)
Definition slice_to {A} (n : Z) (l : list A) : list A :=
  if n <? 0 then firstn (Z.to_nat (Z.of_nat (List.length l) + n)) l
  else firstn (Z.to_nat n) l.

End Str.
Import Str.

(* ================================================================= *)
(** ** settings.py *)

Module Settings.

Record AgentSettings := mkAgentSettings {
  default_tenant_id : string;
  tools_base_url : string;
  openai_api_key : option string;
  max_tool_calls_per_turn : Z;
  max_hotels_priced_per_turn : Z;
  tool_max_retries : Z
}.

(** The defaults of [AgentSettings], with the credential the tests configure. *)
Definition default_settings : AgentSettings :=
  mkAgentSettings "t_default" "http://localhost:8001" (Some "test-key") 8 20 2.

End Settings.
Import Settings.

(* ================================================================= *)
(** ** The outside world: the language model and the tool service *)

Module World.

Inductive ToolName := search_candidates | get_offers | rank_offers.

Definition tool_name_str (t : ToolName) : string :=
  match t with
  | search_candidates => "search_candidates"
  | get_offers => "get_offers"
  | rank_offers => "rank_offers"
  end.

Definition ToolName_eqb (a b : ToolName) : bool :=
  match a, b with
  | search_candidates, search_candidates
  | get_offers, get_offers
  | rank_offers, rank_offers => true
  | _, _ => false
  end.

Inductive kind := clarify | explain | confirm | generic.

Definition kind_eqb (a b : kind) : bool :=
  match a, b with
  | clarify, clarify | explain, explain | confirm, confirm | generic, generic => true
  | _, _ => false
  end.

Definition kind_str (k : kind) : string :=
  match k with
  | clarify => "clarify" | explain => "explain" | confirm => "confirm" | generic => "generic"
  end.

Record LLMHardFiltersSet := mkLLMHardFiltersSet {
  hs_max_price : option float;
  hs_min_star : option float;
  hs_amenities : option (list string);
  hs_refundable_preferred : option bool
}.

Inductive HardFilterKey := HK_max_price | HK_min_star | HK_amenities | HK_refundable_preferred.

(** What one call of the language model yields once its text went through
    [extract_first_json_object], [json.loads] and the schema of the calling
    stage: the validated object, or a failure of any of these steps (or of
    the call itself) with the text of its exception. Each stage accepts the
    shape of its own schema only. [ReplyText] is a free-text answer. *)
Inductive llm_reply :=
| ReplyInvalid (err : string)
| ReplyExtraction (constraints_update : option LLMConstraints) (offer_id : option string)
| ReplyDateResolve (check_in check_out : option date)
                   (needs_clarification : bool) (question : option string)
| ReplyCityResolve (city : option string)
                   (needs_clarification : bool) (question : option string)
| ReplyOccupancyResolve (adults children rooms : option Z)
                        (needs_clarification : bool) (question : option string)
| ReplyAmenitiesResolve (amenities : option (list string)) (refundable_preferred : option bool)
                        (needs_clarification : bool) (question : option string)
| ReplyBudgetResolve (max_price : option float)
| ReplyHardFiltersPatch (set : option LLMHardFiltersSet) (clear : list HardFilterKey)
| ReplyCallTool (tool_name : ToolName) (constraints_update : option LLMConstraints)
| ReplyRespond (k : kind) (message : option string) (constraints_update : option LLMConstraints)
| ReplyText (content : string).

(** One HTTP attempt: the transport fails, or a response comes back with a
    status, a text and, when the text is JSON, the decoded object. *)
Inductive http_outcome :=
| HttpFail (err : string)
| HttpResponse (status : Z) (text : string) (body : option tool_data).

Record offers_payload := mkoffers_payload {
  op_tenant_id : string;
  op_hotel_ids : list string;
  op_check_in : string;
  op_check_out : string;
  op_occupancy : occupancy;
  op_currency : string;
  op_hard_filters : option hard_filters
}.

Record rank_payload := mkrank_payload {
  rp_offers : list offer;
  rp_max_price : option float
  (* objective_weights: the constants 0.65, 0.25, 0.10 *)
}.

Inductive payload :=
| SearchPayload (p : search_payload)
| OffersPayload (p : offers_payload)
| RankPayload (p : rank_payload).

(** A request to the tool service. *)
Record tool_call := mktool_call {
  tc_tool : ToolName;
  tc_path : string;
  tc_payload : payload
}.

Record world := mkworld {
  llm_tape : list llm_reply;        (* answers of the model still to come *)
  http_tape : list http_outcome;    (* outcomes of the HTTP attempts still to come *)
  tool_calls : list tool_call;      (* invocations of [ToolClient.call], oldest first *)
  http_posts : list tool_call       (* HTTP attempts made, oldest first *)
}.

(** Code with effects on the world that may raise. *)
Definition M (A : Type) : Type := world -> result A * world.

Definition ret {A} (a : A) : M A := fun w => (Ok a, w).

Definition raise {A} (e : exn) : M A := fun w => (Raise e, w).

Definition bind {A B} (m : M A) (f : A -> M B) : M B :=
  fun w =>
    match m w with
    | (Ok a, w') => f a w'
    | (Raise e, w') => (Raise e, w')
    end.

(** [await llm.ainvoke(...)]: the next answer on the tape; a tape that ran
    out stands for a model that no longer answers. *)
Definition llm_invoke : M llm_reply :=
  fun w =>
    match llm_tape w with
    | r :: rest => (Ok r, mkworld rest (http_tape w) (tool_calls w) (http_posts w))
    | [] => (Ok (ReplyInvalid "no answer"), w)
    end.

(** [await client.post(url, json=payload)]. *)
Definition http_post (req : tool_call) : M http_outcome :=
  fun w =>
    let posts := (http_posts w ++ [req])%list in
    match http_tape w with
    | o :: rest => (Ok o, mkworld (llm_tape w) rest (tool_calls w) posts)
    | [] => (Ok (HttpFail "connection failed"),
             mkworld (llm_tape w) [] (tool_calls w) posts)
    end.

Definition log_tool_call (req : tool_call) : M unit :=
  fun w => (Ok tt, mkworld (llm_tape w) (http_tape w) (tool_calls w ++ [req])%list (http_posts w)).

End World.
Import World.

Declare Scope monad_scope.
Notation "x <- m ;; k" := (bind m (fun x => k))
  (at level 61, m at next level, right associativity) : monad_scope.
Notation "' pat <- m ;; k" := (bind m (fun x => match x with pat => k end))
  (at level 61, pat pattern, m at next level, right associativity) : monad_scope.
Open Scope monad_scope.

(* ================================================================= *)
(** ** tool_client.py *)

Module ToolClient.

Record event := mkevent {
  ev_tool_name : string;
  ev_path : string;
  ev_url : string;
  ev_status : string;
  ev_retries : Z;
  ev_result_count : Z
  (* latency and the debug previews of payload and response are left out *)
}.

(** [_result_counts]. *)
Definition _result_counts (tool : ToolName) (data : tool_data) : Z :=
  match tool with
  | search_candidates => Z.of_nat (List.length (td_candidates data))
  | get_offers => Z.of_nat (List.length (td_offers data))
  | rank_offers => Z.of_nat (List.length (td_ranked_offers data))
  end.

Fixpoint lstrip_slash (l : list ascii) : list ascii :=
  match l with
  | "/"%char :: r => lstrip_slash r
  | _ => l
  end.

(** [base_url.rstrip("/")]. *)
Definition rstrip_slash (s : string) : string :=
  string_of_list_ascii (rev (lstrip_slash (rev (list_ascii_of_string s)))).

Definition _ok_event (base_url : string) (tool : ToolName) (path : string)
    (data : tool_data) (retries : Z) : event :=
  mkevent (tool_name_str tool) path (rstrip_slash base_url ++ path) "OK" retries
          (_result_counts tool data).

Section Call.

Variable SETTINGS : AgentSettings.

(** What the [try] body of one attempt comes to: the decoded object, or the
    exception raised inside it. A status of 400 or more raises
    [ToolClientError]. *)
Definition attempt_result (tool : ToolName) (o : http_outcome) : result tool_data :=
  match o with
  | HttpFail err => Raise (TransportError err)
  | HttpResponse status text body =>
      if 400 <=? status then
        Raise (ToolClientError
                 ("tool " ++ tool_name_str tool ++ " failed: "
                  ++ str_int status ++ " " ++ text))
      else
        match body with
        | None => Raise JSONDecodeError
        | Some data => Ok data
        end
  end.

(** The body of [for attempt in range(SETTINGS.tool_max_retries + 1)], with
    [n] iterations left. Every exception of the [try] body reaches the same
    handler: retry while [attempt < tool_max_retries], otherwise re-raise what
    was caught. Running off the end of the loop (an empty range) raises
    [ToolClientError]. *)
Fixpoint call_loop (n : nat) (attempt retries : Z) (req : tool_call)
  : M (tool_data * event) :=
  match n with
  | O => raise (ToolClientError
                  ("tool " ++ tool_name_str (tc_tool req) ++ " failed: None"))
  | S k =>
      o <- http_post req ;;
      match attempt_result (tc_tool req) o with
      | Ok data =>
          ret (data, _ok_event (tools_base_url SETTINGS) (tc_tool req)
                               (tc_path req) data retries)
      | Raise e =>
          if attempt <? tool_max_retries SETTINGS
          then call_loop k (attempt + 1) (retries + 1) req
          else raise e
      end
  end.

(** [ToolClient.call]. *)
Definition call (tool : ToolName) (path : string) (p : payload)
  : M (tool_data * event) :=
  let req := mktool_call tool path p in
  _ <- log_tool_call req ;;
  call_loop (Z.to_nat (tool_max_retries SETTINGS + 1)) 0 0 req.

End Call.

End ToolClient.
Import ToolClient.

(* ================================================================= *)
(** ** graph.py *)

Module Graph.

(** The pending action, [state["llm_action"]]. *)
Inductive action :=
| CallTool (tool_name : ToolName)
| Respond (k : kind) (message : option string).

(** [GraphState]. A list that is absent reads as the empty list, and an
    absent counter as 0, which is how every use reads them; for
    [tool_constraints_key] the code tells an absent key ([None]) from a key
    holding [None] ([Some None]). *)
Record GraphState := mkGraphState {
  user_message : string;
  constraints : cdict;
  candidates : list candidate;
  offers : list offer;
  ranked_offers : list ranked;
  reasons : list reason;
  tool_timeline : list event;
  recommended_offers : list card;
  selected_offer_id : option string;
  last_selected_offer_id : option string;
  tool_constraints_key : option (option string);
  assistant_message : option string;
  agent_state : option string;
  llm_action : option action;
  tool_calls_this_turn : Z;
  _end_turn : bool
}.

Definition set_user_message (v : string) (st : GraphState) : GraphState :=
  mkGraphState v (constraints st) (candidates st) (offers st) (ranked_offers st) (reasons st) (tool_timeline st) (recommended_offers st) (selected_offer_id st) (last_selected_offer_id st) (tool_constraints_key st) (assistant_message st) (agent_state st) (llm_action st) (tool_calls_this_turn st) (_end_turn st).
Definition set_constraints (v : cdict) (st : GraphState) : GraphState :=
  mkGraphState (user_message st) v (candidates st) (offers st) (ranked_offers st) (reasons st) (tool_timeline st) (recommended_offers st) (selected_offer_id st) (last_selected_offer_id st) (tool_constraints_key st) (assistant_message st) (agent_state st) (llm_action st) (tool_calls_this_turn st) (_end_turn st).
Definition set_candidates (v : list candidate) (st : GraphState) : GraphState :=
  mkGraphState (user_message st) (constraints st) v (offers st) (ranked_offers st) (reasons st) (tool_timeline st) (recommended_offers st) (selected_offer_id st) (last_selected_offer_id st) (tool_constraints_key st) (assistant_message st) (agent_state st) (llm_action st) (tool_calls_this_turn st) (_end_turn st).
Definition set_offers (v : list offer) (st : GraphState) : GraphState :=
  mkGraphState (user_message st) (constraints st) (candidates st) v (ranked_offers st) (reasons st) (tool_timeline st) (recommended_offers st) (selected_offer_id st) (last_selected_offer_id st) (tool_constraints_key st) (assistant_message st) (agent_state st) (llm_action st) (tool_calls_this_turn st) (_end_turn st).
Definition set_ranked_offers (v : list ranked) (st : GraphState) : GraphState :=
  mkGraphState (user_message st) (constraints st) (candidates st) (offers st) v (reasons st) (tool_timeline st) (recommended_offers st) (selected_offer_id st) (last_selected_offer_id st) (tool_constraints_key st) (assistant_message st) (agent_state st) (llm_action st) (tool_calls_this_turn st) (_end_turn st).
Definition set_reasons (v : list reason) (st : GraphState) : GraphState :=
  mkGraphState (user_message st) (constraints st) (candidates st) (offers st) (ranked_offers st) v (tool_timeline st) (recommended_offers st) (selected_offer_id st) (last_selected_offer_id st) (tool_constraints_key st) (assistant_message st) (agent_state st) (llm_action st) (tool_calls_this_turn st) (_end_turn st).
Definition set_tool_timeline (v : list event) (st : GraphState) : GraphState :=
  mkGraphState (user_message st) (constraints st) (candidates st) (offers st) (ranked_offers st) (reasons st) v (recommended_offers st) (selected_offer_id st) (last_selected_offer_id st) (tool_constraints_key st) (assistant_message st) (agent_state st) (llm_action st) (tool_calls_this_turn st) (_end_turn st).
Definition set_recommended_offers (v : list card) (st : GraphState) : GraphState :=
  mkGraphState (user_message st) (constraints st) (candidates st) (offers st) (ranked_offers st) (reasons st) (tool_timeline st) v (selected_offer_id st) (last_selected_offer_id st) (tool_constraints_key st) (assistant_message st) (agent_state st) (llm_action st) (tool_calls_this_turn st) (_end_turn st).
Definition set_selected_offer_id (v : option string) (st : GraphState) : GraphState :=
  mkGraphState (user_message st) (constraints st) (candidates st) (offers st) (ranked_offers st) (reasons st) (tool_timeline st) (recommended_offers st) v (last_selected_offer_id st) (tool_constraints_key st) (assistant_message st) (agent_state st) (llm_action st) (tool_calls_this_turn st) (_end_turn st).
Definition set_last_selected_offer_id (v : option string) (st : GraphState) : GraphState :=
  mkGraphState (user_message st) (constraints st) (candidates st) (offers st) (ranked_offers st) (reasons st) (tool_timeline st) (recommended_offers st) (selected_offer_id st) v (tool_constraints_key st) (assistant_message st) (agent_state st) (llm_action st) (tool_calls_this_turn st) (_end_turn st).
Definition set_tool_constraints_key (v : option (option string)) (st : GraphState) : GraphState :=
  mkGraphState (user_message st) (constraints st) (candidates st) (offers st) (ranked_offers st) (reasons st) (tool_timeline st) (recommended_offers st) (selected_offer_id st) (last_selected_offer_id st) v (assistant_message st) (agent_state st) (llm_action st) (tool_calls_this_turn st) (_end_turn st).
Definition set_assistant_message (v : option string) (st : GraphState) : GraphState :=
  mkGraphState (user_message st) (constraints st) (candidates st) (offers st) (ranked_offers st) (reasons st) (tool_timeline st) (recommended_offers st) (selected_offer_id st) (last_selected_offer_id st) (tool_constraints_key st) v (agent_state st) (llm_action st) (tool_calls_this_turn st) (_end_turn st).
Definition set_agent_state (v : option string) (st : GraphState) : GraphState :=
  mkGraphState (user_message st) (constraints st) (candidates st) (offers st) (ranked_offers st) (reasons st) (tool_timeline st) (recommended_offers st) (selected_offer_id st) (last_selected_offer_id st) (tool_constraints_key st) (assistant_message st) v (llm_action st) (tool_calls_this_turn st) (_end_turn st).
Definition set_llm_action (v : option action) (st : GraphState) : GraphState :=
  mkGraphState (user_message st) (constraints st) (candidates st) (offers st) (ranked_offers st) (reasons st) (tool_timeline st) (recommended_offers st) (selected_offer_id st) (last_selected_offer_id st) (tool_constraints_key st) (assistant_message st) (agent_state st) v (tool_calls_this_turn st) (_end_turn st).
Definition set_tool_calls_this_turn (v : Z) (st : GraphState) : GraphState :=
  mkGraphState (user_message st) (constraints st) (candidates st) (offers st) (ranked_offers st) (reasons st) (tool_timeline st) (recommended_offers st) (selected_offer_id st) (last_selected_offer_id st) (tool_constraints_key st) (assistant_message st) (agent_state st) (llm_action st) v (_end_turn st).
Definition set_end_turn (v : bool) (st : GraphState) : GraphState :=
  mkGraphState (user_message st) (constraints st) (candidates st) (offers st) (ranked_offers st) (reasons st) (tool_timeline st) (recommended_offers st) (selected_offer_id st) (last_selected_offer_id st) (tool_constraints_key st) (assistant_message st) (agent_state st) (llm_action st) (tool_calls_this_turn st) v.

Definition initial_state : GraphState :=
  mkGraphState "" empty_cdict [] [] [] [] [] [] None None None None None None 0 false.

(** [AgentSettings.max_tool_calls_per_turn] and the rest are read from
    [SETTINGS]. *)
Section WithSettings.

Variable SETTINGS : AgentSettings.

(** [get_chat_model] of model.py, as far as it can fail. *)
Definition get_chat_model : M unit :=
  if truthy_ostr (openai_api_key SETTINGS) then ret tt
  else raise (ModelConfigError
    "OPENAI_API_KEY is not set. Configure it (infra/.env) and restart the agent.").

(** [for attempt in range(n): try: ... break; except Exception: ...]: the
    first answer the stage's schema accepts, [inr] of the last error when
    none of the [n] answers is. *)
Fixpoint llm_attempts {A} (n : nat) (accept : llm_reply -> string + A) (last_err : string)
  : M (string + A) :=
  match n with
  | O => ret (inl last_err)
  | S k =>
      r <- llm_invoke ;;
      match accept r with
      | inr a => ret (inr a)
      | inl err => llm_attempts k accept err
      end
  end.

Definition reply_error (r : llm_reply) : string :=
  match r with ReplyInvalid err => err | _ => "validation error" end.

Definition is_hex_lower (c : ascii) : bool :=
  is_digit c || ((97 <=? code c) && (code c <=? 102))%N.

(** The text of a [UUID]: 8-4-4-4-12 hexadecimal digits. *)
Definition is_uuid (s : string) : bool :=
  let l := list_ascii_of_string s in
  (List.length l =? 36)%nat
  && forallb (fun '(i, c) =>
       if ((i =? 8) || (i =? 13) || (i =? 18) || (i =? 23))%nat
       then Ascii.eqb c "-" else is_hex_lower c)
     (combine (seq 0 36) l).

Definition valid_update (u : option LLMConstraints) : bool :=
  match u with Some c => valid_constraints c | None => true end.

(** [LLMExtraction.model_validate], after [offer_id == ""] became [None]. *)
Definition accept_extraction (r : llm_reply)
  : string + (option LLMConstraints * option string) :=
  match r with
  | ReplyExtraction upd oid =>
      let oid := keep_if truthy_str oid in
      if valid_update upd && match oid with Some s => is_uuid s | None => true end
      then inr (upd, oid) else inl "validation error"
  | _ => inl (reply_error r)
  end.

Record date_resolve := mkdate_resolve {
  dr_check_in : option date; dr_check_out : option date;
  dr_needs_clarification : bool; dr_question : option string }.

Definition accept_date (r : llm_reply) : string + date_resolve :=
  match r with
  | ReplyDateResolve ci co nc q => inr (mkdate_resolve ci co nc q)
  | _ => inl (reply_error r)
  end.

Record city_resolve := mkcity_resolve {
  cr_city : option string; cr_needs_clarification : bool; cr_question : option string }.

Definition accept_city (r : llm_reply) : string + city_resolve :=
  match r with
  | ReplyCityResolve c nc q => inr (mkcity_resolve c nc q)
  | _ => inl (reply_error r)
  end.

Record occupancy_resolve := mkoccupancy_resolve {
  or_adults : option Z; or_children : option Z; or_rooms : option Z;
  or_needs_clarification : bool; or_question : option string }.

Definition accept_occupancy (r : llm_reply) : string + occupancy_resolve :=
  match r with
  | ReplyOccupancyResolve a c ro nc q =>
      if in_range 1 10 a && in_range 0 10 c && in_range 1 5 ro
      then inr (mkoccupancy_resolve a c ro nc q) else inl "validation error"
  | _ => inl (reply_error r)
  end.

Record amenities_resolve := mkamenities_resolve {
  ar_amenities : option (list string); ar_refundable_preferred : option bool;
  ar_needs_clarification : bool; ar_question : option string }.

Definition accept_amenities (r : llm_reply) : string + amenities_resolve :=
  match r with
  | ReplyAmenitiesResolve a rp nc q => inr (mkamenities_resolve a rp nc q)
  | _ => inl (reply_error r)
  end.

Definition accept_budget (r : llm_reply) : string + option float :=
  match r with
  | ReplyBudgetResolve p =>
      if match p with Some x => PrimFloat.ltb 0 x | None => true end
      then inr p else inl "validation error"
  | _ => inl (reply_error r)
  end.

Definition constraints_of_set (s : LLMHardFiltersSet) : LLMConstraints :=
  mkLLMConstraints None None None None None None (hs_max_price s) (hs_min_star s)
    (hs_amenities s) None (hs_refundable_preferred s).

Definition accept_patch (r : llm_reply)
  : string + (option LLMHardFiltersSet * list HardFilterKey) :=
  match r with
  | ReplyHardFiltersPatch s cl =>
      if match s with Some x => valid_constraints (constraints_of_set x) | None => true end
      then inr (s, cl) else inl "validation error"
  | _ => inl (reply_error r)
  end.

(** [AgentAction], the union of [AgentActionCallTool] and [AgentActionRespond]. *)
Inductive AgentAction :=
| AgentActionCallTool (tool_name : ToolName) (constraints_update : option LLMConstraints)
| AgentActionRespond (k : kind) (message : option string)
                     (constraints_update : option LLMConstraints).

Definition accept_action (r : llm_reply) : string + AgentAction :=
  match r with
  | ReplyCallTool t upd =>
      if valid_update upd then inr (AgentActionCallTool t upd) else inl "validation error"
  | ReplyRespond k m upd =>
      if valid_update upd then inr (AgentActionRespond k m upd) else inl "validation error"
  | _ => inl (reply_error r)
  end.

Definition accept_text (r : llm_reply) : string + string :=
  match r with
  | ReplyText s => inr s
  | _ => inl (reply_error r)
  end.

(** [state["constraints"] = _merge_constraints_dict(state.get("constraints") or {}, upd)]. *)
Definition merge_into (upd : option LLMConstraints) (st : GraphState) : GraphState :=
  set_constraints (merge_constraints_dict (constraints st) upd) st.

Definition at_turn_start (st : GraphState) : bool := tool_calls_this_turn st =? 0.

(** The three assignments that end a turn with a question. *)
Definition end_turn_with (q : string) (st : GraphState) : GraphState :=
  set_end_turn true (set_agent_state (Some "COLLECT_CONSTRAINTS")
    (set_assistant_message (Some q) st)).

Definition _TOOL_AMENITY_ALLOWLIST : list string :=
  ["wifi"; "breakfast_included"; "pool"; "gym"; "parking"; "pet_friendly";
   "airport_shuttle"; "spa"; "restaurant"; "bar"].

(** *** The resolver stages *)

(** City: if missing. *)
Definition resolve_city (st : GraphState) : M GraphState :=
  let cur := constraints st in
  if negb (truthy_ostr (d_city cur)) then
    r <- llm_attempts 3 accept_city "" ;;
    match r with
    | inr res =>
        if cr_needs_clarification res then
          ret (end_turn_with (clarify_message [RCity] cur) st)
        else if truthy_ostr (cr_city res) then
          ret (merge_into
                 (Some (mkLLMConstraints (cr_city res) None None None None None None
                                         None None None None)) st)
        else ret st
    | inl _ => ret st
    end
  else ret st.

(** The fields the occupancy question asks for. *)
Definition occupancy_missing (now : cdict) : list required :=
  ((if negb (truthy_oint (d_adults now)) then [RAdults] else [])
   ++ (if negb (truthy_oint (d_rooms now)) then [RRooms] else []))%list.

(** Occupancy: if missing adults or rooms. *)
Definition resolve_occupancy (st : GraphState) : M GraphState :=
  let cur := constraints st in
  if negb (truthy_oint (d_adults cur)) || negb (truthy_oint (d_rooms cur)) then
    r <- llm_attempts 3 accept_occupancy "" ;;
    match r with
    | inr res =>
        if or_needs_clarification res then
          let now := constraints st in
          ret (end_turn_with (clarify_message (occupancy_missing now) now) st)
        else
          ret (merge_into
                 (Some (mkLLMConstraints None None None (or_adults res) (or_children res)
                                         (or_rooms res) None None None None None)) st)
    | inl _ => ret st
    end
  else ret st.

(** Amenities and the refundable preference: a question is ignored. *)
Definition resolve_amenities (st : GraphState) : M GraphState :=
  let cur := constraints st in
  let amenities := match d_amenities cur with Some l => l | None => [] end in
  let needs_amenity_fix :=
    existsb (fun a => negb (mem a _TOOL_AMENITY_ALLOWLIST)) amenities in
  let has_tool_state :=
    truthy_list (recommended_offers st) || truthy_list (ranked_offers st)
    || truthy_list (offers st) || truthy_list (candidates st) in
  let needs_refundable_resolve :=
    negb (is_some (d_refundable_preferred cur)) && has_tool_state && at_turn_start st in
  if needs_amenity_fix || needs_refundable_resolve then
    r <- llm_attempts 3 accept_amenities "" ;;
    match r with
    | inr res =>
        if ar_needs_clarification res then ret st
        else
          ret (merge_into
                 (Some (mkLLMConstraints None None None None None None None None
                          (ar_amenities res) None (ar_refundable_preferred res))) st)
    | inl _ => ret st
    end
  else ret st.

(** [_resolve_non_date_fields]: a stage that ends the turn returns at once. *)
Definition _resolve_non_date_fields (st : GraphState) : M GraphState :=
  st <- resolve_city st ;;
  if _end_turn st then ret st else
  st <- resolve_occupancy st ;;
  if _end_turn st then ret st else
  resolve_amenities st.

(** [_resolve_budget]. *)
Definition _resolve_budget (st : GraphState) : M GraphState :=
  if truthy_ofloat (d_max_price (constraints st)) then ret st
  else
    r <- llm_attempts 3 accept_budget "" ;;
    match r with
    | inr res =>
        if truthy_ofloat res then
          ret (merge_into
                 (Some (mkLLMConstraints None None None None None None res None None
                                         None None)) st)
        else ret st
    | inl _ => ret st
    end.

(** [cur.pop(k, None)]. *)
Definition pop_key (k : HardFilterKey) (c : cdict) : cdict :=
  match k with
  | HK_max_price =>
      mkcdict (d_city c) (d_check_in c) (d_check_out c) (d_adults c) (d_children c)
        (d_rooms c) None (d_min_star c) (d_amenities c) (d_currency c)
        (d_refundable_preferred c)
  | HK_min_star =>
      mkcdict (d_city c) (d_check_in c) (d_check_out c) (d_adults c) (d_children c)
        (d_rooms c) (d_max_price c) None (d_amenities c) (d_currency c)
        (d_refundable_preferred c)
  | HK_amenities =>
      mkcdict (d_city c) (d_check_in c) (d_check_out c) (d_adults c) (d_children c)
        (d_rooms c) (d_max_price c) (d_min_star c) None (d_currency c)
        (d_refundable_preferred c)
  | HK_refundable_preferred =>
      mkcdict (d_city c) (d_check_in c) (d_check_out c) (d_adults c) (d_children c)
        (d_rooms c) (d_max_price c) (d_min_star c) (d_amenities c) (d_currency c) None
  end.

(** [_resolve_hard_filters_patch]. *)
Definition _resolve_hard_filters_patch (st : GraphState) : M GraphState :=
  if negb (at_turn_start st) then ret st
  else
    r <- llm_attempts 3 accept_patch "" ;;
    match r with
    | inr (set, clear) =>
        let st :=
          match clear with
          | [] => st
          | _ => set_constraints (fold_left (fun c k => pop_key k c) clear (constraints st)) st
          end in
        match set with
        | Some s => ret (merge_into (Some (constraints_of_set s)) st)
        | None => ret st
        end
    | inl _ => ret st
    end.

(** The fingerprint of the constraints of a state. *)
Definition current_key (st : GraphState) : string :=
  _tool_constraints_key (to_dict (parsed (constraints st))).

(** Step 1 of [_llm_decide]: extraction, at the start of a user turn only. *)
Definition extract_stage (st : GraphState) : M (GraphState * option string) :=
  if at_turn_start st then
    r <- llm_attempts 3 accept_extraction "" ;;
    match r with
    | inr (upd, oid) => ret (merge_into upd st, oid)
    | inl _ => ret (st, None)
    end
  else ret (st, None).

(** [(dr.question or "").strip() or "What dates should I use? ..."]. *)
Definition date_question (dr : date_resolve) : string :=
  let q := strip (match dr_question dr with Some s => s | None => "" end) in
  if truthy_str q then q else "What dates should I use? (YYYY-MM-DD to YYYY-MM-DD)".

(** Step 1b: date resolution; a question ends the turn. *)
Definition date_stage (st : GraphState) : M GraphState :=
  let missing_after_extract := missing_required_fields (parsed (constraints st)) in
  if has RDates missing_after_extract && at_turn_start st then
    r <- llm_attempts 3 accept_date "" ;;
    match r with
    | inr dr =>
        if dr_needs_clarification dr then ret (end_turn_with (date_question dr) st)
        else
          match dr_check_in dr, dr_check_out dr with
          | Some ci, Some co =>
              ret (merge_into
                     (Some (mkLLMConstraints None (Some ci) (Some co) None None None None
                                             None None None None)) st)
          | _, _ => ret st
          end
    | inl _ => ret st
    end
  else ret st.

Definition clear_tool_state (st : GraphState) : GraphState :=
  set_tool_constraints_key (Some None)
    (set_reasons [] (set_recommended_offers [] (set_ranked_offers []
      (set_offers [] (set_candidates [] st))))).

(** Dropping the cached tool results when the constraints changed. *)
Definition invalidate_stage (st : GraphState) : GraphState :=
  let cur_key := current_key st in
  let prev_key := match tool_constraints_key st with Some k => k | None => None end in
  let has_tool_cache :=
    truthy_list (candidates st) || truthy_list (offers st)
    || truthy_list (ranked_offers st) || truthy_list (recommended_offers st) in
  let st :=
    if has_tool_cache && negb (is_some (tool_constraints_key st))
    then clear_tool_state st else st in
  if truthy_ostr prev_key
     && negb (opt_eqb String.eqb prev_key (Some cur_key))
  then clear_tool_state st else st.

(** The next tool of the pipeline for complete constraints; [None] once the
    offers are ranked. *)
Definition expected_tool (st : GraphState) : option ToolName :=
  if negb (truthy_list (candidates st)) then Some search_candidates
  else if truthy_list (candidates st) && negb (truthy_list (offers st)) then Some get_offers
  else if truthy_list (offers st) && negb (truthy_list (ranked_offers st)) then Some rank_offers
  else None.

Definition complete (st : GraphState) : bool :=
  is_complete (Constraints_of (parsed (constraints st))).

(** Step 2 of [_llm_decide]: the decision. *)
Definition decision_step (st : GraphState) (extracted_offer_id : option string)
  : M GraphState :=
  if truthy_ostr extracted_offer_id then
    let has_offer_context :=
      truthy_list (recommended_offers st) || truthy_list (ranked_offers st)
      || truthy_list (offers st) in
    if has_offer_context then
      ret (set_llm_action
             (Some (Respond confirm (Some
               "Confirm the selected offer using only tool-provided fields already present in session context.")))
             (set_selected_offer_id extracted_offer_id st))
    else
      ret (set_llm_action
             (Some (Respond clarify (Some
               "I don't have that offer loaded in this session. Do you want me to search again (same city/dates), or provide the city + dates + adults + rooms?")))
             st)
  else
    r <- llm_attempts 2 accept_action "None" ;;
    match r with
    | inl last_err =>
        ret (set_llm_action
               (Some (Respond generic (Some ("Model decision failed: " ++ last_err)))) st)
    | inr (AgentActionCallTool tool upd) =>
        let st := merge_into upd st in
        if complete st then
          match expected_tool st with
          | Some expected =>
              (* overridden when it differs, kept when it is the same tool *)
              ret (set_llm_action (Some (CallTool expected)) st)
          | None =>
              ret (set_llm_action (Some (Respond explain (Some "Show top offers."))) st)
          end
        else ret (set_llm_action (Some (CallTool tool)) st)
    | inr (AgentActionRespond k message upd) =>
        let prev_after_prelude := constraints st in
        let st := merge_into upd st in
        let st := set_llm_action (Some (Respond k message)) st in
        let st := if kind_eqb k confirm && truthy_ostr extracted_offer_id
                  then set_selected_offer_id extracted_offer_id st else st in
        let forced :=
          if complete st then expected_tool st else None in
        match forced with
        | Some t => ret (set_llm_action (Some (CallTool t)) st)
        | None =>
            let after := parsed (constraints st) in
            let missing_now := missing_required_fields after in
            if kind_eqb k clarify && truthy_list missing_now
               && cdict_eqb prev_after_prelude after
            then ret (end_turn_with (clarify_message missing_now after) st)
            else ret st
        end
    end.

(** Steps 1 to 1e of [_llm_decide] taken together, as the statements below
    speak of them: the state they leave, the offer identifier extracted, and
    the turn ended ([_end_turn]) when a stage asked a question. *)
Definition resolution_pipeline (st : GraphState) : M (GraphState * option string) :=
  '(st, extracted_offer_id) <- extract_stage st ;;
  st <- date_stage st ;;
  if _end_turn st then ret (st, extracted_offer_id) else
  st <- (if at_turn_start st then _resolve_non_date_fields st else ret st) ;;
  if _end_turn st then ret (st, extracted_offer_id) else
  st <- (if at_turn_start st then _resolve_budget st else ret st) ;;
  if _end_turn st then ret (st, extracted_offer_id) else
  st <- (if at_turn_start st then _resolve_hard_filters_patch st else ret st) ;;
  ret (st, extracted_offer_id).

(** The first assignments of [_llm_decide]. *)
Definition enter_decide (st : GraphState) : GraphState :=
  set_end_turn false (set_agent_state (Some "LLM_DECIDE") st).

(** [_llm_decide]. *)
Definition _llm_decide (st : GraphState) : M GraphState :=
  let st := enter_decide st in
  _ <- get_chat_model ;;
  '(st, extracted_offer_id) <- extract_stage st ;;
  st <- date_stage st ;;
  if _end_turn st then ret st else
  st <- (if at_turn_start st then _resolve_non_date_fields st else ret st) ;;
  if _end_turn st then ret st else
  st <- (if at_turn_start st then _resolve_budget st else ret st) ;;
  if _end_turn st then ret st else
  st <- (if at_turn_start st then _resolve_hard_filters_patch st else ret st) ;;
  decision_step (invalidate_stage st) extracted_offer_id.

Inductive route := CALL_TOOL | RESPOND | DECIDE | END.

Definition _route_after_llm_decide (st : GraphState) : route :=
  if _end_turn st then END
  else match llm_action st with
       | Some (CallTool _) => CALL_TOOL
       | Some (Respond _ _) => RESPOND
       | None => END
       end.

Definition _route_after_call_tool (st : GraphState) : route :=
  match llm_action st with
  | Some (Respond _ _) => RESPOND
  | _ => DECIDE
  end.

(** *** The tool node *)

Definition respond_with (k : kind) (m : string) (st : GraphState) : GraphState :=
  set_llm_action (Some (Respond k (Some m))) st.

(** [state.setdefault("tool_timeline", []).append(evt)]. *)
Definition append_event (evt : event) (st : GraphState) : GraphState :=
  set_tool_timeline (tool_timeline st ++ [evt])%list st.

Definition clarify_missing (parsed : cdict) (st : GraphState) : GraphState :=
  respond_with clarify (clarify_message (missing_required_fields parsed) parsed) st.

Definition _call_search_candidates (st : GraphState) (c : Constraints) (parsed : cdict)
  : M GraphState :=
  if negb (is_complete c) then ret (clarify_missing parsed st)
  else
    let st := set_reasons [] (set_recommended_offers [] (set_ranked_offers []
                (set_offers [] st))) in
    match to_tool_payload c (default_tenant_id SETTINGS) with
    | None => raise AssertionError
    | Some p =>
        let st := set_tool_constraints_key
                    (Some (Some (_tool_constraints_key (to_dict parsed)))) st in
        '(result, evt) <- call SETTINGS search_candidates "/tools/search_candidates"
                               (SearchPayload p) ;;
        let st := append_event evt st in
        let st := set_candidates (td_candidates result) st in
        if negb (truthy_list (candidates st)) then
          ret (respond_with generic "No candidate hotels matched these constraints." st)
        else ret st
    end.

Definition _call_get_offers (st : GraphState) (c : Constraints) (parsed : cdict)
  : M GraphState :=
  let hotel_ids :=
    map hotel_id (slice_to (max_hotels_priced_per_turn SETTINGS) (candidates st)) in
  match hotel_ids, k_check_in c, k_check_out c with
  | _ :: _, Some ci, Some co =>
      let p := mkoffers_payload (default_tenant_id SETTINGS) hotel_ids
                 (date_isoformat ci) (date_isoformat co)
                 (mkoccupancy (k_adults c) (or_zero (k_children c)) (k_rooms c))
                 (k_currency c) (hard_filters_payload c) in
      '(result, evt) <- call SETTINGS get_offers "/tools/get_offers" (OffersPayload p) ;;
      let st := append_event evt st in
      ret (set_offers (td_offers result) st)
  | _, _, _ => ret (clarify_missing parsed st)
  end.

Definition _call_rank_offers (st : GraphState) : M GraphState :=
  match offers st with
  | [] => ret (respond_with generic "No offers available to rank." st)
  | _ =>
      let p := mkrank_payload (offers st) (d_max_price (constraints st)) in
      '(result, evt) <- call SETTINGS rank_offers "/tools/rank_offers" (RankPayload p) ;;
      let st := append_event evt st in
      let st := set_ranked_offers (td_ranked_offers result) st in
      let st := set_reasons (td_reasons result) st in
      ret (respond_with explain "Show top offers." st)
  end.

(** [_call_tool]. The tool name was validated against the three names, so
    the closing branch for an unknown tool has no counterpart here. *)
Definition _call_tool (st : GraphState) : M GraphState :=
  let st := set_agent_state (Some "CALL_TOOL") st in
  match llm_action st with
  | Some (CallTool tool_name) =>
      let used := tool_calls_this_turn st in
      if max_tool_calls_per_turn SETTINGS <=? used then
        ret (respond_with generic "Tool call limit reached for this turn." st)
      else
        let st := set_tool_calls_this_turn (used + 1) st in
        let parsed := parsed (constraints st) in
        let c := Constraints_of parsed in
        match tool_name with
        | search_candidates => _call_search_candidates st c parsed
        | get_offers => _call_get_offers st c parsed
        | rank_offers => _call_rank_offers st
        end
  | _ => raise (ValidationError "AgentActionCallTool")
  end.

(** *** The response node *)

(** [candidates.get(hotel_id)] on the dictionary built from the candidate
    list: the last candidate with that identifier. *)
Definition candidate_by_id (id : string) (cands : list candidate) : option candidate :=
  find_by (fun h => String.eqb (hotel_id h) id) (rev cands).

Definition star_of (cands : list candidate) (o : offer) : option float :=
  match candidate_by_id (o_hotel_id o) cands with
  | Some h => star_rating h
  | None => None
  end.

(** The defensive filter: the hotel's rating is known and at least [ms]. *)
Definition meets_min_star (cands : list candidate) (ms : float) (item : ranked) : bool :=
  match star_of cands (r_offer item) with
  | Some star_f => PrimFloat.leb ms star_f
  | None => false
  end.

Definition card_of (cands : list candidate) (o : offer) : card :=
  let h := candidate_by_id (o_hotel_id o) cands in
  mkcard o
    (match h with Some x => name x | None => "Unknown hotel" end)
    (match h with Some x => h_city x | None => None end)
    (match h with Some x => neighborhood x | None => None end)
    (option_map latitude h) (option_map longitude h)
    (match h with Some x => star_rating x | None => None end).

Definition parse_or_raise (v : string) : result datetime :=
  match parse_dt v with
  | Some t => Ok t
  | None => Raise (ValueError ("Invalid isoformat string: " ++ v))
  end.

(** The timestamps one offer adds to the allow-list. *)
Definition offer_timestamps (o : offer) : result (list datetime) :=
  match parse_or_raise (last_priced_ts o) with
  | Raise e => Raise e
  | Ok a =>
      match parse_or_raise (expires_ts o) with
      | Raise e => Raise e
      | Ok b =>
          match keep_if truthy_str (cancellation_deadline o) with
          | None => Ok [a; b]
          | Some d =>
              match parse_or_raise d with
              | Raise e => Raise e
              | Ok c => Ok [a; b; c]
              end
          end
      end
  end.

(** The loop over the top offers. *)
Fixpoint cards_loop (cands : list candidate) (top : list ranked)
  : result (list card * list float * list datetime) :=
  match top with
  | [] => Ok ([], [], [])
  | item :: rest =>
      let o := r_offer item in
      match offer_timestamps o with
      | Raise e => Raise e
      | Ok ts =>
          match cards_loop cands rest with
          | Raise e => Raise e
          | Ok (cards, prices, tss) =>
              Ok (card_of cands o :: cards,
                  total_price o :: taxes_total o :: fees_total o :: prices,
                  (ts ++ tss)%list)
          end
      end
  end.

(** The ranked offers that pass the filter, three at most. *)
Definition top_offers (st : GraphState) : list ranked :=
  let ranked := ranked_offers st in
  let ranked :=
    match d_min_star (constraints st) with
    | Some ms => filter (meets_min_star (candidates st) ms) ranked
    | None => ranked
    end in
  firstn 3 ranked.

Definition _build_offer_cards (st : GraphState)
  : result (list card * list float * list datetime) :=
  cards_loop (candidates st) (top_offers st).

(** The bullet U+2022 of the message templates lies outside Latin-1; it is
    written as its three UTF-8 bytes. *)
Definition bullet : string :=
  String (ascii_of_nat 226) (String (ascii_of_nat 128) (String (ascii_of_nat 162) "")).

Definition str_ostr (o : option string) : string :=
  match o with Some s => s | None => "None" end.

Definition str_ofloat (o : option float) : string :=
  match o with Some x => float_repr x | None => "None" end.

Definition _format_offer_card_lines (c : card) : string :=
  let o := c_offer c in
  String.concat nl
    [ "- offer_id: " ++ offer_id o;
      "  hotel_id: " ++ o_hotel_id o;
      "  hotel: " ++ hotel_name c;
      "  star_rating: " ++ str_ofloat (c_star_rating c);
      "  total_price: $" ++ format_2f (total_price o);
      "  taxes_total: $" ++ format_2f (taxes_total o);
      "  fees_total: $" ++ format_2f (fees_total o);
      "  refundable: " ++ str_bool (refundable o);
      "  cancellation_deadline: " ++ str_ostr (cancellation_deadline o);
      "  inventory_status: " ++ inventory_status o;
      "  last_priced_ts: " ++ last_priced_ts o;
      "  expires_ts: " ++ expires_ts o;
      "  room_type: " ++ room_type o;
      "  bed_config: " ++ str_ostr (bed_config o);
      "  rate_plan: " ++ rate_plan o ].

Definition city_or_unknown (c : cdict) : string :=
  match keep_if truthy_str (d_city c) with Some s => s | None => "(city unknown)" end.

Definition date_or (dflt : string) (o : option rawdate) : string :=
  match o with Some r => str_rawdate r | None => dflt end.

Definition plural (n : Z) (word : string) : string :=
  str_int n ++ " " ++ word ++ (if n =? 1 then "" else "s").

(** [enumerate(offers[:3], start=1)] rendered as blocks. *)
Fixpoint offer_blocks (i : Z) (l : list card) : list string :=
  match l with
  | [] => []
  | o :: r => (str_int i ++ ")" ++ nl ++ _format_offer_card_lines o) :: offer_blocks (i + 1) r
  end.

Definition _render_top_offers_message (c : cdict) (offers : list card) : string :=
  let occ :=
    ((match d_adults c with Some a => [plural a "adult"] | None => [] end)
     ++ (match d_rooms c with Some r => [plural r "room"] | None => [] end))%list in
  let occ_s :=
    match occ with [] => "" | _ => " " ++ bullet ++ " " ++ String.concat ", " occ end in
  let star_s :=
    match d_min_star c with
    | Some m => " (min " ++ float_repr m ++ "-star)"
    | None => ""
    end in
  let header :=
    "Top 3 offers (tool-provided) for " ++ city_or_unknown c ++ star_s ++ " " ++ bullet
    ++ " " ++ date_or "(check_in unknown)" (d_check_in c) ++ " to "
    ++ date_or "(check_out unknown)" (d_check_out c) ++ occ_s ++ ":" in
  let blocks := offer_blocks 1 (firstn 3 offers) in
  let body := match blocks with [] => "(no offers)" | _ => String.concat (nl ++ nl) blocks end in
  header ++ nl ++ nl ++ body ++ nl ++ nl ++ "Select by replying with the offer_id.".

Definition _render_selected_offer_message (c : cdict) (o : card) : string :=
  "Selected offer (tool-provided) for " ++ city_or_unknown c ++ " " ++ bullet ++ " "
  ++ date_or "(check_in unknown)" (d_check_in c) ++ " to "
  ++ date_or "(check_out unknown)" (d_check_out c) ++ ":" ++ nl ++ nl
  ++ _format_offer_card_lines o
  ++ nl ++ nl ++ "Reply with a different offer_id to choose another option.".

Definition not_found_message : string :=
  "I couldn't find that offer_id in this session. Please reply with one of the offer_id values I listed, or ask me to search again.".

Definition fallback_message : string :=
  "I couldn't produce a valid response (missing required fields or grounding). Please retry your last message.".

(** One pass of the generation loop: [None] asks for another attempt. *)
Definition accept_generated (k : kind) (st : GraphState)
    (allowed_prices : list float) (allowed_ts : list datetime) (r : llm_reply)
  : option string :=
  match accept_text r with
  | inl _ => None
  | inr msg =>
      let grounded :=
        if truthy_list allowed_prices || truthy_list allowed_ts then
          match validate_grounded_response msg allowed_prices allowed_ts with
          | Ok _ => true
          | Raise _ => false
          end
        else true in
      if negb grounded then None
      else if kind_eqb k explain && truthy_list (recommended_offers st)
              && negb (contains "hotel_id" (lower msg))
      then None
      else Some msg
  end.

Fixpoint generate (n : nat) (k : kind) (st : GraphState)
    (allowed_prices : list float) (allowed_ts : list datetime) : M string :=
  match n with
  | O => ret fallback_message
  | S m =>
      r <- llm_invoke ;;
      match accept_generated k st allowed_prices allowed_ts r with
      | Some msg => ret msg
      | None => generate m k st allowed_prices allowed_ts
      end
  end.

(** [_llm_respond]. *)
Definition _llm_respond (st : GraphState) : M GraphState :=
  let st := set_agent_state (Some "LLM_RESPOND") st in
  _ <- get_chat_model ;;
  match match llm_action st with
        | None => Some (generic, None)
        | Some (Respond k m) => Some (k, m)
        | Some (CallTool _) => None
        end with
  | None => raise (ValidationError "AgentActionRespond")
  | Some (k, _hint) =>
      let selected_offer_id := selected_offer_id st in
      if kind_eqb k confirm || truthy_ostr selected_offer_id then
        match find_selected_offer selected_offer_id (recommended_offers st)
                                  (offers st) (candidates st) with
        | None =>
            ret (set_agent_state (Some "WAIT_FOR_SELECTION")
                   (set_assistant_message (Some not_found_message) st))
        | Some selected =>
            ret (set_agent_state (Some "CONFIRM")
                   (set_assistant_message
                      (Some (_render_selected_offer_message (constraints st) selected)) st))
        end
      else if truthy_list (ranked_offers st) then
        match _build_offer_cards st with
        | Raise e => raise e
        | Ok (cards, _, _) =>
            let st := set_recommended_offers cards st in
            ret (set_agent_state (Some "WAIT_FOR_SELECTION")
                   (set_assistant_message
                      (Some (_render_top_offers_message (constraints st) cards)) st))
        end
      else
        (* the clarification / no-results path: the allow-lists are empty here *)
        msg <- generate 3 k st [] [] ;;
        let st := set_assistant_message (Some msg) st in
        let shows_offers := kind_eqb k explain && truthy_list (recommended_offers st) in
        let st :=
          if shows_offers && negb (contains "offer_id" (lower msg))
          then set_assistant_message
                 (Some (rstrip msg ++ nl ++ nl ++ "Select by replying with the offer_id.")) st
          else st in
        let st :=
          set_agent_state
            (Some (if shows_offers then "WAIT_FOR_SELECTION"
                   else match k with
                        | confirm => "CONFIRM"
                        | clarify => "COLLECT_CONSTRAINTS"
                        | _ => "RESPOND"
                        end)) st in
        if truthy_ostr (Graph.selected_offer_id st) then
          ret (set_selected_offer_id None
                 (set_last_selected_offer_id (Graph.selected_offer_id st) st))
        else ret st
  end.

(** *** The graph *)

Inductive node := LLM_DECIDE | CALL_TOOL_NODE | LLM_RESPOND.

(** The compiled graph run from a node, with [fuel] node executions left
    before langgraph gives up. *)
Fixpoint run_from (fuel : nat) (n : node) (st : GraphState) : M GraphState :=
  match fuel with
  | O => raise GraphRecursionError
  | S k =>
      match n with
      | LLM_DECIDE =>
          st <- _llm_decide st ;;
          match _route_after_llm_decide st with
          | CALL_TOOL => run_from k CALL_TOOL_NODE st
          | RESPOND => run_from k LLM_RESPOND st
          | _ => ret st
          end
      | CALL_TOOL_NODE =>
          st <- _call_tool st ;;
          match _route_after_call_tool st with
          | RESPOND => run_from k LLM_RESPOND st
          | _ => run_from k LLM_DECIDE st
          end
      | LLM_RESPOND => _llm_respond st
      end
  end.

(** langgraph's default [recursion_limit]. *)
Definition recursion_limit : nat := 25.

(** [GRAPH.ainvoke(state)]. *)
Definition GRAPH_ainvoke (st : GraphState) : M GraphState :=
  run_from recursion_limit LLM_DECIDE st.

End WithSettings.

End Graph.
Import Graph.

(* ================================================================= *)
(** ** main.py *)

Module Main.

Definition _reset_per_turn_state (st : GraphState) : GraphState :=
  set_selected_offer_id None (set_llm_action None
    (set_tool_calls_this_turn 0 (set_tool_timeline [] st))).

Record ChatResponse := mkChatResponse {
  resp_agent_state : string;
  resp_assistant_message : string;
  resp_recommended_offers : list card;
  resp_tool_timeline : list event;
  resp_tool_calls : Z
}.

(** How a request to [/chat] ends: a response with the snapshot stored for
    the session, an [HTTPException] raised by the handler, or an exception the
    handler does not catch (nothing is stored). *)
Inductive chat_outcome :=
| ChatOk (resp : ChatResponse) (snapshot : GraphState)
| ChatHTTPException (status : Z) (detail : string)
| ChatUnhandled (e : exn).

(** Dates come back from the JSON snapshot as ISO strings. *)
Definition jsonb_dates (c : cdict) : cdict :=
  let iso o := option_map (fun r => DateIso (date_of r)) o in
  mkcdict (d_city c) (iso (d_check_in c)) (iso (d_check_out c)) (d_adults c)
    (d_children c) (d_rooms c) (d_max_price c) (d_min_star c) (d_amenities c)
    (d_currency c) (d_refundable_preferred c).

(** The state the next turn loads: the snapshot payload and the constraints. *)
Definition stored (out : GraphState) : GraphState :=
  mkGraphState "" (jsonb_dates (constraints out)) (candidates out) (offers out)
    (ranked_offers out) (reasons out) (tool_timeline out) (recommended_offers out)
    (selected_offer_id out) (last_selected_offer_id out)
    (Some (match tool_constraints_key out with Some k => k | None => None end))
    (Some (match assistant_message out with Some m => m | None => "" end))
    (Some (match agent_state out with Some a => a | None => "UNKNOWN" end))
    None 0 false.

(** The state a turn starts from: the snapshot loaded for the session, if
    any, reset, with the user's message. *)
Definition turn_state (snap : option GraphState) (message : string) : GraphState :=
  let state := match snap with Some s => s | None => initial_state end in
  let state := _reset_per_turn_state state in
  set_user_message message state.

Section WithSettings.

Variable SETTINGS : AgentSettings.

(** [chat]: [snap] is the state loaded for the session, if any. *)
Definition chat (snap : option GraphState) (message : string) (w : world)
  : chat_outcome * world :=
  match GRAPH_ainvoke SETTINGS (turn_state snap message) w with
  | (Raise (ModelConfigError detail), w') => (ChatHTTPException 500 detail, w')
  | (Raise e, w') => (ChatUnhandled e, w')
  | (Ok out, w') =>
      let assistant_message := match assistant_message out with Some m => m | None => "" end in
      let agent_state :=
        match keep_if truthy_str (agent_state out) with Some a => a | None => "UNKNOWN" end in
      (ChatOk (mkChatResponse agent_state assistant_message (recommended_offers out)
                 (tool_timeline out) (Z.of_nat (List.length (tool_timeline out))))
              (stored out), w')
  end.

End WithSettings.

End Main.
Import Main.

(* ================================================================= *)
(** ** Concrete data for the examples *)

Module Examples.

(** A dictionary with a key no tool reads, and the same without it, in
    another order. *)
Definition noted_dict : dict :=
  [("note", VStr "quiet floor"); ("city", VStr "Austin"); ("adults", VInt 2)].

Definition plain_dict : dict :=
  [("adults", VInt 2); ("city", VStr "Austin")].

(** The constraints of the scenario of the specification. *)
Definition austin : LLMConstraints :=
  mkLLMConstraints (Some "Austin") (Some (mkdate 2026 3 10)) (Some (mkdate 2026 3 12))
    (Some 2) None (Some 1) (Some 1200%float) None (Some ["wifi"; "pool"]) None None.

Definition noon_utc : datetime := mkdatetime (mkdate 2026 2 15) 12 0 0 0 (Some 0).

End Examples.

Module Runs.

Import Examples.

Definition empty_world : world := mkworld [] [] [] [].

(** A state in the tool node with the budget of the default settings used up. *)
Definition at_budget : GraphState :=
  set_llm_action (Some (CallTool search_candidates))
    (set_tool_calls_this_turn 8 initial_state).

Definition hotel_one : candidate :=
  mkcandidate "6f1c2a9e-0000-4000-8000-000000000001" "Hotel One" (Some "Austin") None
              30.27%float (-97.74)%float (Some 4%float).

Definition hotel_two : candidate :=
  mkcandidate "6f1c2a9e-0000-4000-8000-000000000002" "Hotel Two" (Some "Austin") None
              30.28%float (-97.75)%float (Some 3%float).

Definition hotel_unrated : candidate :=
  mkcandidate "6f1c2a9e-0000-4000-8000-000000000003" "Hotel Three" (Some "Austin") None
              30.29%float (-97.76)%float None.

Definition offer_for (id : string) (h : candidate) (price : float) : offer :=
  mkoffer id (hotel_id h) price 30%float 10%float true None "AVAILABLE"
          "2026-02-15T12:00:00Z" "2026-02-16T12:00:00Z" "king" None "flex".

Definition offer_one : offer :=
  offer_for "0a000000-0000-4000-8000-000000000001" hotel_one 300%float.

Definition offer_two : offer :=
  offer_for "0a000000-0000-4000-8000-000000000002" hotel_two 250%float.

Definition offer_three : offer :=
  offer_for "0a000000-0000-4000-8000-000000000003" hotel_unrated 200%float.

(** An identifier that names none of the offers above. *)
Definition unknown_offer_id : string := "0a000000-0000-4000-8000-00000000ffff".

Definition ok_response (d : tool_data) : http_outcome := HttpResponse 200 "" (Some d).

Definition no_patch : llm_reply := ReplyHardFiltersPatch None [].

(** The model extracts the complete constraints of the scenario, changes no
    filter, and proposes a search; the search tool fails three times with
    status 500. *)
Definition failing_search_world : world :=
  mkworld [ReplyExtraction (Some austin) None; no_patch; ReplyCallTool search_candidates None]
          [HttpResponse 500 "boom" None; HttpResponse 500 "boom" None;
           HttpResponse 500 "boom" None] [] [].


(** The payload of a search for the constraints of the scenario. *)
Definition austin_search : payload :=
  SearchPayload
    (mksearch_payload "t_default" "Austin" "2026-03-10" "2026-03-12"
       (mkoccupancy (Some 2) 0 (Some 1))
       (Some (mkhard_filters (Some 1200%float) None (Some ["wifi"; "pool"]) None))).

(** A turn that shops: search, price, rank. *)
Definition shopping_world : world :=
  mkworld [ReplyExtraction (Some austin) None; no_patch;
           ReplyCallTool search_candidates None; ReplyCallTool get_offers None;
           ReplyCallTool rank_offers None]
          [ok_response (mktool_data [hotel_one; hotel_two; hotel_unrated] [] [] []);
           ok_response (mktool_data [] [offer_one; offer_two; offer_three] [] []);
           ok_response (mktool_data [] []
                          [mkranked offer_three 0.9%float; mkranked offer_two 0.8%float;
                           mkranked offer_one 0.7%float] [])] [] [].



(** The same turn when the pricing tool finds no offer for the hotels. *)
Definition unpriced_world : world :=
  mkworld ([ReplyExtraction (Some austin) None; no_patch]
           ++ repeat (ReplyCallTool get_offers None) 9
           ++ [ReplyText "I could not find offers."])
          (ok_response (mktool_data [hotel_one; hotel_two; hotel_unrated] [] [] [])
           :: repeat (ok_response (mktool_data [] [] [] [])) 7) [] [].

(** The snapshot that turn stores. *)
Definition shopped : GraphState :=
  Eval vm_compute in
    match fst (chat default_settings None "Find me a hotel in Austin" shopping_world) with
    | ChatOk _ snapshot => snapshot
    | _ => initial_state
    end.

(** The next turn asks for four stars. *)
Definition four_stars : LLMConstraints :=
  mkLLMConstraints None None None None None None None (Some 4%float) None None None.

Definition refine_turn : GraphState := turn_state (Some shopped) "at least 4 stars please".

Definition refine_world : world :=
  mkworld [ReplyExtraction (Some four_stars) None;
           ReplyAmenitiesResolve None None false None; no_patch] [] [] [].

(** The state and world the resolution pipeline leaves in that turn. *)
Definition refined : GraphState * world :=
  Eval vm_compute in
    match resolution_pipeline (enter_decide refine_turn) refine_world with
    | (Ok (st, _), w) => (st, w)
    | (_, w) => (initial_state, w)
    end.

(** A turn in which everything but the city is known and the city resolver
    asks a question of its own. *)
Definition no_city : LLMConstraints :=
  mkLLMConstraints None (Some (mkdate 2026 3 10)) (Some (mkdate 2026 3 12))
    (Some 2) None (Some 1) None None None None None.

Definition city_question : string := "Which Austin do you mean, Texas or Minnesota?".

Definition city_question_world : world :=
  mkworld [ReplyExtraction (Some no_city) None;
           ReplyCityResolve None true (Some city_question)] [] [] [].

(** A turn that selects an offer shown before, and one that names an offer
    the session does not hold. *)
Definition select_turn : GraphState :=
  turn_state (Some shopped) "I choose 0a000000-0000-4000-8000-000000000001".

Definition select_world : world :=
  mkworld [ReplyExtraction None (Some (offer_id offer_one));
           ReplyAmenitiesResolve None None false None; no_patch] [] [] [].

Definition selected : GraphState * world :=
  Eval vm_compute in
    match resolution_pipeline (enter_decide select_turn) select_world with
    | (Ok (st, _), w) => (st, w)
    | (_, w) => (initial_state, w)
    end.

Definition unknown_selection_world : world :=
  mkworld [ReplyExtraction None (Some unknown_offer_id);
           ReplyAmenitiesResolve None None false None; no_patch] [] [] [].

(** A first turn that names the city only: the resolvers neither fill the
    other fields nor ask, the model proposes a search, and the response is
    the model's own sentence. *)
Definition city_only : LLMConstraints :=
  mkLLMConstraints (Some "Austin") None None None None None None None None None None.

Definition city_only_turn : GraphState := turn_state None "a hotel in Austin".

Definition city_only_world : world :=
  mkworld [ReplyExtraction (Some city_only) None;
           ReplyDateResolve None None false None;
           ReplyOccupancyResolve None None None false None;
           ReplyBudgetResolve None;
           no_patch;
           ReplyCallTool search_candidates None;
           ReplyText "When would you like to stay, and for how many guests?"] [] [] [].

Definition city_only_resolved : GraphState * world :=
  Eval vm_compute in
    match resolution_pipeline (enter_decide city_only_turn) city_only_world with
    | (Ok (st, _), w) => (st, w)
    | (_, w) => (initial_state, w)
    end.

(** A later turn of the session that shopped: the decision proposes to price
    the cached hotels and blanks the city in the same answer. *)
Definition blank_city : LLMConstraints :=
  mkLLMConstraints (Some "") None None None None None None None None None None.

Definition blank_city_world : world :=
  mkworld [ReplyExtraction None None;
           ReplyAmenitiesResolve None None false None;
           no_patch;
           ReplyCallTool get_offers (Some blank_city);
           ReplyRespond clarify (Some "Which city?") None;
           ReplyText "Which city should I search in?"]
          [ok_response (mktool_data [] [offer_one] [] [])] [] [].

(** Cached ranked offers under a minimum of four stars, about to be shown. *)
Definition explain_state : GraphState :=
  set_llm_action (Some (Respond explain (Some "Show top offers.")))
    (merge_into (Some four_stars) refine_turn).

End Runs.

(* ================================================================= *)
(** ** graph_helpers.py: the JSON object in a model answer *)

Module ModelOutput.

(** [s.find("{")], as the text from that position on. *)
Fixpoint from_first_brace (l : list ascii) : option (list ascii) :=
  match l with
  | [] => None
  | c :: r => if Ascii.eqb c "{" then Some l else from_first_brace r
  end.

(** The loop [for i in range(start, len(s))] on the text from position [i]
    on, with the depth reached so far: the characters up to and including the
    closing brace that brings the depth back to 0, [None] when the text ends
    first. *)
Fixpoint scan_object (l : list ascii) (depth : Z) : option (list ascii) :=
  match l with
  | [] => None
  | ch :: r =>
      if Ascii.eqb ch "{" then option_map (cons ch) (scan_object r (depth + 1))
      else if Ascii.eqb ch "}" then
        if depth - 1 =? 0 then Some [ch]
        else option_map (cons ch) (scan_object r (depth - 1))
      else option_map (cons ch) (scan_object r depth)
  end.

(** [extract_first_json_object]. *)
Definition extract_first_json_object (text : string) : result string :=
  let s := strip text in
  if String.prefix "{" s && endswith s "}" then Ok s
  else
    match from_first_brace (list_ascii_of_string s) with
    | None => Raise (ValueError "No JSON object found in model output.")
    | Some rest =>
        match scan_object rest 0 with
        | Some obj => Ok (string_of_list_ascii obj)
        | None => Raise (ValueError "Unterminated JSON object in model output.")
        end
    end.

(** Opening braces minus closing braces. *)
Fixpoint brace_depth (s : string) : Z :=
  match s with
  | EmptyString => 0
  | String c r =>
      (if Ascii.eqb c "{" then 1 else if Ascii.eqb c "}" then -1 else 0) + brace_depth r
  end.

End ModelOutput.
Import ModelOutput.

(* ================================================================= *)
(** ** tool_client.py: bounding what the timeline stores *)

Module Truncate.

(** The values [_truncate_json] is given: the payload sent to a tool, which
    is built from strings, numbers, lists and dictionaries with string keys.
    The closing branch of [rec], for objects of other types, has no
    counterpart here. A dictionary is its items in insertion order. *)
Inductive jval :=
| JNone
| JBool (b : bool)
| JInt (n : Z)
| JFloat (f : float)
| JStr (s : string)
| JList (l : list jval)
| JDict (items : list (string * jval)).

(** [x[:n]] on a string. *)
Definition str_slice_to (n : Z) (s : string) : string :=
  string_of_list_ascii (slice_to n (list_ascii_of_string s)).

(** [rec(x, depth)]; [depth] counts down from [max_depth] and a depth of 0 or
    less is the base case. *)
Fixpoint rec (max_str max_list : Z) (depth : nat) (x : jval) : jval :=
  match depth with
  | O => JStr "__truncated_depth__"
  | S d =>
      match x with
      | JNone | JBool _ | JInt _ | JFloat _ => x
      | JStr s =>
          if Z.of_nat (String.length s) <=? max_str then x
          else JStr (str_slice_to (max_str - 20) s ++ "...__truncated__")
      | JList l =>
          if max_list <? Z.of_nat (List.length l) then
            JList (map (rec max_str max_list d) (slice_to max_list l)
                   ++ [JStr ("__truncated_list_len="
                             ++ str_int (Z.of_nat (List.length l)) ++ "__")])%list
          else JList (map (rec max_str max_list d) l)
      | JDict items =>
          JDict (map (fun kv => (fst kv, rec max_str max_list d (snd kv))) items)
      end
  end.

(** [_truncate_json(obj, max_str=..., max_list=..., max_depth=...)]. *)
Definition _truncate_json (obj : jval) (max_str max_list max_depth : Z) : jval :=
  rec max_str max_list (Z.to_nat max_depth) obj.

(** The call of [_ok_event]: [_truncate_json(payload)]. *)
Definition truncate_default (obj : jval) : jval := _truncate_json obj 4000 50 6.

(** Containers nest at most [d] deep and no list has more than [max_list + 1]
    elements. *)
Fixpoint bounded (max_list : Z) (d : nat) (x : jval) : Prop :=
  match x with
  | JList l =>
      match d with
      | O => False
      | S k => Z.of_nat (List.length l) <= max_list + 1 /\ Forall (bounded max_list k) l
      end
  | JDict items =>
      match d with
      | O => False
      | S k => Forall (fun kv => bounded max_list k (snd kv)) items
      end
  | _ => True
  end.

(** A value small enough to pass unchanged: strings of at most [max_str]
    characters, lists of at most [max_list] elements, everything within
    [depth] levels. *)
Fixpoint fits (max_str max_list : Z) (depth : nat) (x : jval) : Prop :=
  match depth with
  | O => False
  | S d =>
      match x with
      | JStr s => Z.of_nat (String.length s) <= max_str
      | JList l =>
          Z.of_nat (List.length l) <= max_list /\ Forall (fits max_str max_list d) l
      | JDict items => Forall (fun kv => fits max_str max_list d (snd kv)) items
      | _ => True
      end
  end.

End Truncate.
Import Truncate.

(* ================================================================= *)
(** * Properties *)

(** ** The grounding validator *)

Section GroundingFacts.

Lemma mem_In (x : string) (l : list string) : mem x l = true <-> In x l.
Proof.
  unfold mem. rewrite existsb_exists. split.
  - intros [y [Hy He]]. apply String.eqb_eq in He. now subst.
  - intros H. exists x. split; [assumption | apply String.eqb_refl].
Qed.

Lemma mem_false (x : string) (l : list string) : mem x l = false <-> ~ In x l.
Proof.
  rewrite <- mem_In. destruct (mem x l); split; intros H;
    first [discriminate | reflexivity | (intros H'; discriminate) | (exfalso; now apply H)].
Qed.

Lemma first_outside_None (f : string -> string) (set toks : list string) :
  first_outside f set toks = None <-> forall g, In g toks -> In (f g) set.
Proof.
  induction toks as [|t r IH]; simpl.
  - split; [intros _ g [] | reflexivity].
  - destruct (mem (f t) set) eqn:E.
    + rewrite IH. apply mem_In in E. split.
      * intros H g [<- | Hg]; auto.
      * intros H g Hg. apply H. now right.
    + split; [discriminate |].
      intros H. apply mem_false in E. exfalso. apply E, H. now left.
Qed.

Lemma first_outside_Some (f : string -> string) (set toks : list string) (g : string) :
  first_outside f set toks = Some g -> In g toks /\ ~ In (f g) set.
Proof.
  induction toks as [|t r IH]; simpl; [discriminate |].
  destruct (mem (f t) set) eqn:E.
  - intros H. destruct (IH H). auto.
  - intros [= <-]. split; [now left | now apply mem_false].
Qed.

Lemma first_outside_exists (f : string -> string) (set toks : list string) :
  (exists g, first_outside f set toks = Some g)
  <-> exists g, In g toks /\ ~ In (f g) set.
Proof.
  split.
  - intros [g H]. exists g. now apply first_outside_Some.
  - intros [g [Hin Hout]].
    destruct (first_outside f set toks) as [g'|] eqn:E; [now exists g' |].
    exfalso. apply Hout. now apply (proj1 (first_outside_None f set toks) E).
Qed.

(** Membership in the set of allowed timestamp strings. *)
Lemma allowed_ts_strings_In (tss : list datetime) (g : string) :
  In g (allowed_ts_strings tss) <->
  exists t, In t tss /\
    (g = isoformat t
     \/ (endswith (isoformat t) "+00:00" = true /\ g = drop_last 6 (isoformat t) ++ "Z")).
Proof.
  unfold allowed_ts_strings. rewrite in_flat_map. split.
  - intros [t [Ht Hg]]. exists t. split; [assumption |].
    destruct (endswith (isoformat t) "+00:00") eqn:E; simpl in Hg.
    + destruct Hg as [<- | [<- | []]]; auto.
    + destruct Hg as [<- | []]; auto.
  - intros [t [Ht Hg]]. exists t. split; [assumption |].
    destruct Hg as [-> | [E ->]].
    + destruct (endswith (isoformat t) "+00:00"); simpl; auto.
    + rewrite E. simpl. auto.
Qed.

Lemma length_append (a b : string) :
  String.length (a ++ b) = (String.length a + String.length b)%nat.
Proof. induction a; simpl; congruence. Qed.

Lemma substring_all (s : string) : substring 0 (String.length s) s = s.
Proof. induction s; simpl; congruence. Qed.

Lemma substring_skip (a b : string) :
  substring (String.length a) (String.length b) (a ++ b) = b.
Proof. induction a; simpl; [apply substring_all | assumption]. Qed.

Lemma endswith_append (a suffix : string) : endswith (a ++ suffix) suffix = true.
Proof.
  unfold endswith. rewrite length_append.
  replace (String.length a + String.length suffix - String.length suffix)%nat
    with (String.length a) by lia.
  rewrite substring_skip, String.eqb_refl.
  rewrite andb_true_r. apply Nat.leb_le. lia.
Qed.

Lemma append_assoc (a b c : string) : (a ++ b) ++ c = a ++ (b ++ c).
Proof. induction a; simpl; congruence. Qed.

(** The ISO text of a datetime in UTC ends in [+00:00]. *)
Lemma isoformat_utc_suffix (t : datetime) :
  tzoffset t = Some 0 -> endswith (isoformat t) "+00:00" = true.
Proof.
  intros H. unfold isoformat. rewrite H.
  change (format_offset 0) with "+00:00".
  repeat rewrite <- append_assoc.
  apply endswith_append.
Qed.

End GroundingFacts.

(** C1 (as amended). [validate_grounded_response] raises, and then a
    [GroundingViolation], exactly when the text holds a currency token whose
    digits, thousands separators removed, are not the two-decimal rendering of
    an allowed price, or an ISO-8601 timestamp token that is neither the ISO
    text of an allowed timestamp nor, for an allowed timestamp whose ISO text
    ends in [+00:00], that text with the suffix written [Z]. For an allowed
    timestamp in UTC both spellings are accepted. *)
Theorem C1_validate_raises_iff_unmatched_token
    (text : string) (prices : list float) (tss : list datetime) :
  ((exists e, validate_grounded_response text prices tss = Raise e)
   <->
   (exists g, In g (money_tokens text)
              /\ ~ exists p, In p prices /\ strip_commas g = format_2f p)
   \/
   (exists g, In g (ts_tokens text)
              /\ ~ exists t, In t tss
                   /\ (g = isoformat t
                       \/ (endswith (isoformat t) "+00:00" = true
                           /\ g = drop_last 6 (isoformat t) ++ "Z"))))
  /\ (forall e, validate_grounded_response text prices tss = Raise e ->
                exists msg, e = GroundingViolation msg)
  /\ (forall t, In t tss -> tzoffset t = Some 0 ->
        In (isoformat t) (allowed_ts_strings tss)
        /\ In (drop_last 6 (isoformat t) ++ "Z") (allowed_ts_strings tss)).
Proof.
  assert (Hprice : forall g, In (strip_commas g) (map format_2f prices)
                     <-> exists p, In p prices /\ strip_commas g = format_2f p).
  { intros g. rewrite in_map_iff. split; intros [p [A B]]; exists p; auto. }
  split; [| split].
  - unfold validate_grounded_response.
    destruct (first_outside strip_commas (map format_2f prices) (money_tokens text))
      as [g|] eqn:E1.
    + split; [| intros _; eauto].
      intros _. left. exists g.
      destruct (first_outside_Some _ _ _ _ E1) as [Hin Hout].
      split; [assumption |]. now rewrite <- Hprice.
    + destruct (first_outside (fun g => g) (allowed_ts_strings tss) (ts_tokens text))
        as [g|] eqn:E2.
      * split; [| intros _; eauto].
        intros _. right. exists g.
        destruct (first_outside_Some _ _ _ _ E2) as [Hin Hout].
        split; [assumption |]. now rewrite <- allowed_ts_strings_In.
      * split; [intros [e He]; discriminate |].
        intros [[g [Hin Hout]] | [g [Hin Hout]]]; exfalso; apply Hout.
        -- apply Hprice. now apply (proj1 (first_outside_None _ _ _) E1).
        -- apply allowed_ts_strings_In.
           now apply (proj1 (first_outside_None _ _ _) E2).
  - intros e. unfold validate_grounded_response.
    destruct (first_outside strip_commas _ _); [intros [= <-]; eauto |].
    destruct (first_outside (fun g => g) _ _); [intros [= <-]; eauto | discriminate].
  - intros t Ht Hutc. split; apply allowed_ts_strings_In; exists t; split; auto.
    right. split; [now apply isoformat_utc_suffix | reflexivity].
Qed.

(** C1, as stated, fails: a token is judged by its spelling, not by its
    value. The price 1200.0 is allowed, yet [$1,200] is rejected, because the
    allowed spelling is [1200.00]; and a timestamp written with another offset
    is rejected although it names an allowed instant. *)
Lemma C1_equal_value_rejected :
  (money_tokens "Total is $1,200" = ["1,200"]
   /\ money_value "1,200" = 1200%float
   /\ validate_grounded_response "Total is $1,200" [1200%float] []
      = Raise (GroundingViolation "ungrounded price $1,200"))
  /\ (ts_tokens "Expires at 2026-02-15T13:00:00+01:00" = ["2026-02-15T13:00:00+01:00"]
      /\ option_map instant (fromisoformat "2026-02-15T13:00:00+01:00")
         = Some (instant Examples.noon_utc)
      /\ validate_grounded_response "Expires at 2026-02-15T13:00:00+01:00" [] [Examples.noon_utc]
         = Raise (GroundingViolation "ungrounded timestamp 2026-02-15T13:00:00+01:00")).
Proof. vm_compute. repeat split. Qed.

(** The three cases of test_grounding.py. *)
Example grounding_allows_known_price :
  validate_grounded_response "Total is $123.45" [123.45%float] [] = Ok tt.
Proof. vm_compute. reflexivity. Qed.

Example grounding_rejects_unknown_price :
  validate_grounded_response "Total is $123.46" [123.45%float] []
  = Raise (GroundingViolation "ungrounded price $123.46").
Proof. vm_compute. reflexivity. Qed.

Example grounding_accepts_z_and_plus00 :
  validate_grounded_response "Expires at 2026-02-15T12:00:00Z" []
    [Examples.noon_utc] = Ok tt.
Proof. vm_compute. reflexivity. Qed.


(** ** The fingerprint *)

Section OrderFacts.

Lemma ascii_compare_refl (a : ascii) : Ascii.compare a a = Eq.
Proof. unfold Ascii.compare. apply N.compare_refl. Qed.

Lemma ascii_compare_lt_trans (a b c : ascii) :
  Ascii.compare a b = Lt -> Ascii.compare b c = Lt -> Ascii.compare a c = Lt.
Proof.
  unfold Ascii.compare. rewrite !N.compare_lt_iff. lia.
Qed.

Lemma string_compare_lt_trans (s1 s2 s3 : string) :
  String.compare s1 s2 = Lt -> String.compare s2 s3 = Lt -> String.compare s1 s3 = Lt.
Proof.
  revert s2 s3. induction s1 as [|a s1 IH]; intros [|b s2] [|c s3]; simpl;
    try discriminate; try reflexivity.
  destruct (Ascii.compare a b) eqn:Eab; try discriminate;
    destruct (Ascii.compare b c) eqn:Ebc; try discriminate; intros H1 H2.
  - apply Ascii.compare_eq_iff in Eab, Ebc. subst.
    rewrite ascii_compare_refl. eauto.
  - apply Ascii.compare_eq_iff in Eab. subst. now rewrite Ebc.
  - apply Ascii.compare_eq_iff in Ebc. subst. now rewrite Eab.
  - now rewrite (ascii_compare_lt_trans _ _ _ Eab Ebc).
Qed.

Lemma string_compare_refl (s : string) : String.compare s s = Eq.
Proof. induction s; simpl; [reflexivity | now rewrite ascii_compare_refl]. Qed.

Lemma string_leb_trans (s1 s2 s3 : string) :
  String.leb s1 s2 = true -> String.leb s2 s3 = true -> String.leb s1 s3 = true.
Proof.
  unfold String.leb.
  destruct (String.compare s1 s2) eqn:E12; try discriminate;
    destruct (String.compare s2 s3) eqn:E23; try discriminate; intros _ _.
  - apply String.compare_eq_iff in E12. apply String.compare_eq_iff in E23. subst.
    now rewrite string_compare_refl.
  - apply String.compare_eq_iff in E12. subst. now rewrite E23.
  - apply String.compare_eq_iff in E23. subst. now rewrite E12.
  - now rewrite (string_compare_lt_trans _ _ _ E12 E23).
Qed.

Lemma string_leb_false (a b : string) : String.leb a b = false -> String.leb b a = true.
Proof. destruct (String.leb_total a b); congruence. Qed.

End OrderFacts.

(** Sorting by a string key: inserting two elements commutes when equal keys
    mean equal elements, so the sorted list does not depend on the order of
    the input. *)
Section SortByKey.

Context {A : Type}.
Variable key : A -> string.

Fixpoint insert_by (x : A) (l : list A) : list A :=
  match l with
  | [] => [x]
  | h :: t => if String.leb (key x) (key h) then x :: l else h :: insert_by x t
  end.

Definition sort_by (l : list A) : list A := fold_right insert_by [] l.

Lemma insert_by_comm (x y : A) (l : list A) :
  (key x = key y -> x = y) ->
  insert_by x (insert_by y l) = insert_by y (insert_by x l).
Proof.
  intros Hxy. induction l as [|h t IH]; simpl.
  - destruct (String.leb (key x) (key y)) eqn:Exy, (String.leb (key y) (key x)) eqn:Eyx;
      try reflexivity.
    + rewrite (Hxy (String.leb_antisym _ _ Exy Eyx)). reflexivity.
    + apply string_leb_false in Exy. congruence.
  - destruct (String.leb (key y) (key h)) eqn:Eyh, (String.leb (key x) (key h)) eqn:Exh;
      simpl; rewrite ?Eyh, ?Exh.
    + destruct (String.leb (key x) (key y)) eqn:Exy, (String.leb (key y) (key x)) eqn:Eyx;
        try reflexivity.
      * rewrite (Hxy (String.leb_antisym _ _ Exy Eyx)). reflexivity.
      * apply string_leb_false in Exy. congruence.
    + destruct (String.leb (key x) (key y)) eqn:Exy.
      * rewrite (string_leb_trans _ _ _ Exy Eyh) in Exh. discriminate.
      * reflexivity.
    + destruct (String.leb (key y) (key x)) eqn:Eyx.
      * rewrite (string_leb_trans _ _ _ Eyx Exh) in Eyh. discriminate.
      * reflexivity.
    + now rewrite IH.
Qed.

Lemma sort_by_perm (l1 l2 : list A) :
  Permutation l1 l2 ->
  (forall x y, In x l1 -> In y l1 -> key x = key y -> x = y) ->
  sort_by l1 = sort_by l2.
Proof.
  induction 1 as [| x l l' Hp IH | x y l | l l' l'' H1 IH1 H2 IH2]; intros Hinj.
  - reflexivity.
  - simpl. rewrite IH; [reflexivity |]. intros a b Ha Hb. apply Hinj; now right.
  - simpl. apply insert_by_comm. apply Hinj; simpl; tauto.
  - rewrite IH1 by assumption. apply IH2.
    intros a b Ha Hb. apply Hinj.
    + apply Permutation_in with (l := l'); [now apply Permutation_sym | assumption].
    + apply Permutation_in with (l := l'); [now apply Permutation_sym | assumption].
Qed.

End SortByKey.

Section DictFacts.

Lemma sorted_strs_is_sort_by (l : list string) : sorted_strs l = sort_by (fun s => s) l.
Proof.
  unfold sorted_strs, sort_by. induction l as [|x l IH]; simpl; [reflexivity |].
  rewrite IH. generalize (fold_right (insert_by (fun s => s)) [] l). intros m.
  induction m as [|h t IHm]; simpl; [reflexivity | now rewrite IHm].
Qed.

Lemma sorted_items_is_sort_by (d : dict) : sorted_items d = sort_by fst d.
Proof.
  unfold sorted_items, sort_by. induction d as [|x l IH]; simpl; [reflexivity |].
  rewrite IH. generalize (fold_right (insert_by fst) [] l). intros m.
  induction m as [|h t IHm]; simpl; [reflexivity | now rewrite IHm].
Qed.

(** The sorted amenities do not depend on the order they were given in. *)
Lemma sorted_strs_perm (l1 l2 : list string) :
  Permutation l1 l2 -> sorted_strs l1 = sorted_strs l2.
Proof.
  intros H. rewrite !sorted_strs_is_sort_by. apply sort_by_perm; auto.
Qed.

Lemma dict_get_In (k : string) (v : value) (d : dict) :
  dict_get k d = Some v -> In (k, v) d.
Proof.
  induction d as [|[k' v'] r IH]; simpl; [discriminate |].
  destruct (String.eqb_spec k k') as [-> | Hne].
  - intros [= ->]. now left.
  - intros H. right. auto.
Qed.

Lemma dict_get_None (k : string) (d : dict) :
  dict_get k d = None <-> ~ In k (keys d).
Proof.
  induction d as [|[k' v'] r IH]; simpl.
  - split; auto.
  - destruct (String.eqb_spec k k') as [-> | Hne].
    + split; [discriminate | intros H; exfalso; apply H; now left].
    + rewrite IH. split; intros H; [intros [E | Hin]; [congruence | auto] | auto].
Qed.

Lemma In_dict_get (k : string) (v : value) (d : dict) :
  NoDup (keys d) -> In (k, v) d -> dict_get k d = Some v.
Proof.
  induction d as [|[k' v'] r IH]; simpl; [intros _ [] |].
  intros Hnd [[= -> ->] | Hin].
  - now rewrite String.eqb_refl.
  - inversion Hnd as [| ? ? Hnot Hnd']; subst.
    destruct (String.eqb_spec k k') as [-> | Hne].
    + exfalso. apply Hnot. apply (in_map fst) in Hin. exact Hin.
    + auto.
Qed.

Lemma NoDup_keys_items (d : dict) : NoDup (keys d) -> NoDup d.
Proof.
  induction d as [|[k v] r IH]; simpl; intros H; constructor; inversion H; subst; auto.
  intros Hin. apply (in_map fst) in Hin. auto.
Qed.

(** Dictionaries with the same entries are permutations of one another. *)
Lemma dict_ext_perm (a b : dict) :
  NoDup (keys a) -> NoDup (keys b) ->
  (forall k, dict_get k a = dict_get k b) -> Permutation a b.
Proof.
  intros Ha Hb Hext.
  apply NoDup_Permutation; auto using NoDup_keys_items.
  intros [k v]. split; intros Hin.
  - apply dict_get_In. rewrite <- Hext. now apply In_dict_get.
  - apply dict_get_In. rewrite Hext. now apply In_dict_get.
Qed.

Lemma json_dumps_sorted_ext (a b : dict) :
  NoDup (keys a) -> NoDup (keys b) ->
  (forall k, dict_get k a = dict_get k b) ->
  json_dumps_sorted a = json_dumps_sorted b.
Proof.
  intros Ha Hb Hext. unfold json_dumps_sorted.
  rewrite !sorted_items_is_sort_by.
  rewrite (sort_by_perm fst a b); [reflexivity | now apply dict_ext_perm |].
  intros [k v] [k' v'] Hx Hy. simpl. intros <-.
  apply (In_dict_get _ _ _ Ha) in Hx, Hy. congruence.
Qed.

Lemma dict_get_set (k x : string) (v : value) (d : dict) :
  dict_get k (dict_set x v d) = if String.eqb k x then Some v else dict_get k d.
Proof.
  induction d as [|[k' v'] r IH]; simpl.
  - destruct (String.eqb k x); reflexivity.
  - destruct (String.eqb_spec x k') as [-> | Hne]; simpl.
    + destruct (String.eqb k k'); reflexivity.
    + rewrite IH. destruct (String.eqb_spec k k') as [-> | Hne'].
      * destruct (String.eqb_spec k' x); [congruence | reflexivity].
      * reflexivity.
Qed.

Lemma keys_set_present (x : string) (v : value) (d : dict) :
  In x (keys d) -> keys (dict_set x v d) = keys d.
Proof.
  induction d as [|[k' v'] r IH]; simpl; [intros [] |].
  destruct (String.eqb_spec x k') as [-> | Hne]; simpl; [reflexivity |].
  intros [E | Hin]; [congruence | now rewrite IH].
Qed.

Lemma keys_set_absent (x : string) (v : value) (d : dict) :
  ~ In x (keys d) -> keys (dict_set x v d) = (keys d ++ [x])%list.
Proof.
  induction d as [|[k' v'] r IH]; simpl; [reflexivity |].
  intros Hnot. destruct (String.eqb_spec x k') as [-> | Hne]; simpl.
  - exfalso. apply Hnot. now left.
  - rewrite IH; auto.
Qed.

Lemma NoDup_keys_set (x : string) (v : value) (d : dict) :
  NoDup (keys d) -> NoDup (keys (dict_set x v d)).
Proof.
  intros H. destruct (in_dec string_dec x (keys d)) as [Hin | Hnot].
  - now rewrite keys_set_present.
  - rewrite keys_set_absent by assumption.
    apply NoDup_app; [assumption | repeat constructor; intros [] | ].
    intros a Ha [<- | []]. auto.
Qed.

Lemma dict_get_subset (k : string) (d : dict) :
  dict_get k (tool_constraint_subset d)
  = if mem k tool_constraint_keys then dict_get k d else None.
Proof.
  unfold tool_constraint_subset. generalize tool_constraint_keys. intros ks.
  induction d as [|[k' v'] r IH]; cbn [filter dict_get fst].
  - destruct (mem k ks); reflexivity.
  - destruct (mem k' ks) eqn:E; cbn [dict_get]; rewrite IH.
    + destruct (String.eqb_spec k k') as [-> | Hne]; [now rewrite E | reflexivity].
    + destruct (String.eqb_spec k k') as [-> | Hne]; [now rewrite E | reflexivity].
Qed.

Lemma NoDup_keys_subset (d : dict) :
  NoDup (keys d) -> NoDup (keys (tool_constraint_subset d)).
Proof.
  unfold tool_constraint_subset. generalize tool_constraint_keys. intros ks.
  induction d as [|[k v] r IH]; cbn [filter keys map fst]; intros H; [constructor |].
  inversion H as [| ? ? Hnot Hnd]; subst.
  destruct (mem k ks); cbn [keys map fst]; auto.
  constructor; auto. intros Hin. apply Hnot.
  unfold keys in *. apply in_map_iff in Hin. destruct Hin as [[k' v'] [E Hin]].
  apply filter_In in Hin. destruct Hin as [Hin _]. simpl in E. subst.
  apply (in_map fst) in Hin. exact Hin.
Qed.

(** What [_tool_constraints_key] does to the value under a key. *)
Definition iso_val (v : value) : value :=
  match v with VDate x => VStr (date_isoformat x) | _ => v end.

Definition sort_val (v : value) : value :=
  match v with VList l => VList (sorted_strs l) | _ => v end.

Lemma dict_get_iso_date_at (k x : string) (d : dict) :
  dict_get k (iso_date_at x d)
  = if String.eqb k x then option_map iso_val (dict_get k d) else dict_get k d.
Proof.
  unfold iso_date_at.
  destruct (String.eqb_spec k x) as [-> | Hne].
  - destruct (dict_get x d) as [[]|] eqn:E; rewrite ?dict_get_set, ?String.eqb_refl, ?E;
      reflexivity.
  - destruct (dict_get x d) as [[]|] eqn:E; rewrite ?dict_get_set; try reflexivity.
    destruct (String.eqb_spec k x); [congruence | reflexivity].
Qed.

Lemma dict_get_sort_list_at (k x : string) (d : dict) :
  dict_get k (sort_list_at x d)
  = if String.eqb k x then option_map sort_val (dict_get k d) else dict_get k d.
Proof.
  unfold sort_list_at.
  destruct (String.eqb_spec k x) as [-> | Hne].
  - destruct (dict_get x d) as [[]|] eqn:E; rewrite ?dict_get_set, ?String.eqb_refl, ?E;
      reflexivity.
  - destruct (dict_get x d) as [[]|] eqn:E; rewrite ?dict_get_set; try reflexivity.
    destruct (String.eqb_spec k x); [congruence | reflexivity].
Qed.

Lemma NoDup_keys_iso_date_at (x : string) (d : dict) :
  NoDup (keys d) -> NoDup (keys (iso_date_at x d)).
Proof.
  unfold iso_date_at. destruct (dict_get x d) as [[]|]; auto using NoDup_keys_set.
Qed.

Lemma NoDup_keys_sort_list_at (x : string) (d : dict) :
  NoDup (keys d) -> NoDup (keys (sort_list_at x d)).
Proof.
  unfold sort_list_at. destruct (dict_get x d) as [[]|]; auto using NoDup_keys_set.
Qed.

(** The dictionary that is serialized. *)
Definition canonical (d : dict) : dict :=
  sort_list_at "amenities"
    (iso_date_at "check_out" (iso_date_at "check_in" (tool_constraint_subset d))).

Lemma key_is_dumps_canonical (d : dict) :
  _tool_constraints_key d = json_dumps_sorted (canonical d).
Proof. reflexivity. Qed.

Lemma NoDup_keys_canonical (d : dict) : NoDup (keys d) -> NoDup (keys (canonical d)).
Proof.
  intros H. unfold canonical.
  auto using NoDup_keys_sort_list_at, NoDup_keys_iso_date_at, NoDup_keys_subset.
Qed.

(** The fingerprint reads the dictionary through the tool-relevant keys only,
    and the amenities through their sorted list. *)
Lemma tool_key_ext (a b : dict) :
  NoDup (keys a) -> NoDup (keys b) ->
  (forall k, In k tool_constraint_keys -> k <> "amenities" ->
             dict_get k a = dict_get k b) ->
  option_map sort_val (dict_get "amenities" a)
  = option_map sort_val (dict_get "amenities" b) ->
  _tool_constraints_key a = _tool_constraints_key b.
Proof.
  intros Ha Hb Hext Ham. rewrite !key_is_dumps_canonical.
  apply json_dumps_sorted_ext; auto using NoDup_keys_canonical.
  intros k. unfold canonical.
  rewrite !dict_get_sort_list_at, !dict_get_iso_date_at, !dict_get_subset.
  destruct (mem k tool_constraint_keys) eqn:Ek.
  - apply mem_In in Ek.
    destruct (String.eqb_spec k "amenities") as [-> | Hne].
    + exact Ham.
    + rewrite (Hext k Ek Hne). reflexivity.
  - destruct (String.eqb k "amenities"), (String.eqb k "check_out"), (String.eqb k "check_in");
      reflexivity.
Qed.

End DictFacts.

Lemma dict_get_perm (a b : dict) (k : string) :
  NoDup (keys a) -> Permutation a b -> dict_get k a = dict_get k b.
Proof.
  intros Ha Hp.
  assert (Hb : NoDup (keys b)).
  { eapply Permutation_NoDup; [apply Permutation_map; exact Hp | exact Ha]. }
  destruct (dict_get k a) as [v|] eqn:E.
  - symmetry. apply In_dict_get; [assumption |].
    eapply Permutation_in; [exact Hp | now apply dict_get_In].
  - symmetry. apply dict_get_None. apply dict_get_None in E.
    intros Hin. apply E.
    eapply Permutation_in; [apply Permutation_sym, Permutation_map; exact Hp | exact Hin].
Qed.

(** C5. Two constraint dictionaries that agree on every tool-relevant key
    have equal fingerprints, whatever their other keys and whatever the order
    of their keys; and the fingerprint does not depend on the order of the
    amenities list. *)
Theorem C5_fingerprint_stable (d1 d2 : dict) (l1 l2 : list string) :
  NoDup (keys d1) -> NoDup (keys d2) -> Permutation l1 l2 ->
  ((forall k, In k tool_constraint_keys -> dict_get k d1 = dict_get k d2) ->
   _tool_constraints_key d1 = _tool_constraints_key d2)
  /\ (Permutation d1 d2 -> _tool_constraints_key d1 = _tool_constraints_key d2)
  /\ _tool_constraints_key (dict_set "amenities" (VList l1) d1)
     = _tool_constraints_key (dict_set "amenities" (VList l2) d1).
Proof.
  intros H1 H2 Hl. split; [| split].
  - intros Hext. apply tool_key_ext; auto.
    rewrite Hext; [reflexivity |]. simpl. tauto.
  - intros Hp. apply tool_key_ext; auto.
    + intros k _ _. now apply dict_get_perm.
    + now rewrite (dict_get_perm d1 d2).
  - apply tool_key_ext; auto using NoDup_keys_set.
    + intros k _ Hne. rewrite !dict_get_set.
      destruct (String.eqb_spec k "amenities"); [congruence | reflexivity].
    + rewrite !dict_get_set. simpl. now rewrite (sorted_strs_perm l1 l2).
Qed.

Lemma C5_fingerprint_stable_witness :
  _tool_constraints_key Examples.noted_dict = _tool_constraints_key Examples.plain_dict
  /\ _tool_constraints_key (dict_set "amenities" (VList ["wifi"; "pool"]) Examples.noted_dict)
     = _tool_constraints_key (dict_set "amenities" (VList ["pool"; "wifi"]) Examples.noted_dict).
Proof.
  assert (Hnd1 : NoDup (keys Examples.noted_dict)).
  { repeat constructor; simpl; intuition discriminate. }
  assert (Hnd2 : NoDup (keys Examples.plain_dict)).
  { repeat constructor; simpl; intuition discriminate. }
  destruct (C5_fingerprint_stable Examples.noted_dict Examples.plain_dict
              ["wifi"; "pool"] ["pool"; "wifi"] Hnd1 Hnd2 (perm_swap _ _ _))
    as [Hext [_ Ham]].
  split; [| exact Ham].
  apply Hext. intros k Hk. simpl in Hk.
  repeat (destruct Hk as [<- | Hk]; [reflexivity |]). destruct Hk.
Defined.

(** The serialization itself, on the constraints of the specification's
    scenario: ISO dates, sorted amenities, sorted keys. *)
Example fingerprint_of_scenario :
  _tool_constraints_key (to_dict (dump Examples.austin))
  = json_dumps_sorted
      [("adults", VInt 2); ("amenities", VList ["pool"; "wifi"]);
       ("check_in", VStr "2026-03-10"); ("check_out", VStr "2026-03-12");
       ("city", VStr "Austin"); ("max_price", VFloat 1200); ("rooms", VInt 1)].
Proof. vm_compute. reflexivity. Qed.

(* ================================================================= *)
(** ** The turn graph *)

(** *** What a computation does to the tool side of the world *)

(** The tool side of two worlds is the same: no invocation of the tool
    client, no HTTP attempt, no outcome consumed. *)
Definition same_tools (w w' : world) : Prop :=
  tool_calls w' = tool_calls w /\ http_posts w' = http_posts w
  /\ http_tape w' = http_tape w.

(** A computation that leaves the tool side alone. *)
Definition llm_only {A} (m : M A) : Prop := forall w, same_tools w (snd (m w)).

Lemma same_tools_refl (w : world) : same_tools w w.
Proof. repeat split. Qed.

Lemma same_tools_trans (w1 w2 w3 : world) :
  same_tools w1 w2 -> same_tools w2 w3 -> same_tools w1 w3.
Proof. unfold same_tools. intuition congruence. Qed.

Lemma llm_only_ret {A} (a : A) : llm_only (ret a).
Proof. intros w. apply same_tools_refl. Qed.

Lemma llm_only_raise {A} (e : exn) : llm_only (@raise A e).
Proof. intros w. apply same_tools_refl. Qed.

Lemma llm_only_bind {A B} (m : M A) (f : A -> M B) :
  llm_only m -> (forall a, llm_only (f a)) -> llm_only (bind m f).
Proof.
  intros Hm Hf w. unfold bind. specialize (Hm w).
  destruct (m w) as [[a | e] w1]; simpl in *; [| assumption].
  eapply same_tools_trans; [exact Hm | apply Hf].
Qed.

Lemma llm_only_invoke : llm_only llm_invoke.
Proof.
  intros w. unfold llm_invoke. destruct (llm_tape w); simpl; repeat split.
Qed.

Lemma llm_only_attempts {A} (n : nat) (accept : llm_reply -> string + A) (e : string) :
  llm_only (llm_attempts n accept e).
Proof.
  revert e. induction n as [|n IH]; intros e; simpl.
  - apply llm_only_ret.
  - apply llm_only_bind; [apply llm_only_invoke |].
    intros r. destruct (accept r); [apply IH | apply llm_only_ret].
Qed.

Create HintDb llm_only discriminated.
#[local] Hint Resolve llm_only_ret llm_only_raise llm_only_invoke llm_only_attempts
  : llm_only.

(** Breaks a computation into its binds and branches. *)
Ltac llm_only_step :=
  first
    [ apply llm_only_ret | apply llm_only_raise | apply llm_only_invoke
    | apply llm_only_attempts
    | apply llm_only_bind; [| intros ? ]
    | match goal with
      | |- llm_only (if ?b then _ else _) => destruct b
      | |- llm_only (match ?x with _ => _ end) => destruct x
      | |- llm_only (let '(_, _) := ?x in _) => destruct x
      end
    | solve [auto with llm_only] ].

Ltac llm_only_tac := repeat llm_only_step.

Section TurnFacts.

Variable SETTINGS : AgentSettings.

Lemma llm_only_get_chat_model : llm_only (get_chat_model SETTINGS).
Proof. unfold get_chat_model. llm_only_tac. Qed.

Lemma llm_only_extract_stage st : llm_only (extract_stage st).
Proof. unfold extract_stage. llm_only_tac. Qed.

Lemma llm_only_date_stage st : llm_only (date_stage st).
Proof. unfold date_stage. llm_only_tac. Qed.

Lemma llm_only_resolve_city st : llm_only (resolve_city st).
Proof. unfold resolve_city. llm_only_tac. Qed.

Lemma llm_only_resolve_occupancy st : llm_only (resolve_occupancy st).
Proof. unfold resolve_occupancy. llm_only_tac. Qed.

Lemma llm_only_resolve_amenities st : llm_only (resolve_amenities st).
Proof. unfold resolve_amenities. llm_only_tac. Qed.

Lemma llm_only_resolve_budget st : llm_only (_resolve_budget st).
Proof. unfold _resolve_budget. llm_only_tac. Qed.

Lemma llm_only_resolve_patch st : llm_only (_resolve_hard_filters_patch st).
Proof. unfold _resolve_hard_filters_patch. llm_only_tac. Qed.

#[local] Hint Resolve llm_only_get_chat_model llm_only_extract_stage llm_only_date_stage
  llm_only_resolve_city llm_only_resolve_occupancy llm_only_resolve_amenities
  llm_only_resolve_budget llm_only_resolve_patch : llm_only.

Lemma llm_only_resolve_non_date st : llm_only (_resolve_non_date_fields st).
Proof. unfold _resolve_non_date_fields. llm_only_tac. Qed.

#[local] Hint Resolve llm_only_resolve_non_date : llm_only.

Lemma llm_only_decision_step st x : llm_only (decision_step st x).
Proof. unfold decision_step. llm_only_tac. Qed.

#[local] Hint Resolve llm_only_decision_step : llm_only.

Lemma llm_only_resolution_pipeline st : llm_only (resolution_pipeline st).
Proof. unfold resolution_pipeline. llm_only_tac. Qed.

Lemma llm_only_llm_decide st : llm_only (_llm_decide SETTINGS st).
Proof. unfold _llm_decide. llm_only_tac. Qed.

Lemma llm_only_generate n k st ps ts : llm_only (generate n k st ps ts).
Proof.
  induction n as [|n IH]; simpl; [apply llm_only_ret |].
  apply llm_only_bind; [apply llm_only_invoke |].
  intros r. destruct (accept_generated k st ps ts r); [apply llm_only_ret | apply IH].
Qed.

#[local] Hint Resolve llm_only_generate : llm_only.

Lemma llm_only_llm_respond st : llm_only (_llm_respond SETTINGS st).
Proof. unfold _llm_respond. llm_only_tac. Qed.

End TurnFacts.

(** *** Postconditions *)

(** When the computation returns, its value satisfies [Q]. *)
Definition post {A} (m : M A) (Q : A -> Prop) : Prop :=
  forall w a w', m w = (Ok a, w') -> Q a.

Lemma post_ret {A} (a : A) (Q : A -> Prop) : Q a -> post (ret a) Q.
Proof. intros H w a' w' [= <- _]. exact H. Qed.

Lemma post_raise {A} (e : exn) (Q : A -> Prop) : post (raise e) Q.
Proof. intros w a w'. discriminate. Qed.

Lemma post_bind {A B} (m : M A) (f : A -> M B) (P : A -> Prop) (Q : B -> Prop) :
  post m P -> (forall a, P a -> post (f a) Q) -> post (bind m f) Q.
Proof.
  intros Hm Hf w b w'. unfold bind.
  destruct (m w) as [[a | e] w1] eqn:E; [| discriminate].
  intros H. eapply Hf; [eapply Hm; exact E | exact H].
Qed.

Lemma post_bind_any {A B} (m : M A) (f : A -> M B) (Q : B -> Prop) :
  (forall a, post (f a) Q) -> post (bind m f) Q.
Proof.
  intros Hf. apply post_bind with (P := fun _ => True); [intros ? ? ? _; exact I | auto].
Qed.

Lemma post_weaken {A} (m : M A) (P Q : A -> Prop) :
  post m P -> (forall a, P a -> Q a) -> post m Q.
Proof. intros H HPQ w a w' E. apply HPQ. eapply H. exact E. Qed.

(** Splits a bind on an answer of the model, and the branches after it. *)
Ltac post_step :=
  first
    [ apply post_raise
    | apply post_ret
    | match goal with
      | |- post (bind (llm_attempts _ _ _) _) _ => apply post_bind_any; intros ?
      | |- post (if ?b then _ else _) _ => destruct b
      | |- post (match ?x with _ => _ end) _ => destruct x
      end ].

Ltac post_tac := repeat post_step.

(** *** What the resolver stages leave untouched *)

Section Frame.

Context {X : Type}.
Variable f : GraphState -> X.

(** [f] does not read the constraints. *)
Hypothesis f_constraints : forall v st, f (set_constraints v st) = f st.

Lemma f_merge_into upd st : f (merge_into upd st) = f st.
Proof. unfold merge_into. apply f_constraints. Qed.

Ltac frame_tac :=
  post_tac;
  repeat match goal with |- context [match ?x with _ => _ end] => destruct x end;
  rewrite ?f_merge_into, ?f_constraints; try reflexivity.

Lemma frame_resolve_amenities st : post (resolve_amenities st) (fun st' => f st' = f st).
Proof. unfold resolve_amenities. frame_tac. Qed.

Lemma frame_resolve_budget st : post (_resolve_budget st) (fun st' => f st' = f st).
Proof. unfold _resolve_budget. frame_tac. Qed.

Lemma frame_resolve_patch st :
  post (_resolve_hard_filters_patch st) (fun st' => f st' = f st).
Proof. unfold _resolve_hard_filters_patch. frame_tac. Qed.

Lemma frame_extract_stage st :
  post (extract_stage st) (fun r => f (fst r) = f st).
Proof. unfold extract_stage. frame_tac; simpl; rewrite ?f_merge_into; reflexivity. Qed.

(** [f] does not read what a question writes either. *)
Hypothesis f_end_turn : forall q st, f (end_turn_with q st) = f st.

Ltac frame_tac' :=
  post_tac; rewrite ?f_end_turn, ?f_merge_into, ?f_constraints; try reflexivity.

Lemma frame_date_stage st : post (date_stage st) (fun st' => f st' = f st).
Proof. unfold date_stage. frame_tac'. Qed.

Lemma frame_resolve_city st : post (resolve_city st) (fun st' => f st' = f st).
Proof. unfold resolve_city. frame_tac'. Qed.

Lemma frame_resolve_occupancy st : post (resolve_occupancy st) (fun st' => f st' = f st).
Proof. unfold resolve_occupancy. frame_tac'. Qed.

Lemma frame_resolve_non_date st :
  post (_resolve_non_date_fields st) (fun st' => f st' = f st).
Proof.
  unfold _resolve_non_date_fields.
  eapply post_bind; [apply frame_resolve_city |]. intros st1 H1. cbv beta in H1.
  destruct (_end_turn st1); [now apply post_ret |].
  eapply post_bind; [apply frame_resolve_occupancy |]. intros st2 H2. cbv beta in H2.
  destruct (_end_turn st2); [apply post_ret; congruence |].
  eapply post_weaken; [apply frame_resolve_amenities |]. intros; simpl in *; congruence.
Qed.

Lemma frame_resolution_pipeline st :
  post (resolution_pipeline st) (fun r => f (fst r) = f st).
Proof.
  unfold resolution_pipeline.
  eapply post_bind; [apply frame_extract_stage |]. intros [st1 x] H1. simpl in H1.
  eapply post_bind; [apply frame_date_stage |]. intros st2 H2. cbv beta in H2.
  destruct (_end_turn st2); [apply post_ret; simpl; congruence |].
  eapply post_bind with (P := fun st' => f st' = f st2).
  { destruct (at_turn_start st2); [apply frame_resolve_non_date | now apply post_ret]. }
  intros st3 H3.
  destruct (_end_turn st3); [apply post_ret; simpl; congruence |].
  eapply post_bind with (P := fun st' => f st' = f st3).
  { destruct (at_turn_start st3); [apply frame_resolve_budget | now apply post_ret]. }
  intros st4 H4.
  destruct (_end_turn st4); [apply post_ret; simpl; congruence |].
  eapply post_bind with (P := fun st' => f st' = f st4).
  { destruct (at_turn_start st4); [apply frame_resolve_patch | now apply post_ret]. }
  intros st5 H5. apply post_ret. simpl. congruence.
Qed.

End Frame.

(** The same for the decision step, for an [f] that reads neither the
    pending action nor the selection. *)
Section FrameDecide.

Context {X : Type}.
Variable f : GraphState -> X.
Variable SETTINGS : AgentSettings.

Hypothesis f_constraints : forall v st, f (set_constraints v st) = f st.
Hypothesis f_end_turn : forall q st, f (end_turn_with q st) = f st.
Hypothesis f_llm_action : forall v st, f (set_llm_action v st) = f st.
Hypothesis f_selected : forall v st, f (set_selected_offer_id v st) = f st.

Lemma frame_decision_step st x : post (decision_step st x) (fun st' => f st' = f st).
Proof.
  unfold decision_step.
  post_tac;
    repeat match goal with |- context [if ?b then _ else _] => destruct b end;
    rewrite ?f_end_turn, ?f_llm_action, ?f_selected, ?f_llm_action;
    rewrite ?(f_merge_into f f_constraints); reflexivity.
Qed.

End FrameDecide.

Section GraphFacts.

Variable SETTINGS : AgentSettings.

Notation max_calls := (max_tool_calls_per_turn SETTINGS).

(** The number of invocations of the tool client so far. *)
Definition n_calls (w : world) : nat := List.length (tool_calls w).

Lemma snd_bind {A B} (m : M A) (f : A -> M B) (w : world) :
  snd (bind m f w)
  = match m w with
    | (Ok a, w1) => snd (f a w1)
    | (Raise _, w1) => w1
    end.
Proof. unfold bind. destruct (m w) as [[a | e] w1]; reflexivity. Qed.

(** [_llm_decide] is the resolution pipeline followed, unless a stage ended
    the turn, by the decision on the state with stale caches dropped. *)
Lemma llm_decide_pipeline (st : GraphState) (w : world) :
  _llm_decide SETTINGS st w
  = bind (get_chat_model SETTINGS) (fun _ =>
      bind (resolution_pipeline (enter_decide st)) (fun '(st1, x) =>
        if _end_turn st1 then ret st1
        else decision_step (invalidate_stage st1) x)) w.
Proof.
  unfold _llm_decide, resolution_pipeline, bind.
  destruct (get_chat_model SETTINGS w) as [[[] | e] w0]; [| reflexivity].
  destruct (extract_stage (enter_decide st) w0) as [[[st1 x] | e] w1]; [| reflexivity].
  destruct (date_stage st1 w1) as [[st2 | e] w2]; [| reflexivity].
  destruct (_end_turn st2) eqn:E2; [unfold ret; now rewrite E2 |].
  destruct ((if at_turn_start st2 then _resolve_non_date_fields st2 else ret st2) w2)
    as [[st3 | e] w3]; [| reflexivity].
  destruct (_end_turn st3) eqn:E3; [unfold ret; now rewrite E3 |].
  destruct ((if at_turn_start st3 then _resolve_budget st3 else ret st3) w3)
    as [[st4 | e] w4]; [| reflexivity].
  destruct (_end_turn st4) eqn:E4; [unfold ret; now rewrite E4 |].
  destruct ((if at_turn_start st4 then _resolve_hard_filters_patch st4 else ret st4) w4)
    as [[st5 | e] w5] eqn:E5; [| reflexivity].
  assert (H5 : _end_turn st5 = false).
  { rewrite <- E4. destruct (at_turn_start st4).
    - eapply (frame_resolve_patch _end_turn); [reflexivity | exact E5].
    - now inversion E5. }
  unfold ret. now rewrite H5.
Qed.

Lemma counter_invalidate st :
  tool_calls_this_turn (invalidate_stage st) = tool_calls_this_turn st.
Proof.
  unfold invalidate_stage.
  repeat match goal with |- context [if ?b then _ else _] => destruct b end; reflexivity.
Qed.

(** The decision node does not touch the per-turn counter. *)
Lemma counter_llm_decide st :
  post (_llm_decide SETTINGS st)
       (fun st' => tool_calls_this_turn st' = tool_calls_this_turn st).
Proof.
  intros w a w'. rewrite llm_decide_pipeline.
  revert w a w'. apply post_bind_any. intros _.
  eapply post_bind.
  { apply (frame_resolution_pipeline tool_calls_this_turn); reflexivity. }
  intros [st1 x] H1. simpl in H1.
  destruct (_end_turn st1); [now apply post_ret |].
  eapply post_weaken.
  { apply (frame_decision_step tool_calls_this_turn); reflexivity. }
  intros st2 H2. simpl in *. rewrite H2, counter_invalidate. exact H1.
Qed.

(** *** The tool client *)

Lemma call_loop_tool_calls n attempt retries req w :
  tool_calls (snd (call_loop SETTINGS n attempt retries req w)) = tool_calls w.
Proof.
  revert attempt retries w. induction n as [|n IH]; intros attempt retries w; simpl.
  - reflexivity.
  - rewrite snd_bind. unfold http_post.
    destruct (http_tape w) as [|o rest];
      (destruct (attempt_result (tc_tool req) _); simpl;
       [reflexivity |
        destruct (attempt <? tool_max_retries SETTINGS); [rewrite IH |]; reflexivity]).
Qed.


Lemma call_tool_calls tool path p w :
  tool_calls (snd (call SETTINGS tool path p w))
  = (tool_calls w ++ [mktool_call tool path p])%list.
Proof.
  unfold call. rewrite snd_bind. unfold log_tool_call.
  now rewrite call_loop_tool_calls.
Qed.

Lemma n_calls_call tool path p w :
  n_calls (snd (call SETTINGS tool path p w)) = S (n_calls w).
Proof. unfold n_calls. rewrite call_tool_calls, length_app. simpl. lia. Qed.

(** A computation that invokes the client at most once and, when it
    returns, leaves the counter as it found it. *)
Definition one_call (m : M GraphState) (c : Z) : Prop :=
  forall w, (n_calls (snd (m w)) <= S (n_calls w))%nat
            /\ forall st' w', m w = (Ok st', w') -> tool_calls_this_turn st' = c.

Lemma one_call_ret st c : tool_calls_this_turn st = c -> one_call (ret st) c.
Proof. intros H w. split; [simpl; lia | intros st' w' [= <- _]; exact H]. Qed.

Lemma one_call_raise e c : one_call (raise e) c.
Proof. intros w. split; [simpl; lia | discriminate]. Qed.

Lemma one_call_bind_call tool path p (k : tool_data * event -> GraphState) c :
  (forall r, tool_calls_this_turn (k r) = c) ->
  one_call (bind (call SETTINGS tool path p) (fun r => ret (k r))) c.
Proof.
  intros Hk w. split.
  - rewrite snd_bind. pose proof (n_calls_call tool path p w) as Hn.
    destruct (call SETTINGS tool path p w) as [[r | e] w1]; simpl in *; lia.
  - intros st' w'. unfold bind.
    destruct (call SETTINGS tool path p w) as [[r | e] w1]; [| discriminate].
    intros [= <- _]. apply Hk.
Qed.

Lemma one_call_search st c parsed :
  one_call (_call_search_candidates SETTINGS st c parsed) (tool_calls_this_turn st).
Proof.
  unfold _call_search_candidates.
  destruct (is_complete c); simpl; [| now apply one_call_ret].
  destruct (to_tool_payload c (default_tenant_id SETTINGS)); [| apply one_call_raise].
  intros w. split.
  - rewrite snd_bind.
    pose proof (n_calls_call search_candidates "/tools/search_candidates"
                  (SearchPayload s) w) as Hn.
    destruct (call SETTINGS search_candidates _ _ w) as [[[result evt] | e] w1];
      simpl in *; [| lia].
    destruct (negb (truthy_list (td_candidates result))); simpl; lia.
  - intros st' w'. unfold bind.
    destruct (call SETTINGS search_candidates _ _ w) as [[[result evt] | e] w1];
      [| discriminate].
    destruct (negb _); intros [= <- _]; reflexivity.
Qed.

Lemma one_call_offers st c parsed :
  one_call (_call_get_offers SETTINGS st c parsed) (tool_calls_this_turn st).
Proof.
  unfold _call_get_offers.
  destruct (map hotel_id _); [now apply one_call_ret |].
  destruct (k_check_in c); [| now apply one_call_ret].
  destruct (k_check_out c); [| now apply one_call_ret].
  intros w. split.
  - rewrite snd_bind.
    match goal with |- context [call SETTINGS get_offers ?pa ?pl w] =>
      pose proof (n_calls_call get_offers pa pl w) as Hn;
      destruct (call SETTINGS get_offers pa pl w) as [[[result evt] | e] w1] end;
      simpl in *; lia.
  - intros st' w'. unfold bind.
    match goal with |- context [call SETTINGS get_offers ?pa ?pl w] =>
      destruct (call SETTINGS get_offers pa pl w) as [[[result evt] | e] w1] end;
      [| discriminate].
    intros [= <- _]; reflexivity.
Qed.

Lemma one_call_rank st :
  one_call (_call_rank_offers SETTINGS st) (tool_calls_this_turn st).
Proof.
  unfold _call_rank_offers.
  destruct (offers st) eqn:Eo; [now apply one_call_ret |].
  intros w. split.
  - rewrite snd_bind.
    match goal with |- context [call SETTINGS rank_offers ?pa ?pl w] =>
      pose proof (n_calls_call rank_offers pa pl w) as Hn;
      destruct (call SETTINGS rank_offers pa pl w) as [[[result evt] | e] w1] end;
      simpl in *; lia.
  - intros st' w'. unfold bind.
    match goal with |- context [call SETTINGS rank_offers ?pa ?pl w] =>
      destruct (call SETTINGS rank_offers pa pl w) as [[[result evt] | e] w1] end;
      [| discriminate].
    intros [= <- _]; reflexivity.
Qed.

(** At the budget, the tool node answers without invoking anything. *)
Lemma call_tool_at_budget st t w :
  max_calls <= tool_calls_this_turn st ->
  llm_action st = Some (CallTool t) ->
  _call_tool SETTINGS st w
  = (Ok (respond_with generic "Tool call limit reached for this turn."
           (set_agent_state (Some "CALL_TOOL") st)), w).
Proof.
  intros Hfull Hact. unfold _call_tool. simpl. rewrite Hact.
  apply Z.leb_le in Hfull. now rewrite Hfull.
Qed.

(** The tool node: at most one invocation, none at the budget; the counter
    goes up by one when the budget allowed the call. *)
Lemma call_tool_effect st w :
  (n_calls (snd (_call_tool SETTINGS st w))
   <= n_calls w + (if (max_calls <=? tool_calls_this_turn st)%Z then 0 else 1))%nat
  /\ forall st' w', _call_tool SETTINGS st w = (Ok st', w') ->
       tool_calls_this_turn st'
       = if max_calls <=? tool_calls_this_turn st then tool_calls_this_turn st
         else tool_calls_this_turn st + 1.
Proof.
  unfold _call_tool. simpl.
  destruct (llm_action st) as [[t | k m] |]; try (split; [simpl; lia | discriminate]).
  destruct (max_calls <=? tool_calls_this_turn st) eqn:E.
  - split; [simpl; lia | intros st' w' [= <- _]; reflexivity].
  - destruct t.
    + destruct (one_call_search
                  (set_tool_calls_this_turn (tool_calls_this_turn st + 1)
                     (set_agent_state (Some "CALL_TOOL") st))
                  (Constraints_of (parsed (constraints st)))
                  (parsed (constraints st)) w) as [H1 H2].
      split; [simpl in *; lia | exact H2].
    + destruct (one_call_offers
                  (set_tool_calls_this_turn (tool_calls_this_turn st + 1)
                     (set_agent_state (Some "CALL_TOOL") st))
                  (Constraints_of (parsed (constraints st)))
                  (parsed (constraints st)) w) as [H1 H2].
      split; [simpl in *; lia | exact H2].
    + destruct (one_call_rank
                  (set_tool_calls_this_turn (tool_calls_this_turn st + 1)
                     (set_agent_state (Some "CALL_TOOL") st)) w) as [H1 H2].
      split; [simpl in *; lia | exact H2].
Qed.

Lemma n_calls_llm_only {A} (m : M A) (w : world) :
  llm_only m -> n_calls (snd (m w)) = n_calls w.
Proof. intros H. unfold n_calls. destruct (H w) as [-> _]. reflexivity. Qed.

(** From any node, the graph invokes the client at most as often as the
    budget still allows. *)
Lemma run_from_budget fuel n st w :
  (n_calls (snd (run_from SETTINGS fuel n st w))
   <= n_calls w + Z.to_nat (max_calls - tool_calls_this_turn st))%nat.
Proof.
  revert n st w. induction fuel as [|fuel IH]; intros n st w; simpl; [lia |].
  destruct n.
  - rewrite snd_bind.
    pose proof (n_calls_llm_only _ w (llm_only_llm_decide SETTINGS st)) as Hn.
    pose proof (counter_llm_decide st w) as Hc.
    destruct (_llm_decide SETTINGS st w) as [[st1 | e] w1]; simpl in Hn; [| lia].
    specialize (Hc st1 w1 eq_refl). simpl in Hc.
    destruct (_route_after_llm_decide st1);
      try (simpl; lia);
      (eapply Nat.le_trans; [apply IH |]; rewrite Hc, Hn; lia).
  - rewrite snd_bind.
    destruct (call_tool_effect st w) as [Hn Hc].
    destruct (_call_tool SETTINGS st w) as [[st1 | e] w1]; simpl in Hn.
    + specialize (Hc st1 w1 eq_refl).
      assert (Hgoal : forall nd,
        (n_calls (snd (run_from SETTINGS fuel nd st1 w1))
         <= n_calls w + Z.to_nat (max_calls - tool_calls_this_turn st))%nat).
      { intros nd. eapply Nat.le_trans; [apply IH |]. rewrite Hc.
        destruct (max_calls <=? tool_calls_this_turn st) eqn:E.
        - lia.
        - apply Z.leb_gt in E. lia. }
      destruct (_route_after_call_tool st1); apply Hgoal.
    + destruct (max_calls <=? tool_calls_this_turn st) eqn:E; [lia |].
      apply Z.leb_gt in E. lia.
  - rewrite (n_calls_llm_only _ w (llm_only_llm_respond SETTINGS st)). lia.
Qed.

(** A whole turn invokes the client at most [max_tool_calls_per_turn] times. *)
Lemma chat_budget snap message w :
  (n_calls (snd (chat SETTINGS snap message w)) <= n_calls w + Z.to_nat max_calls)%nat.
Proof.
  unfold chat, GRAPH_ainvoke.
  pose proof (run_from_budget recursion_limit LLM_DECIDE (turn_state snap message) w) as H.
  replace (tool_calls_this_turn (turn_state snap message)) with 0 in H by reflexivity.
  rewrite Z.sub_0_r in H.
  destruct (run_from SETTINGS recursion_limit LLM_DECIDE (turn_state snap message) w)
    as [[out | e] w1]; simpl in *; [exact H |].
  destruct e; exact H.
Qed.

End GraphFacts.

(** C4. A turn invokes the tool client at most [max_tool_calls_per_turn]
    times; and once the per-turn counter has reached that maximum, a proposed
    tool call is replaced by the generic message "Tool call limit reached for
    this turn.", nothing is invoked, and the turn goes to the response node. *)
Theorem C4_tool_call_budget
    (SETTINGS : AgentSettings) (snap : option GraphState) (message : string) (w : world)
    (st : GraphState) (t : ToolName) (w0 : world) (fuel : nat) :
  max_tool_calls_per_turn SETTINGS <= tool_calls_this_turn st ->
  llm_action st = Some (CallTool t) ->
  (n_calls (snd (chat SETTINGS snap message w))
   <= n_calls w + Z.to_nat (max_tool_calls_per_turn SETTINGS))%nat
  /\ _call_tool SETTINGS st w0
     = (Ok (respond_with generic "Tool call limit reached for this turn."
              (set_agent_state (Some "CALL_TOOL") st)), w0)
  /\ run_from SETTINGS (S (S fuel)) CALL_TOOL_NODE st w0
     = _llm_respond SETTINGS
         (respond_with generic "Tool call limit reached for this turn."
            (set_agent_state (Some "CALL_TOOL") st)) w0.
Proof.
  intros Hfull Hact. split; [apply chat_budget | split].
  - now apply call_tool_at_budget with (t := t).
  - cbn [run_from]. unfold bind.
    rewrite (call_tool_at_budget SETTINGS st t w0 Hfull Hact). reflexivity.
Qed.

Lemma C4_tool_call_budget_witness :
  (n_calls (snd (chat default_settings None "hello" Runs.empty_world))
   <= n_calls Runs.empty_world + Z.to_nat (max_tool_calls_per_turn default_settings))%nat
  /\ _call_tool default_settings Runs.at_budget Runs.empty_world
     = (Ok (respond_with generic "Tool call limit reached for this turn."
              (set_agent_state (Some "CALL_TOOL") Runs.at_budget)), Runs.empty_world)
  /\ run_from default_settings 2 CALL_TOOL_NODE Runs.at_budget Runs.empty_world
     = _llm_respond default_settings
         (respond_with generic "Tool call limit reached for this turn."
            (set_agent_state (Some "CALL_TOOL") Runs.at_budget)) Runs.empty_world.
Proof.
  apply (C4_tool_call_budget default_settings None "hello" Runs.empty_world
           Runs.at_budget search_candidates Runs.empty_world 0).
  - apply Z.le_refl.
  - reflexivity.
Defined.

(** *** Failures of the tool service *)

Section ToolFailures.

Variable SETTINGS : AgentSettings.

Notation retries_allowed := (tool_max_retries SETTINGS).


(** The world after [k] more HTTP attempts for [req] that left [rest] on the
    tape. *)
Definition after_posts (w : world) (k : nat) (req : tool_call) (rest : list http_outcome)
  : world :=
  mkworld (llm_tape w) rest (tool_calls w) (http_posts w ++ repeat req k)%list.

Lemma after_posts_step w req o rest k rest' :
  http_tape w = o :: rest ->
  after_posts (mkworld (llm_tape w) rest (tool_calls w) (http_posts w ++ [req])%list)
              k req rest'
  = after_posts w (S k) req rest'.
Proof.
  intros _. unfold after_posts. simpl. now rewrite <- app_assoc.
Qed.




(** An exception of a later node leaves the graph through the decision node. *)
Lemma decide_then_raise fuel st w st1 w1 e w' :
  _llm_decide SETTINGS st w = (Ok st1, w1) ->
  _route_after_llm_decide st1 = CALL_TOOL ->
  run_from SETTINGS fuel CALL_TOOL_NODE st1 w1 = (Raise e, w') ->
  run_from SETTINGS (S fuel) LLM_DECIDE st w = (Raise e, w').
Proof.
  intros Hd Hr Hrun. cbn [run_from]. unfold bind. now rewrite Hd, Hr.
Qed.


End ToolFailures.




(** *** Cache invalidation *)

Section Invalidation.

Variable SETTINGS : AgentSettings.

Lemma get_chat_model_ok w :
  truthy_ostr (openai_api_key SETTINGS) = true ->
  get_chat_model SETTINGS w = (Ok tt, w).
Proof. intros H. unfold get_chat_model. now rewrite H. Qed.

(** With a credential, the decision node is the pipeline and then, unless a
    stage ended the turn, the decision. *)
Lemma llm_decide_after_pipeline st0 w st x w1 :
  truthy_ostr (openai_api_key SETTINGS) = true ->
  resolution_pipeline (enter_decide st0) w = (Ok (st, x), w1) ->
  _llm_decide SETTINGS st0 w
  = if _end_turn st then (Ok st, w1) else decision_step (invalidate_stage st) x w1.
Proof.
  intros Hkey Hp. rewrite llm_decide_pipeline. unfold bind at 1.
  rewrite (get_chat_model_ok w Hkey). unfold bind. rewrite Hp.
  destruct (_end_turn st); reflexivity.
Qed.

(** A stored fingerprint that differs from the current one empties the
    caches. *)
Lemma invalidate_stale st k :
  tool_constraints_key st = Some (Some k) -> k <> "" -> k <> current_key st ->
  invalidate_stage st = clear_tool_state st.
Proof.
  intros Hk Hne Hdiff. unfold invalidate_stage. rewrite Hk. simpl.
  assert (Ht : truthy_str k = true) by (destruct k; [congruence | reflexivity]).
  rewrite Ht.
  destruct (String.eqb_spec k (current_key st)) as [-> | _]; [congruence |].
  simpl. rewrite andb_false_r. reflexivity.
Qed.

End Invalidation.

(** C3 (as amended). Whenever the decision node reaches its decision, no
    resolver stage having ended the turn, with a stored fingerprint that is
    present and differs from the fingerprint of the constraints the resolver
    stages left, the decision is taken on a state whose cached candidates,
    offers, ranked offers and recommended offers are empty and whose stored
    fingerprint is cleared, whatever the decision then is. The check comes
    after the resolver stages and before the decision and the merge of the
    update the decision answer carries. *)
Theorem C3_stale_cache_dropped_before_decision
    (SETTINGS : AgentSettings) (st0 : GraphState) (w : world)
    (st : GraphState) (x : option string) (w1 : world) (k : string) :
  truthy_ostr (openai_api_key SETTINGS) = true ->
  resolution_pipeline (enter_decide st0) w = (Ok (st, x), w1) ->
  _end_turn st = false ->
  tool_constraints_key st0 = Some (Some k) ->
  k <> "" ->
  k <> current_key st ->
  let st1 := invalidate_stage st in
  _llm_decide SETTINGS st0 w = decision_step st1 x w1
  /\ candidates st1 = [] /\ offers st1 = [] /\ ranked_offers st1 = []
  /\ recommended_offers st1 = [] /\ reasons st1 = []
  /\ tool_constraints_key st1 = Some None
  /\ constraints st1 = constraints st.
Proof.
  intros Hkey Hp Hend Hk Hne Hdiff st1.
  assert (Hk' : tool_constraints_key st = Some (Some k)).
  { rewrite <- Hk.
    apply (frame_resolution_pipeline tool_constraints_key) in Hp; try reflexivity.
    exact Hp. }
  split.
  - rewrite (llm_decide_after_pipeline SETTINGS st0 w st x w1 Hkey Hp).
    now rewrite Hend.
  - subst st1. rewrite (invalidate_stale st k Hk' Hne Hdiff).
    repeat split.
Qed.

Lemma C3_stale_cache_dropped_before_decision_witness :
  let st1 := invalidate_stage (fst Runs.refined) in
  _llm_decide default_settings Runs.refine_turn Runs.refine_world
  = decision_step st1 None (snd Runs.refined)
  /\ candidates st1 = [] /\ offers st1 = [] /\ ranked_offers st1 = []
  /\ recommended_offers st1 = [] /\ reasons st1 = []
  /\ tool_constraints_key st1 = Some None
  /\ constraints st1 = constraints (fst Runs.refined).
Proof.
  apply (C3_stale_cache_dropped_before_decision default_settings Runs.refine_turn
           Runs.refine_world (fst Runs.refined) None (snd Runs.refined)
           (current_key Runs.shopped)).
  - reflexivity.
  - vm_compute. reflexivity.
  - reflexivity.
  - vm_compute. reflexivity.
  - vm_compute. discriminate.
  - vm_compute. discriminate.
Defined.

(** C3, as stated, fails: the check is not made on every turn, nor on the
    constraints the turn ends with. In the session that shopped, a turn whose
    extraction blanks the city is ended by the city resolver's question, and a
    turn whose decision answer raises the minimum star rating is answered
    from the ranked offers of the session without a tool call. Both turns
    change the fingerprint of the constraints, and both store the cached
    candidates, offers and ranked offers of the earlier search under the
    fingerprint of the earlier constraints. *)
Lemma C3_stale_cache_kept :
  match chat default_settings (Some Runs.shopped) "somewhere else"
          (mkworld [ReplyExtraction (Some Runs.blank_city) None;
                    ReplyCityResolve None true (Some "Which city?")] [] [] []) with
  | (ChatOk resp snapshot, w') =>
      resp_agent_state resp = "COLLECT_CONSTRAINTS"
      /\ resp_recommended_offers resp = recommended_offers Runs.shopped
      /\ candidates snapshot = candidates Runs.shopped
      /\ offers snapshot = offers Runs.shopped
      /\ ranked_offers snapshot = ranked_offers Runs.shopped
      /\ List.length (candidates snapshot) = 3%nat
      /\ tool_constraints_key snapshot = Some (Some (current_key Runs.shopped))
      /\ String.eqb (current_key snapshot) (current_key Runs.shopped) = false
  | _ => False
  end
  /\ match chat default_settings (Some Runs.shopped) "at least 4 stars please"
             (mkworld [ReplyExtraction None None;
                       ReplyAmenitiesResolve None None false None; Runs.no_patch;
                       ReplyCallTool search_candidates (Some Runs.four_stars)]
                      [] [] []) with
     | (ChatOk resp snapshot, w') =>
         resp_agent_state resp = "WAIT_FOR_SELECTION"
         /\ tool_calls w' = [] /\ resp_tool_timeline resp = []
         /\ candidates snapshot = candidates Runs.shopped
         /\ offers snapshot = offers Runs.shopped
         /\ ranked_offers snapshot = ranked_offers Runs.shopped
         /\ List.length (ranked_offers snapshot) = 3%nat
         /\ tool_constraints_key snapshot = Some (Some (current_key Runs.shopped))
         /\ String.eqb (current_key snapshot) (current_key Runs.shopped) = false
     | _ => False
     end.
Proof. vm_compute. repeat split. Qed.

(** *** The offer cards *)

Section Cards.

Lemma cards_loop_cards cands top cards ps ts :
  cards_loop cands top = Ok (cards, ps, ts) ->
  cards = map (fun item => card_of cands (r_offer item)) top.
Proof.
  revert cards ps ts. induction top as [|item rest IH]; intros cards ps ts; simpl.
  - now intros [= <- _ _].
  - destruct (offer_timestamps (r_offer item)); [| discriminate].
    destruct (cards_loop cands rest) as [[[c p] t] | e]; [| discriminate].
    intros [= <- _ _]. f_equal. eapply IH. reflexivity.
Qed.

Lemma cards_loop_total cands top :
  Forall (fun item => exists l, offer_timestamps (r_offer item) = Ok l) top ->
  exists ps ts,
    cards_loop cands top = Ok (map (fun item => card_of cands (r_offer item)) top, ps, ts).
Proof.
  induction 1 as [| item rest [l Hl] _ [ps [ts IH]]]; simpl.
  - now exists [], [].
  - rewrite Hl, IH. eauto.
Qed.

Lemma firstn_incl {A} n (l : list A) x : In x (firstn n l) -> In x l.
Proof.
  revert l. induction n as [|n IH]; intros [|a l]; simpl; try tauto.
  intros [-> | H]; auto.
Qed.

Lemma top_offers_ranked st item : In item (top_offers st) -> In item (ranked_offers st).
Proof.
  unfold top_offers. intros H. apply firstn_incl in H.
  destruct (d_min_star (constraints st)); [| assumption].
  now apply filter_In in H.
Qed.

Lemma top_offers_length st : (List.length (top_offers st) <= 3)%nat.
Proof. unfold top_offers. apply firstn_le_length. Qed.

Lemma top_offers_min_star st ms item :
  d_min_star (constraints st) = Some ms ->
  In item (top_offers st) ->
  exists star,
    c_star_rating (card_of (candidates st) (r_offer item)) = Some star
    /\ PrimFloat.leb ms star = true.
Proof.
  unfold top_offers. intros -> H. apply firstn_incl in H.
  apply filter_In in H. destruct H as [_ H].
  unfold meets_min_star, star_of in H. unfold card_of. simpl.
  destruct (candidate_by_id (o_hotel_id (r_offer item)) (candidates st)) as [h|];
    [| discriminate].
  destruct (star_rating h) as [s|]; [| discriminate]. eauto.
Qed.

End Cards.

(** C10. In an explain response the cards shown are the cards of the first
    ranked offers that pass the star filter: there are at most three, each
    is the card of an offer of the current ranked list, and when a minimum star
    rating is set each displays a known rating of at least that minimum. The
    response stores exactly these cards as the recommended offers; it is
    produced whenever the timestamps of the offers shown can be read. *)
Theorem C10_explain_cards
    (SETTINGS : AgentSettings) (st : GraphState) (w : world)
    (k : kind) (hint : option string) :
  truthy_ostr (openai_api_key SETTINGS) = true ->
  llm_action st = Some (Respond k hint) ->
  k <> confirm ->
  truthy_ostr (selected_offer_id st) = false ->
  ranked_offers st <> [] ->
  let top := top_offers st in
  let cards := map (fun item => card_of (candidates st) (r_offer item)) top in
  (List.length cards <= 3)%nat
  /\ (forall c, In c cards ->
        exists item, In item (ranked_offers st)
                     /\ c = card_of (candidates st) (r_offer item))
  /\ (forall ms c, d_min_star (constraints st) = Some ms -> In c cards ->
        exists star, c_star_rating c = Some star /\ PrimFloat.leb ms star = true)
  /\ (forall st' w', _llm_respond SETTINGS st w = (Ok st', w') ->
        recommended_offers st' = cards
        /\ assistant_message st'
           = Some (_render_top_offers_message (constraints st) cards)
        /\ agent_state st' = Some "WAIT_FOR_SELECTION"
        /\ w' = w)
  /\ (Forall (fun item => exists l, offer_timestamps (r_offer item) = Ok l) top ->
      exists st', _llm_respond SETTINGS st w = (Ok st', w)).
Proof.
  intros Hkey Hact Hk Hsel Hranked top cards.
  assert (Hrespond :
    _llm_respond SETTINGS st w
    = match _build_offer_cards st with
      | Raise e => (Raise e, w)
      | Ok (cs, _, _) =>
          (Ok (set_agent_state (Some "WAIT_FOR_SELECTION")
                 (set_assistant_message
                    (Some (_render_top_offers_message (constraints st) cs))
                    (set_recommended_offers cs
                       (set_agent_state (Some "LLM_RESPOND") st)))), w)
      end).
  { unfold _llm_respond, bind. rewrite (get_chat_model_ok SETTINGS w Hkey).
    cbn [llm_action set_agent_state]. rewrite Hact.
    cbn [selected_offer_id set_agent_state]. rewrite Hsel.
    replace (kind_eqb k confirm) with false
      by (destruct k; try reflexivity; exfalso; now apply Hk).
    cbn [orb].
    change (ranked_offers (set_agent_state (Some "LLM_RESPOND") st))
      with (ranked_offers st).
    destruct (ranked_offers st) eqn:Er; [congruence |]. cbn [truthy_list].
    replace (_build_offer_cards (set_agent_state (Some "LLM_RESPOND") st))
      with (_build_offer_cards st) by reflexivity.
    destruct (_build_offer_cards st) as [[[cs ps] ts] | e]; reflexivity. }
  split; [| split; [| split; [| split]]].
  - subst cards. rewrite length_map. apply top_offers_length.
  - intros c Hc. subst cards. apply in_map_iff in Hc. destruct Hc as [item [<- Hin]].
    exists item. split; [now apply top_offers_ranked | reflexivity].
  - intros ms c Hms Hc. subst cards. apply in_map_iff in Hc.
    destruct Hc as [item [<- Hin]]. now apply top_offers_min_star.
  - intros st' w'. rewrite Hrespond.
    destruct (_build_offer_cards st) as [[[cs ps] ts] | e] eqn:Eb; [| discriminate].
    apply cards_loop_cards in Eb. fold top in Eb. fold cards in Eb. subst cs.
    intros [= <- <-]. repeat split.
  - intros Hts. rewrite Hrespond.
    destruct (cards_loop_total (candidates st) top Hts) as [ps [ts Hb]].
    unfold _build_offer_cards. fold top. rewrite Hb. eauto.
Qed.

Lemma C10_explain_cards_witness :
  let st := Runs.explain_state in
  let top := top_offers st in
  let cards := map (fun item => card_of (candidates st) (r_offer item)) top in
  (List.length cards <= 3)%nat
  /\ (forall c, In c cards ->
        exists item, In item (ranked_offers st)
                     /\ c = card_of (candidates st) (r_offer item))
  /\ (forall ms c, d_min_star (constraints st) = Some ms -> In c cards ->
        exists star, c_star_rating c = Some star /\ PrimFloat.leb ms star = true)
  /\ (forall st' w', _llm_respond default_settings st Runs.empty_world = (Ok st', w') ->
        recommended_offers st' = cards
        /\ assistant_message st'
           = Some (_render_top_offers_message (constraints st) cards)
        /\ agent_state st' = Some "WAIT_FOR_SELECTION"
        /\ w' = Runs.empty_world)
  /\ (Forall (fun item => exists l, offer_timestamps (r_offer item) = Ok l) top ->
      exists st', _llm_respond default_settings st Runs.empty_world
                  = (Ok st', Runs.empty_world)).
Proof.
  apply (C10_explain_cards default_settings Runs.explain_state Runs.empty_world
           explain (Some "Show top offers.")).
  - reflexivity.
  - reflexivity.
  - discriminate.
  - reflexivity.
  - vm_compute. discriminate.
Defined.

(** In that state three offers are ranked and the minimum is four stars: the
    one offer of a four-star hotel is shown; the offers of the three-star
    hotel and of the hotel without a rating are not. *)
Example explain_cards_filtered :
  map (fun c => offer_id (c_offer c))
      (map (fun item => card_of (candidates Runs.explain_state) (r_offer item))
           (top_offers Runs.explain_state))
  = [offer_id Runs.offer_one]
  /\ List.length (ranked_offers Runs.explain_state) = 3%nat.
Proof. vm_compute. split; reflexivity. Qed.

(** *** Resolver questions *)

Section Questions.

Variable SETTINGS : AgentSettings.

(** The city question is always the same sentence. *)
Lemma city_question_fixed (c : cdict) :
  clarify_message [RCity] c = "Which city should I search in?".
Proof.
  unfold clarify_message. simpl.
  destruct (keep_if truthy_str (d_city c)), (d_check_in c), (d_check_out c);
    destruct (truthy_ostr (d_city c)); reflexivity.
Qed.

Lemma date_stage_asks st w dr w1 :
  has RDates (missing_required_fields (parsed (constraints st))) = true ->
  at_turn_start st = true ->
  llm_attempts 3 accept_date "" w = (Ok (inr dr), w1) ->
  dr_needs_clarification dr = true ->
  date_stage st w = (Ok (end_turn_with (date_question dr) st), w1).
Proof.
  intros Hm Ht Hr Hq. unfold date_stage. rewrite Hm, Ht. cbn [andb].
  unfold bind. rewrite Hr, Hq. reflexivity.
Qed.

Lemma resolve_city_asks st w res w1 :
  truthy_ostr (d_city (constraints st)) = false ->
  llm_attempts 3 accept_city "" w = (Ok (inr res), w1) ->
  cr_needs_clarification res = true ->
  resolve_city st w = (Ok (end_turn_with "Which city should I search in?" st), w1).
Proof.
  intros Hc Hr Hq. unfold resolve_city. rewrite Hc. cbn [negb].
  unfold bind. rewrite Hr, Hq. now rewrite city_question_fixed.
Qed.

Lemma resolve_occupancy_asks st w res w1 :
  negb (truthy_oint (d_adults (constraints st)))
  || negb (truthy_oint (d_rooms (constraints st))) = true ->
  llm_attempts 3 accept_occupancy "" w = (Ok (inr res), w1) ->
  or_needs_clarification res = true ->
  resolve_occupancy st w
  = (Ok (end_turn_with
           (clarify_message (occupancy_missing (constraints st)) (constraints st)) st), w1).
Proof.
  intros Hc Hr Hq. unfold resolve_occupancy. rewrite Hc.
  unfold bind. rewrite Hr, Hq. reflexivity.
Qed.

(** A stage that ended the turn is the last stage of the pipeline. *)
Lemma pipeline_ends_at_date s0 w s1 x w1 s2 w2 :
  extract_stage s0 w = (Ok (s1, x), w1) ->
  date_stage s1 w1 = (Ok s2, w2) ->
  _end_turn s2 = true ->
  resolution_pipeline s0 w = (Ok (s2, x), w2).
Proof.
  intros He Hd Hend. unfold resolution_pipeline, bind. now rewrite He, Hd, Hend.
Qed.

Lemma pipeline_ends_at_city s0 w s1 x w1 s2 w2 s3 w3 :
  extract_stage s0 w = (Ok (s1, x), w1) ->
  date_stage s1 w1 = (Ok s2, w2) ->
  _end_turn s2 = false -> at_turn_start s2 = true ->
  resolve_city s2 w2 = (Ok s3, w3) ->
  _end_turn s3 = true ->
  resolution_pipeline s0 w = (Ok (s3, x), w3).
Proof.
  intros He Hd Hn Ht Hc Hend.
  unfold resolution_pipeline, bind. rewrite He, Hd, Hn, Ht.
  unfold _resolve_non_date_fields, bind. rewrite Hc, Hend. unfold ret.
  now rewrite ?Hend.
Qed.

Lemma pipeline_ends_at_occupancy s0 w s1 x w1 s2 w2 s3 w3 s4 w4 :
  extract_stage s0 w = (Ok (s1, x), w1) ->
  date_stage s1 w1 = (Ok s2, w2) ->
  _end_turn s2 = false -> at_turn_start s2 = true ->
  resolve_city s2 w2 = (Ok s3, w3) ->
  _end_turn s3 = false ->
  resolve_occupancy s3 w3 = (Ok s4, w4) ->
  _end_turn s4 = true ->
  resolution_pipeline s0 w = (Ok (s4, x), w4).
Proof.
  intros He Hd Hn Ht Hc Hn3 Ho Hend.
  unfold resolution_pipeline, bind. rewrite He, Hd, Hn, Ht.
  unfold _resolve_non_date_fields, bind. rewrite Hc, Hn3, Ho, Hend. unfold ret.
  now rewrite ?Hend.
Qed.

(** A pipeline that ended the turn ends the graph: no decision, no tool. *)
Lemma ended_pipeline_ends_turn st0 w st x w1 fuel :
  truthy_ostr (openai_api_key SETTINGS) = true ->
  resolution_pipeline (enter_decide st0) w = (Ok (st, x), w1) ->
  _end_turn st = true ->
  run_from SETTINGS (S fuel) LLM_DECIDE st0 w = (Ok st, w1)
  /\ same_tools w w1.
Proof.
  intros Hkey Hp Hend. split.
  - cbn [run_from]. unfold bind at 1.
    rewrite (llm_decide_after_pipeline SETTINGS st0 w st x w1 Hkey Hp), Hend.
    unfold _route_after_llm_decide. now rewrite Hend.
  - pose proof (llm_only_resolution_pipeline (enter_decide st0) w) as H.
    now rewrite Hp in H.
Qed.

(** The three optional resolvers never raise, never end the turn and never
    write a message. *)
Definition turn_flags (st : GraphState) : bool * option string * option string :=
  (_end_turn st, assistant_message st, agent_state st).

Lemma attempts_return {A} n (accept : llm_reply -> string + A) e w :
  exists r w1, llm_attempts n accept e w = (Ok r, w1).
Proof.
  revert e w. induction n as [|n IH]; intros e w; simpl; [unfold ret; eauto |].
  unfold bind. destruct (llm_invoke w) as [[r | ex] w0] eqn:E.
  - destruct (accept r); [apply IH | unfold ret; eauto].
  - unfold llm_invoke in E. destruct (llm_tape w); discriminate.
Qed.

Lemma resolve_amenities_optional st w :
  exists st' w1,
    resolve_amenities st w = (Ok st', w1) /\ turn_flags st' = turn_flags st.
Proof.
  pose proof (frame_resolve_amenities turn_flags (fun _ _ => eq_refl) st w) as Hf.
  unfold resolve_amenities in *.
  match goal with |- context [if ?b then _ else _] => destruct b end;
    [| unfold ret; eauto].
  unfold bind in *.
  destruct (attempts_return 3 accept_amenities "" w) as [r [w1 Hr]]. rewrite Hr in *.
  destruct r as [err | res]; [unfold ret; eauto |].
  destruct (ar_needs_clarification res); unfold ret in *; eauto.
Qed.

Lemma resolve_budget_optional st w :
  exists st' w1,
    _resolve_budget st w = (Ok st', w1) /\ turn_flags st' = turn_flags st.
Proof.
  pose proof (frame_resolve_budget turn_flags (fun _ _ => eq_refl) st w) as Hf.
  unfold _resolve_budget in *.
  destruct (truthy_ofloat (d_max_price (constraints st))); [unfold ret; eauto |].
  unfold bind in *.
  destruct (attempts_return 3 accept_budget "" w) as [r [w1 Hr]]. rewrite Hr in *.
  destruct r as [err | res]; [unfold ret; eauto |].
  destruct (truthy_ofloat res); unfold ret in *; eauto.
Qed.

Lemma resolve_patch_optional st w :
  exists st' w1,
    _resolve_hard_filters_patch st w = (Ok st', w1) /\ turn_flags st' = turn_flags st.
Proof.
  pose proof (frame_resolve_patch turn_flags (fun _ _ => eq_refl) st w) as Hf.
  unfold _resolve_hard_filters_patch in *.
  destruct (negb (at_turn_start st)); [unfold ret; eauto |].
  unfold bind in *.
  destruct (attempts_return 3 accept_patch "" w) as [r [w1 Hr]]. rewrite Hr in *.
  destruct r as [err | [set clear]]; [unfold ret; eauto |].
  destruct set; unfold ret in *; eauto.
Qed.

(** Without an answer to use, they leave the constraints as they are. *)
Lemma resolve_amenities_unresolved st w r w1 :
  llm_attempts 3 accept_amenities "" w = (Ok r, w1) ->
  (forall res, r = inr res -> ar_needs_clarification res = true) ->
  exists w2, resolve_amenities st w = (Ok st, w2).
Proof.
  intros Hr Hq. unfold resolve_amenities.
  match goal with |- context [if ?b then _ else _] => destruct b end;
    [| unfold ret; eauto].
  unfold bind. rewrite Hr. destruct r as [err | res]; [unfold ret; eauto |].
  rewrite (Hq res eq_refl). unfold ret; eauto.
Qed.

Lemma resolve_budget_unresolved st w r w1 :
  llm_attempts 3 accept_budget "" w = (Ok r, w1) ->
  (forall res, r = inr res -> truthy_ofloat res = false) ->
  exists w2, _resolve_budget st w = (Ok st, w2).
Proof.
  intros Hr Hq. unfold _resolve_budget.
  destruct (truthy_ofloat (d_max_price (constraints st))); [unfold ret; eauto |].
  unfold bind. rewrite Hr. destruct r as [err | res]; [unfold ret; eauto |].
  rewrite (Hq res eq_refl). unfold ret; eauto.
Qed.

Lemma resolve_patch_unresolved st w err w1 :
  llm_attempts 3 accept_patch "" w = (Ok (inl err), w1) ->
  exists w2, _resolve_hard_filters_patch st w = (Ok st, w2).
Proof.
  intros Hr. unfold _resolve_hard_filters_patch.
  destruct (negb (at_turn_start st)); [unfold ret; eauto |].
  unfold bind. rewrite Hr. unfold ret; eauto.
Qed.

End Questions.

(** C8 (as amended). When the DATE resolver asks for clarification the turn
    ends with its question, stripped of surrounding white space (a fixed
    question when it gave none); when the CITY or the OCCUPANCY resolver asks,
    the turn ends with the fixed clarification sentence for the missing
    fields, not with the resolver's wording. In the three cases the stage that
    asked is the last stage of the pipeline, and the graph ends there: no
    later stage, no decision, no tool call. The AMENITIES, BUDGET and
    HARD-FILTER-PATCH resolvers always return without ending the turn or
    writing a message, and leave the constraints unchanged when they have no
    answer to use. *)
Theorem C8_resolver_questions (SETTINGS : AgentSettings) :
  (* DATE *)
  (forall st w dr w1,
     has RDates (missing_required_fields (parsed (constraints st))) = true ->
     at_turn_start st = true ->
     llm_attempts 3 accept_date "" w = (Ok (inr dr), w1) ->
     dr_needs_clarification dr = true ->
     date_stage st w = (Ok (end_turn_with (date_question dr) st), w1))
  (* CITY *)
  /\ (forall st w res w1,
        truthy_ostr (d_city (constraints st)) = false ->
        llm_attempts 3 accept_city "" w = (Ok (inr res), w1) ->
        cr_needs_clarification res = true ->
        resolve_city st w
        = (Ok (end_turn_with "Which city should I search in?" st), w1))
  (* OCCUPANCY *)
  /\ (forall st w res w1,
        negb (truthy_oint (d_adults (constraints st)))
        || negb (truthy_oint (d_rooms (constraints st))) = true ->
        llm_attempts 3 accept_occupancy "" w = (Ok (inr res), w1) ->
        or_needs_clarification res = true ->
        resolve_occupancy st w
        = (Ok (end_turn_with
                 (clarify_message (occupancy_missing (constraints st)) (constraints st))
                 st), w1))
  (* the stage that asked is the last one *)
  /\ (forall s0 w s1 x w1 s2 w2,
        extract_stage s0 w = (Ok (s1, x), w1) ->
        date_stage s1 w1 = (Ok s2, w2) ->
        _end_turn s2 = true ->
        resolution_pipeline s0 w = (Ok (s2, x), w2))
  /\ (forall s0 w s1 x w1 s2 w2 s3 w3,
        extract_stage s0 w = (Ok (s1, x), w1) ->
        date_stage s1 w1 = (Ok s2, w2) ->
        _end_turn s2 = false -> at_turn_start s2 = true ->
        resolve_city s2 w2 = (Ok s3, w3) ->
        _end_turn s3 = true ->
        resolution_pipeline s0 w = (Ok (s3, x), w3))
  /\ (forall s0 w s1 x w1 s2 w2 s3 w3 s4 w4,
        extract_stage s0 w = (Ok (s1, x), w1) ->
        date_stage s1 w1 = (Ok s2, w2) ->
        _end_turn s2 = false -> at_turn_start s2 = true ->
        resolve_city s2 w2 = (Ok s3, w3) ->
        _end_turn s3 = false ->
        resolve_occupancy s3 w3 = (Ok s4, w4) ->
        _end_turn s4 = true ->
        resolution_pipeline s0 w = (Ok (s4, x), w4))
  (* and the turn ends there *)
  /\ (forall st0 w st x w1 fuel,
        truthy_ostr (openai_api_key SETTINGS) = true ->
        resolution_pipeline (enter_decide st0) w = (Ok (st, x), w1) ->
        _end_turn st = true ->
        run_from SETTINGS (S fuel) LLM_DECIDE st0 w = (Ok st, w1)
        /\ same_tools w w1)
  /\ (forall q st,
        _end_turn (end_turn_with q st) = true
        /\ assistant_message (end_turn_with q st) = Some q
        /\ agent_state (end_turn_with q st) = Some "COLLECT_CONSTRAINTS")
  (* the optional resolvers *)
  /\ (forall st w,
        (exists st' w1, resolve_amenities st w = (Ok st', w1)
                        /\ turn_flags st' = turn_flags st)
        /\ (exists st' w1, _resolve_budget st w = (Ok st', w1)
                           /\ turn_flags st' = turn_flags st)
        /\ (exists st' w1, _resolve_hard_filters_patch st w = (Ok st', w1)
                           /\ turn_flags st' = turn_flags st))
  /\ (forall st w r w1,
        llm_attempts 3 accept_amenities "" w = (Ok r, w1) ->
        (forall res, r = inr res -> ar_needs_clarification res = true) ->
        exists w2, resolve_amenities st w = (Ok st, w2))
  /\ (forall st w r w1,
        llm_attempts 3 accept_budget "" w = (Ok r, w1) ->
        (forall res, r = inr res -> truthy_ofloat res = false) ->
        exists w2, _resolve_budget st w = (Ok st, w2))
  /\ (forall st w err w1,
        llm_attempts 3 accept_patch "" w = (Ok (inl err), w1) ->
        exists w2, _resolve_hard_filters_patch st w = (Ok st, w2)).
Proof.
  split; [exact date_stage_asks |].
  split; [exact resolve_city_asks |].
  split; [exact resolve_occupancy_asks |].
  split; [exact pipeline_ends_at_date |].
  split; [exact pipeline_ends_at_city |].
  split; [exact pipeline_ends_at_occupancy |].
  split; [exact (ended_pipeline_ends_turn SETTINGS) |].
  split; [intros q st; repeat split |].
  split.
  { intros st w. split; [apply resolve_amenities_optional |].
    split; [apply resolve_budget_optional | apply resolve_patch_optional]. }
  split; [exact resolve_amenities_unresolved |].
  split; [exact resolve_budget_unresolved | exact resolve_patch_unresolved].
Qed.

(** The city part at work: the resolver asks, the turn ends with the fixed
    sentence. *)
Lemma C8_resolver_questions_witness :
  resolve_city (merge_into (Some Runs.no_city) (enter_decide (turn_state None "a hotel")))
    (mkworld [ReplyCityResolve None true (Some Runs.city_question)] [] [] [])
  = (Ok (end_turn_with "Which city should I search in?"
           (merge_into (Some Runs.no_city) (enter_decide (turn_state None "a hotel")))),
     Runs.empty_world).
Proof.
  apply (proj1 (proj2 (C8_resolver_questions default_settings))
           (merge_into (Some Runs.no_city) (enter_decide (turn_state None "a hotel")))
           (mkworld [ReplyCityResolve None true (Some Runs.city_question)] [] [] [])
           (mkcity_resolve None true (Some Runs.city_question)) Runs.empty_world).
  - reflexivity.
  - reflexivity.
  - reflexivity.
Defined.

(** C8, as stated, fails: the question of the CITY resolver is not surfaced;
    the turn ends with the fixed sentence instead. *)
Lemma C8_city_question_not_verbatim :
  match fst (chat default_settings None "a hotel" Runs.city_question_world) with
  | ChatOk resp _ =>
      resp_assistant_message resp = "Which city should I search in?"
      /\ resp_agent_state resp = "COLLECT_CONSTRAINTS"
      /\ resp_tool_timeline resp = []
  | _ => False
  end
  /\ String.eqb Runs.city_question "Which city should I search in?" = false.
Proof. vm_compute. repeat split. Qed.

(** *** Selecting an offer *)

Section Selection.

Variable SETTINGS : AgentSettings.

Lemma invalidate_frame {X} (f : GraphState -> X) st :
  (forall s, f (clear_tool_state s) = f s) -> f (invalidate_stage st) = f st.
Proof.
  intros Hf. unfold invalidate_stage.
  repeat match goal with |- context [if ?b then _ else _] => destruct b end;
    rewrite ?Hf; reflexivity.
Qed.

Lemma generate_returns n k st ps ts w :
  exists msg w1, generate n k st ps ts w = (Ok msg, w1).
Proof.
  revert w. induction n as [|n IH]; intros w; simpl; [unfold ret; eauto |].
  unfold bind. destruct (llm_invoke w) as [[r | ex] w0] eqn:E.
  - destruct (accept_generated k st ps ts r); [unfold ret; eauto | apply IH].
  - unfold llm_invoke in E. destruct (llm_tape w); discriminate.
Qed.

Definition has_offer_context (st : GraphState) : bool :=
  truthy_list (recommended_offers st) || truthy_list (ranked_offers st)
  || truthy_list (offers st).

Definition confirm_hint : string :=
  "Confirm the selected offer using only tool-provided fields already present in session context.".

Definition reshop_hint : string :=
  "I don't have that offer loaded in this session. Do you want me to search again (same city/dates), or provide the city + dates + adults + rooms?".

(** The decision for a selected offer: no call of the model, no tool. *)
Lemma decision_step_selection st x w :
  truthy_str x = true ->
  decision_step st (Some x) w
  = (Ok (if has_offer_context st
         then set_llm_action (Some (Respond confirm (Some confirm_hint)))
                (set_selected_offer_id (Some x) st)
         else set_llm_action (Some (Respond clarify (Some reshop_hint))) st), w).
Proof.
  intros Hx. unfold decision_step, has_offer_context. cbn [truthy_ostr]. rewrite Hx.
  destruct (truthy_list (recommended_offers st) || truthy_list (ranked_offers st)
            || truthy_list (offers st)); reflexivity.
Qed.

(** The response to a selection is rendered from the session. *)
Lemma respond_selection st x w :
  truthy_ostr (openai_api_key SETTINGS) = true ->
  llm_action st = Some (Respond confirm (Some confirm_hint)) ->
  selected_offer_id st = Some x ->
  _llm_respond SETTINGS st w
  = (Ok (match find_selected_offer (Some x) (recommended_offers st) (offers st)
                                   (candidates st) with
         | Some card =>
             set_agent_state (Some "CONFIRM")
               (set_assistant_message
                  (Some (_render_selected_offer_message (constraints st) card))
                  (set_agent_state (Some "LLM_RESPOND") st))
         | None =>
             set_agent_state (Some "WAIT_FOR_SELECTION")
               (set_assistant_message (Some not_found_message)
                  (set_agent_state (Some "LLM_RESPOND") st))
         end), w).
Proof.
  intros Hkey Hact Hsel. unfold _llm_respond, bind.
  rewrite (get_chat_model_ok SETTINGS w Hkey).
  cbn [llm_action set_agent_state]. rewrite Hact.
  cbn [selected_offer_id set_agent_state kind_eqb orb]. rewrite Hsel.
  change (recommended_offers (set_agent_state (Some "LLM_RESPOND") st))
    with (recommended_offers st).
  change (offers (set_agent_state (Some "LLM_RESPOND") st)) with (offers st).
  change (candidates (set_agent_state (Some "LLM_RESPOND") st)) with (candidates st).
  destruct (find_selected_offer (Some x) (recommended_offers st) (offers st)
                                (candidates st)); reflexivity.
Qed.

(** The response to a clarify action without ranked offers is generated. *)
Lemma respond_clarify st hint w :
  truthy_ostr (openai_api_key SETTINGS) = true ->
  llm_action st = Some (Respond clarify hint) ->
  selected_offer_id st = None ->
  ranked_offers st = [] ->
  exists msg w1,
    generate 3 clarify (set_agent_state (Some "LLM_RESPOND") st) [] [] w = (Ok msg, w1)
    /\ _llm_respond SETTINGS st w
       = (Ok (set_agent_state (Some "COLLECT_CONSTRAINTS")
                (set_assistant_message (Some msg)
                   (set_agent_state (Some "LLM_RESPOND") st))), w1).
Proof.
  intros Hkey Hact Hsel Hr.
  destruct (generate_returns 3 clarify (set_agent_state (Some "LLM_RESPOND") st) [] [] w)
    as [msg [w1 Hg]].
  exists msg, w1. split; [exact Hg |].
  unfold _llm_respond, bind. rewrite (get_chat_model_ok SETTINGS w Hkey).
  cbn [llm_action set_agent_state]. rewrite Hact.
  cbn [selected_offer_id set_agent_state kind_eqb orb]. rewrite Hsel.
  cbn [truthy_ostr].
  change (ranked_offers (set_agent_state (Some "LLM_RESPOND") st)) with (ranked_offers st).
  rewrite Hr. cbn [truthy_list]. rewrite Hg.
  cbn [kind_eqb andb]. cbn [selected_offer_id set_agent_state set_assistant_message].
  rewrite Hsel. reflexivity.
Qed.

End Selection.

(** C9 (as amended). When extraction yields an offer identifier and no
    resolver stage ended the turn: if the session holds offer context, the
    turn answers from session data alone, with the confirmation rendered from
    the offer of that identifier found among the recommended offers or the
    offers (state CONFIRM), or, when no such offer is found, with a fixed
    sentence asking for one of the listed identifiers (state
    WAIT_FOR_SELECTION); if the session holds no offer context, the pending
    action is the fixed hint to search again or give the constraints, from
    which the response is generated (state COLLECT_CONSTRAINTS). In every case
    the model is not asked for a decision and no tool is invoked. *)
Theorem C9_selection_without_tool_call
    (SETTINGS : AgentSettings) (st0 : GraphState) (w : world)
    (st : GraphState) (x : string) (w1 : world) (fuel : nat) :
  truthy_ostr (openai_api_key SETTINGS) = true ->
  selected_offer_id st0 = None ->
  resolution_pipeline (enter_decide st0) w = (Ok (st, Some x), w1) ->
  truthy_str x = true ->
  _end_turn st = false ->
  let st1 := invalidate_stage st in
  let run := run_from SETTINGS (S (S fuel)) LLM_DECIDE st0 w in
  same_tools w (snd run)
  /\ (has_offer_context st1 = true ->
      exists st',
        run = (Ok st', w1)
        /\ match find_selected_offer (Some x) (recommended_offers st1) (offers st1)
                                     (candidates st1) with
           | Some card =>
               assistant_message st'
               = Some (_render_selected_offer_message (constraints st1) card)
               /\ agent_state st' = Some "CONFIRM"
           | None =>
               assistant_message st' = Some not_found_message
               /\ agent_state st' = Some "WAIT_FOR_SELECTION"
           end
        /\ offers st' = offers st1 /\ candidates st' = candidates st1
        /\ ranked_offers st' = ranked_offers st1
        /\ recommended_offers st' = recommended_offers st1
        /\ tool_timeline st' = tool_timeline st0)
  /\ (has_offer_context st1 = false ->
      exists st' w2,
        run = (Ok st', w2)
        /\ llm_action st' = Some (Respond clarify (Some reshop_hint))
        /\ agent_state st' = Some "COLLECT_CONSTRAINTS"
        /\ tool_timeline st' = tool_timeline st0).
Proof.
  intros Hkey Hsel0 Hp Hx Hend st1 run.
  assert (Hdecide :
    _llm_decide SETTINGS st0 w
    = (Ok (if has_offer_context st1
           then set_llm_action (Some (Respond confirm (Some confirm_hint)))
                  (set_selected_offer_id (Some x) st1)
           else set_llm_action (Some (Respond clarify (Some reshop_hint))) st1), w1)).
  { rewrite (llm_decide_after_pipeline SETTINGS st0 w st (Some x) w1 Hkey Hp), Hend.
    now apply decision_step_selection. }
  assert (Hend1 : _end_turn st1 = false).
  { subst st1. rewrite (invalidate_frame _end_turn); auto. }
  assert (Hsel1 : selected_offer_id st1 = None).
  { subst st1. rewrite (invalidate_frame selected_offer_id); auto.
    rewrite <- Hsel0.
    apply (frame_resolution_pipeline selected_offer_id) in Hp; try reflexivity.
    exact Hp. }
  assert (Htl : tool_timeline st1 = tool_timeline st0).
  { subst st1. rewrite (invalidate_frame tool_timeline); auto.
    apply (frame_resolution_pipeline tool_timeline) in Hp; try reflexivity.
    exact Hp. }
  assert (Hrun :
    run = _llm_respond SETTINGS
            (if has_offer_context st1
             then set_llm_action (Some (Respond confirm (Some confirm_hint)))
                    (set_selected_offer_id (Some x) st1)
             else set_llm_action (Some (Respond clarify (Some reshop_hint))) st1) w1).
  { subst run. cbn [run_from]. unfold bind at 1. rewrite Hdecide.
    unfold _route_after_llm_decide.
    destruct (has_offer_context st1);
      cbn [_end_turn set_llm_action set_selected_offer_id llm_action];
      rewrite Hend1; reflexivity. }
  split; [| split].
  - rewrite Hrun.
    eapply same_tools_trans;
      [| apply (llm_only_llm_respond SETTINGS)].
    pose proof (llm_only_resolution_pipeline (enter_decide st0) w) as H.
    now rewrite Hp in H.
  - intros Hctx. rewrite Hrun, Hctx.
    rewrite (respond_selection SETTINGS
               (set_llm_action (Some (Respond confirm (Some confirm_hint)))
                  (set_selected_offer_id (Some x) st1)) x w1 Hkey eq_refl eq_refl).
    eexists. split; [reflexivity |].
    cbn [recommended_offers offers candidates constraints set_llm_action
         set_selected_offer_id].
    destruct (find_selected_offer (Some x) (recommended_offers st1) (offers st1)
                                  (candidates st1));
      repeat split; exact Htl.
  - intros Hctx. rewrite Hrun, Hctx.
    assert (Hr : ranked_offers st1 = []).
    { unfold has_offer_context in Hctx.
      destruct (ranked_offers st1); [reflexivity |].
      destruct (recommended_offers st1); discriminate. }
    destruct (respond_clarify SETTINGS
                (set_llm_action (Some (Respond clarify (Some reshop_hint))) st1)
                (Some reshop_hint) w1 Hkey eq_refl Hsel1 Hr) as [msg [w2 [_ Hresp]]].
    rewrite Hresp. eexists; exists w2. repeat split. exact Htl.
Qed.

Lemma C9_selection_without_tool_call_witness :
  let st1 := invalidate_stage (fst Runs.selected) in
  let x := offer_id Runs.offer_one in
  let run := run_from default_settings 2 LLM_DECIDE Runs.select_turn Runs.select_world in
  same_tools Runs.select_world (snd run)
  /\ (has_offer_context st1 = true ->
      exists st',
        run = (Ok st', snd Runs.selected)
        /\ match find_selected_offer (Some x) (recommended_offers st1) (offers st1)
                                     (candidates st1) with
           | Some card =>
               assistant_message st'
               = Some (_render_selected_offer_message (constraints st1) card)
               /\ agent_state st' = Some "CONFIRM"
           | None =>
               assistant_message st' = Some not_found_message
               /\ agent_state st' = Some "WAIT_FOR_SELECTION"
           end
        /\ offers st' = offers st1 /\ candidates st' = candidates st1
        /\ ranked_offers st' = ranked_offers st1
        /\ recommended_offers st' = recommended_offers st1
        /\ tool_timeline st' = tool_timeline Runs.select_turn)
  /\ (has_offer_context st1 = false ->
      exists st' w2,
        run = (Ok st', w2)
        /\ llm_action st' = Some (Respond clarify (Some reshop_hint))
        /\ agent_state st' = Some "COLLECT_CONSTRAINTS"
        /\ tool_timeline st' = tool_timeline Runs.select_turn).
Proof.
  apply (C9_selection_without_tool_call default_settings Runs.select_turn
           Runs.select_world (fst Runs.selected) (offer_id Runs.offer_one)
           (snd Runs.selected) 0).
  - reflexivity.
  - reflexivity.
  - vm_compute. reflexivity.
  - reflexivity.
  - reflexivity.
Defined.

(** That turn confirms the first offer of the session. *)
Example selection_confirms :
  match fst (chat default_settings (Some Runs.shopped)
               "I choose 0a000000-0000-4000-8000-000000000001" Runs.select_world) with
  | ChatOk resp _ =>
      resp_agent_state resp = "CONFIRM" /\ resp_tool_timeline resp = []
      /\ Str.contains "offer_id: 0a000000-0000-4000-8000-000000000001"
                      (resp_assistant_message resp) = true
  | _ => False
  end.
Proof. vm_compute. repeat split. Qed.

(** C9, as stated, fails: the session holds offers, the identifier extracted
    names none of them, and the turn does not confirm: it answers with the
    fixed sentence that the offer was not found and waits for a selection. *)
Lemma C9_unknown_offer_is_not_confirmed :
  has_offer_context Runs.shopped = true
  /\ match fst (chat default_settings (Some Runs.shopped)
                  "I choose 0a000000-0000-4000-8000-00000000ffff"
                  Runs.unknown_selection_world) with
     | ChatOk resp _ =>
         resp_agent_state resp = "WAIT_FOR_SELECTION"
         /\ resp_assistant_message resp = not_found_message
         /\ resp_tool_timeline resp = []
     | _ => False
     end.
Proof. vm_compute. repeat split. Qed.

(** *** A tool proposed while the constraints are incomplete *)

Section Incomplete.

Variable SETTINGS : AgentSettings.

(** The decision keeps a proposal when the constraints are incomplete. *)
Lemma decision_step_call_tool st x w t upd w2 :
  truthy_ostr x = false ->
  llm_attempts 2 accept_action "None" w = (Ok (inr (AgentActionCallTool t upd)), w2) ->
  complete (merge_into upd st) = false ->
  decision_step st x w = (Ok (set_llm_action (Some (CallTool t)) (merge_into upd st)), w2).
Proof.
  intros Hx Hr Hc. unfold decision_step. rewrite Hx. unfold bind. rewrite Hr.
  cbv zeta. rewrite Hc. reflexivity.
Qed.

(** The state the tool node works on once the budget allowed the call. *)
Definition in_tool_node (st : GraphState) : GraphState :=
  set_tool_calls_this_turn (tool_calls_this_turn st + 1)
    (set_agent_state (Some "CALL_TOOL") st).

Lemma call_tool_enter st t w :
  llm_action st = Some (CallTool t) ->
  tool_calls_this_turn st < max_tool_calls_per_turn SETTINGS ->
  _call_tool SETTINGS st w
  = match t with
    | search_candidates =>
        _call_search_candidates SETTINGS (in_tool_node st)
          (Constraints_of (parsed (constraints st))) (parsed (constraints st)) w
    | get_offers =>
        _call_get_offers SETTINGS (in_tool_node st)
          (Constraints_of (parsed (constraints st))) (parsed (constraints st)) w
    | rank_offers => _call_rank_offers SETTINGS (in_tool_node st) w
    end.
Proof.
  intros Ha Hlt. unfold _call_tool. cbn [llm_action set_agent_state]. rewrite Ha.
  cbn [tool_calls_this_turn set_agent_state].
  destruct (Z.leb_spec (max_tool_calls_per_turn SETTINGS) (tool_calls_this_turn st));
    [lia |].
  destruct t; reflexivity.
Qed.

Lemma call_tool_search_incomplete st w :
  llm_action st = Some (CallTool search_candidates) ->
  tool_calls_this_turn st < max_tool_calls_per_turn SETTINGS ->
  complete st = false ->
  _call_tool SETTINGS st w
  = (Ok (clarify_missing (parsed (constraints st)) (in_tool_node st)), w).
Proof.
  intros Ha Hlt Hc. rewrite (call_tool_enter st _ w Ha Hlt).
  unfold _call_search_candidates. unfold complete in Hc. rewrite Hc. reflexivity.
Qed.

Lemma call_tool_offers_blocked st w :
  llm_action st = Some (CallTool get_offers) ->
  tool_calls_this_turn st < max_tool_calls_per_turn SETTINGS ->
  candidates st = []
  \/ k_check_in (Constraints_of (parsed (constraints st))) = None
  \/ k_check_out (Constraints_of (parsed (constraints st))) = None ->
  _call_tool SETTINGS st w
  = (Ok (clarify_missing (parsed (constraints st)) (in_tool_node st)), w).
Proof.
  intros Ha Hlt Hb. rewrite (call_tool_enter st _ w Ha Hlt).
  unfold _call_get_offers.
  change (candidates (in_tool_node st)) with (candidates st).
  destruct Hb as [Hb | [Hb | Hb]].
  - rewrite Hb. unfold slice_to. rewrite !firstn_nil.
    destruct (_ <? 0); reflexivity.
  - rewrite Hb.
    destruct (map hotel_id _); reflexivity.
  - rewrite Hb.
    destruct (map hotel_id _); [reflexivity |].
    destruct (k_check_in _); reflexivity.
Qed.

Lemma call_tool_rank_no_offers st w :
  llm_action st = Some (CallTool rank_offers) ->
  tool_calls_this_turn st < max_tool_calls_per_turn SETTINGS ->
  offers st = [] ->
  _call_tool SETTINGS st w
  = (Ok (respond_with generic "No offers available to rank." (in_tool_node st)), w).
Proof.
  intros Ha Hlt Ho. rewrite (call_tool_enter st _ w Ha Hlt).
  unfold _call_rank_offers.
  change (offers (in_tool_node st)) with (offers st). rewrite Ho. reflexivity.
Qed.

(** Outside the explain kind the generation loop does not look at the state. *)
Lemma generate_state_irrelevant n k st st' ps ts w :
  kind_eqb k explain = false ->
  generate n k st ps ts w = generate n k st' ps ts w.
Proof.
  intros Hk. revert w. induction n as [|n IH]; intros w; [reflexivity |].
  simpl. unfold bind. destruct (llm_invoke w) as [[r | ex] w0]; [| reflexivity].
  unfold accept_generated. rewrite Hk. cbn [andb].
  destruct (accept_text r); [apply IH |].
  destruct (negb _); [apply IH | reflexivity].
Qed.

(** The response to a clarify or generic action without ranked offers and
    without a selection is generated. *)
Lemma respond_generated st k hint w :
  truthy_ostr (openai_api_key SETTINGS) = true ->
  llm_action st = Some (Respond k hint) ->
  k = clarify \/ k = generic ->
  selected_offer_id st = None ->
  ranked_offers st = [] ->
  exists msg w1,
    generate 3 k st [] [] w = (Ok msg, w1)
    /\ _llm_respond SETTINGS st w
       = (Ok (set_agent_state
                (Some (match k with clarify => "COLLECT_CONSTRAINTS" | _ => "RESPOND" end))
                (set_assistant_message (Some msg)
                   (set_agent_state (Some "LLM_RESPOND") st))), w1).
Proof.
  intros Hkey Hact Hk Hsel Hr.
  destruct (generate_returns 3 k st [] [] w) as [msg [w1 Hg]].
  exists msg, w1. split; [exact Hg |].
  assert (Hke : kind_eqb k explain = false) by (destruct Hk; subst; reflexivity).
  rewrite (generate_state_irrelevant 3 k st
             (set_agent_state (Some "LLM_RESPOND") st) [] [] w Hke) in Hg.
  unfold _llm_respond, bind. rewrite (get_chat_model_ok SETTINGS w Hkey).
  cbn [llm_action set_agent_state]. rewrite Hact.
  cbn [selected_offer_id set_agent_state]. rewrite Hsel.
  change (ranked_offers (set_agent_state (Some "LLM_RESPOND") st)) with (ranked_offers st).
  rewrite Hr.
  destruct Hk; subst k; cbn [kind_eqb orb truthy_ostr truthy_list]; rewrite Hg;
    cbn [kind_eqb andb]; cbn [selected_offer_id set_agent_state set_assistant_message];
    rewrite Hsel; reflexivity.
Qed.

End Incomplete.

(** C7 (as amended). In a turn whose resolver stages ask nothing and extract
    no offer identifier, whose decision call proposes a tool while the merged
    constraints are incomplete, with no ranked offers and no selection in
    the session: a proposed search is always replaced, a proposed pricing is
    replaced when there is no candidate or a date is missing, by the pending
    answer clarify carrying [clarify_message] of the missing required fields
    (one fixed sentence, which need not name every missing field); a proposed
    ranking without offers is replaced by the generic answer that there is
    nothing to rank. No tool is invoked, the turn ends in the response node,
    and the text sent is the one generated there from that pending answer. *)
Theorem C7_incomplete_proposal_answered_without_tool
    (SETTINGS : AgentSettings) (st0 : GraphState) (w : world)
    (st : GraphState) (x : option string) (w1 : world)
    (t : ToolName) (upd : option LLMConstraints) (w2 : world) (fuel : nat) :
  truthy_ostr (openai_api_key SETTINGS) = true ->
  selected_offer_id st0 = None ->
  tool_calls_this_turn st0 < max_tool_calls_per_turn SETTINGS ->
  resolution_pipeline (enter_decide st0) w = (Ok (st, x), w1) ->
  truthy_ostr x = false ->
  _end_turn st = false ->
  llm_attempts 2 accept_action "None" w1 = (Ok (inr (AgentActionCallTool t upd)), w2) ->
  let st2 := merge_into upd (invalidate_stage st) in
  let p := parsed (constraints st2) in
  complete st2 = false ->
  ranked_offers st2 = [] ->
  match t with
  | search_candidates => True
  | get_offers =>
      candidates st2 = [] \/ k_check_in (Constraints_of p) = None
      \/ k_check_out (Constraints_of p) = None
  | rank_offers => offers st2 = []
  end ->
  let k := match t with rank_offers => generic | _ => clarify end in
  let hint :=
    match t with
    | rank_offers => "No offers available to rank."
    | _ => clarify_message (missing_required_fields p) p
    end in
  exists st' w3 msg,
    run_from SETTINGS (S (S (S fuel))) LLM_DECIDE st0 w = (Ok st', w3)
    /\ same_tools w w3
    /\ llm_action st' = Some (Respond k (Some hint))
    /\ generate 3 k st2 [] [] w2 = (Ok msg, w3)
    /\ assistant_message st' = Some msg
    /\ agent_state st'
       = Some (match t with rank_offers => "RESPOND" | _ => "COLLECT_CONSTRAINTS" end)
    /\ constraints st' = constraints st2
    /\ tool_timeline st' = tool_timeline st0.
Proof.
  intros Hkey Hsel0 Hlt Hp Hx Hend Hr st2 p Hc Hranked Hblocked k hint.
  set (st3 := set_llm_action (Some (CallTool t)) st2).
  assert (Hdecide : _llm_decide SETTINGS st0 w = (Ok st3, w2)).
  { rewrite (llm_decide_after_pipeline SETTINGS st0 w st x w1 Hkey Hp), Hend.
    now apply decision_step_call_tool. }
  assert (Hend3 : _end_turn st3 = false).
  { subst st3 st2. cbn [_end_turn set_llm_action merge_into set_constraints].
    rewrite (invalidate_frame _end_turn); auto. }
  assert (Hsel3 : selected_offer_id st3 = None).
  { subst st3 st2. cbn [selected_offer_id set_llm_action merge_into set_constraints].
    rewrite (invalidate_frame selected_offer_id); auto. rewrite <- Hsel0.
    apply (frame_resolution_pipeline selected_offer_id) in Hp; try reflexivity.
    exact Hp. }
  assert (Hcnt : tool_calls_this_turn st3 = tool_calls_this_turn st0).
  { subst st3 st2. cbn [tool_calls_this_turn set_llm_action merge_into set_constraints].
    rewrite (invalidate_frame tool_calls_this_turn); auto.
    apply (frame_resolution_pipeline tool_calls_this_turn) in Hp; try reflexivity.
    exact Hp. }
  assert (Htl : tool_timeline st3 = tool_timeline st0).
  { subst st3 st2. cbn [tool_timeline set_llm_action merge_into set_constraints].
    rewrite (invalidate_frame tool_timeline); auto.
    apply (frame_resolution_pipeline tool_timeline) in Hp; try reflexivity.
    exact Hp. }
  assert (Hlt3 : tool_calls_this_turn st3 < max_tool_calls_per_turn SETTINGS)
    by (rewrite Hcnt; exact Hlt).
  set (st4 := respond_with k hint (in_tool_node st3)).
  assert (Htool : _call_tool SETTINGS st3 w2 = (Ok st4, w2)).
  { subst st4 k hint. destruct t.
    - apply call_tool_search_incomplete; auto.
    - apply call_tool_offers_blocked; auto.
    - apply call_tool_rank_no_offers; auto. }
  assert (Hk : k = clarify \/ k = generic) by (subst k; destruct t; auto).
  destruct (respond_generated SETTINGS st4 k (Some hint) w2 Hkey eq_refl Hk Hsel3 Hranked)
    as [msg [w3 [Hg Hresp]]].
  assert (Hrun : run_from SETTINGS (S (S (S fuel))) LLM_DECIDE st0 w
                 = _llm_respond SETTINGS st4 w2).
  { cbn [run_from]. unfold bind at 1. rewrite Hdecide.
    unfold _route_after_llm_decide. rewrite Hend3.
    change (llm_action st3) with (Some (CallTool t)). cbv iota beta.
    unfold bind at 1. rewrite Htool. reflexivity. }
  eexists; exists w3, msg. split; [rewrite Hrun; exact Hresp |].
  split.
  { pose proof (llm_only_llm_decide SETTINGS st0 w) as H1.
    rewrite Hdecide in H1.
    pose proof (llm_only_llm_respond SETTINGS st4 w2) as H2.
    rewrite Hresp in H2. eapply same_tools_trans; [exact H1 | exact H2]. }
  split; [reflexivity |].
  split.
  { rewrite <- Hg. apply generate_state_irrelevant. destruct Hk as [-> | ->]; reflexivity. }
  split; [reflexivity |].
  split; [subst k; destruct t; reflexivity |].
  split; [reflexivity | exact Htl].
Qed.

Lemma C7_incomplete_proposal_answered_without_tool_witness :
  exists st' w3 msg,
    run_from default_settings 3 LLM_DECIDE Runs.city_only_turn Runs.city_only_world
    = (Ok st', w3)
    /\ same_tools Runs.city_only_world w3
    /\ llm_action st'
       = Some (Respond clarify
                 (Some (clarify_message
                          (missing_required_fields
                             (parsed (constraints
                                (merge_into None
                                   (invalidate_stage (fst Runs.city_only_resolved))))))
                          (parsed (constraints
                             (merge_into None
                                (invalidate_stage (fst Runs.city_only_resolved))))))))
    /\ generate 3 clarify
         (merge_into None (invalidate_stage (fst Runs.city_only_resolved))) [] []
         (mkworld [ReplyText "When would you like to stay, and for how many guests?"]
                  [] [] [])
       = (Ok msg, w3)
    /\ assistant_message st' = Some msg
    /\ agent_state st' = Some "COLLECT_CONSTRAINTS"
    /\ constraints st'
       = constraints (merge_into None (invalidate_stage (fst Runs.city_only_resolved)))
    /\ tool_timeline st' = tool_timeline Runs.city_only_turn.
Proof.
  apply (C7_incomplete_proposal_answered_without_tool default_settings
           Runs.city_only_turn Runs.city_only_world (fst Runs.city_only_resolved) None
           (snd Runs.city_only_resolved) search_candidates None
           (mkworld [ReplyText "When would you like to stay, and for how many guests?"]
                    [] [] []) 0).
  - reflexivity.
  - reflexivity.
  - reflexivity.
  - vm_compute. reflexivity.
  - reflexivity.
  - reflexivity.
  - reflexivity.
  - reflexivity.
  - reflexivity.
  - exact I.
Defined.

(** C7, as stated, fails: the city is known, the dates, the adults and the
    rooms are missing, and a search is proposed. The pending answer is the
    fixed sentence asking for the dates, which names neither the adults nor
    the rooms, and the text sent to the user is the sentence the model wrote
    from it. *)
Lemma C7_question_does_not_enumerate_missing :
  match GRAPH_ainvoke default_settings Runs.city_only_turn Runs.city_only_world with
  | (Ok st', w') =>
      complete st' = false
      /\ missing_required_fields (parsed (constraints st')) = [RDates; RAdults; RRooms]
      /\ llm_action st'
         = Some (Respond clarify
                   (Some "What dates should I use for Austin? (YYYY-MM-DD to YYYY-MM-DD)"))
      /\ assistant_message st'
         = Some "When would you like to stay, and for how many guests?"
      /\ tool_calls w' = [] /\ http_posts w' = []
  | _ => False
  end.
Proof. vm_compute. repeat split. Qed.

(** A pricing proposed together with an update that blanks the city is not
    replaced: the constraints are incomplete, the hotels of the session are
    still cached, and the pricing endpoint is called. *)
Example pricing_invoked_while_incomplete :
  match chat default_settings (Some Runs.shopped) "somewhere else" Runs.blank_city_world with
  | (ChatOk resp snapshot, w') =>
      is_complete (Constraints_of (parsed (constraints snapshot))) = false
      /\ map tc_tool (tool_calls w') = [get_offers]
      /\ List.length (http_posts w') = 1%nat
  | _ => False
  end.
Proof. vm_compute. repeat split. Qed.

(** *** The three tools of a shopping turn *)

Section Shopping.

Variable SETTINGS : AgentSettings.





(** The fields a decision leaves alone. *)
Definition kept (s s' : GraphState) : Prop :=
  constraints s' = constraints s /\ candidates s' = candidates s
  /\ offers s' = offers s /\ ranked_offers s' = ranked_offers s
  /\ tool_constraints_key s' = tool_constraints_key s
  /\ tool_calls_this_turn s' = tool_calls_this_turn s.


Lemma kept_current_key s s' : kept s s' -> current_key s' = current_key s.
Proof. intros [H _]. unfold current_key. now rewrite H. Qed.




(** A cache whose fingerprint is the current one is kept. *)
Lemma invalidate_fresh st :
  tool_constraints_key st = Some (Some (current_key st)) -> invalidate_stage st = st.
Proof.
  intros Hk. unfold invalidate_stage. rewrite Hk. cbn [is_some negb].
  rewrite andb_false_r. cbn [opt_eqb]. rewrite String.eqb_refl. cbn [negb].
  rewrite andb_false_r. reflexivity.
Qed.



(** *** The tool node when the tool answers *)







End Shopping.

Section ShoppingRun.

Variable SETTINGS : AgentSettings.




End ShoppingRun.




(** When the pricing finds no offer the decision asks for the pricing again,
    with the same constraints, until the budget of the turn is used up. *)
Example pricing_repeated_without_offers :
  match chat default_settings None "Find me a hotel in Austin" Runs.unpriced_world with
  | (ChatOk resp snapshot, w') =>
      map tc_tool (tool_calls w') = search_candidates :: repeat get_offers 7
      /\ map tc_payload (skipn 1 (tool_calls w'))
         = repeat (nth 1 (map tc_payload (tool_calls w')) Runs.austin_search) 7
  | _ => False
  end.
Proof. vm_compute. repeat split. Qed.

(* ================================================================= *)
(** * Further properties of the helpers *)

(** ** Required fields and completeness *)

(** X1. [Constraints.is_complete] and [missing_required_fields] agree: the
    constraints built from a dictionary are complete exactly when the
    dictionary misses no required field. *)
Theorem complete_iff_nothing_missing (p : cdict) :
  is_complete (Constraints_of p) = true <-> missing_required_fields p = [].
Proof.
  unfold is_complete, missing_required_fields, Constraints_of.
  cbn [k_city k_check_in k_check_out k_adults k_rooms].
  destruct (truthy_ostr (d_city p)), (d_check_in p), (d_check_out p),
    (truthy_oint (d_adults p)), (truthy_oint (d_rooms p));
    cbn; split; intros H; first [reflexivity | discriminate].
Qed.

(** X2. Whatever is missing, the clarification asks for something: the closing
    sentence of [clarify_message] is only reached with an empty list. *)
Theorem clarify_message_asks_for_a_field (c : cdict) :
  missing_required_fields c <> [] ->
  clarify_message (missing_required_fields c) c
  <> "What details should I use to continue?".
Proof.
  unfold missing_required_fields, clarify_message.
  destruct (d_city c) as [[|a ct]|]; cbn [truthy_ostr truthy_str negb keep_if];
    destruct (d_check_in c) as [ci|], (d_check_out c) as [co|],
      (truthy_oint (d_adults c)), (truthy_oint (d_rooms c));
    cbn; intros H; try congruence; try discriminate.
Qed.

Lemma clarify_message_asks_for_a_field_witness :
  clarify_message
    (missing_required_fields
       (mkcdict (Some "Austin") None None None None None None None None None None))
    (mkcdict (Some "Austin") None None None None None None None None None None)
  <> "What details should I use to continue?".
Proof.
  apply (clarify_message_asks_for_a_field
           (mkcdict (Some "Austin") None None None None None None None None None None)).
  discriminate.
Defined.

(** ** Merging constraint updates *)

(** X3. Merging the same update twice is merging it once. *)
Theorem merge_constraints_dict_idempotent (base : cdict) (u : option LLMConstraints) :
  merge_constraints_dict (merge_constraints_dict base u) u = merge_constraints_dict base u.
Proof.
  destruct u as [u|]; [| reflexivity].
  unfold merge_constraints_dict.
  cbn [d_city d_check_in d_check_out d_adults d_children d_rooms d_max_price d_min_star
       d_amenities d_currency d_refundable_preferred].
  destruct u as [ct ci co ad ch ro mp ms am cu rp]; cbn.
  destruct ct, ci, co, ad, ch, ro, mp, ms, am, cu, rp; reflexivity.
Qed.

Lemma has_missing (r : required) (c : cdict) :
  has r (missing_required_fields c)
  = match r with
    | RCity => negb (truthy_ostr (d_city c))
    | RDates => negb (is_some (d_check_in c)) || negb (is_some (d_check_out c))
    | RAdults => negb (truthy_oint (d_adults c))
    | RRooms => negb (truthy_oint (d_rooms c))
    end.
Proof.
  unfold missing_required_fields.
  destruct (negb (truthy_ostr (d_city c))),
    (negb (is_some (d_check_in c)) || negb (is_some (d_check_out c))),
    (negb (truthy_oint (d_adults c))), (negb (truthy_oint (d_rooms c))), r; reflexivity.
Qed.

(** X4. A validated update never makes the dates, the adults or the rooms
    missing: a required field other than the city that is missing after the
    merge was missing before it. *)
Theorem merge_keeps_required_fields
    (base : cdict) (u : option LLMConstraints) (r : required) :
  valid_update u = true ->
  r <> RCity ->
  has r (missing_required_fields (merge_constraints_dict base u)) = true ->
  has r (missing_required_fields base) = true.
Proof.
  intros Hv Hr. destruct u as [u|]; [| exact (fun H => H)].
  unfold valid_update, valid_constraints in Hv.
  apply andb_prop in Hv. destruct Hv as [Hv _].
  apply andb_prop in Hv. destruct Hv as [Hv _].
  apply andb_prop in Hv. destruct Hv as [Hv Hro].
  apply andb_prop in Hv. destruct Hv as [Had _].
  rewrite !has_missing. unfold merge_constraints_dict.
  cbn [d_city d_check_in d_check_out d_adults d_children d_rooms].
  destruct r; [congruence | | |].
  - destruct (check_in u), (check_out u), (d_check_in base), (d_check_out base);
      cbn; auto.
  - destruct (adults u) as [n|]; cbn [or_else]; [| auto].
    unfold in_range in Had. cbn [truthy_oint]. rewrite negb_involutive.
    intros E. apply Z.eqb_eq in E. subst n. discriminate.
  - destruct (rooms u) as [n|]; cbn [or_else]; [| auto].
    unfold in_range in Hro. cbn [truthy_oint]. rewrite negb_involutive.
    intros E. apply Z.eqb_eq in E. subst n. discriminate.
Qed.

Lemma merge_keeps_required_fields_witness :
  has RDates
    (missing_required_fields
       (mkcdict (Some "Austin") None None (Some 2) None (Some 1) None None None None None))
  = true.
Proof.
  apply (merge_keeps_required_fields
           (mkcdict (Some "Austin") None None (Some 2) None (Some 1) None None None None None)
           (Some Runs.four_stars) RDates).
  - reflexivity.
  - discriminate.
  - reflexivity.
Defined.

(** The city is the exception: an update may blank it. *)
Example merge_can_blank_the_city :
  missing_required_fields (parsed (constraints Runs.shopped)) = []
  /\ missing_required_fields
       (merge_constraints_dict (parsed (constraints Runs.shopped)) (Some Runs.blank_city))
     = [RCity]
  /\ valid_update (Some Runs.blank_city) = true.
Proof. vm_compute. repeat split. Qed.

(** ** The tool-constraint subset *)

Lemma filter_idempotent {A} (f : A -> bool) (l : list A) :
  filter f (filter f l) = filter f l.
Proof.
  induction l as [|a l IH]; [reflexivity |].
  cbn [filter]. destruct (f a) eqn:E; [cbn [filter]; rewrite E, IH |]; auto.
Qed.

(** X5. [tool_constraint_subset] keeps exactly the entries under the eleven tool
    keys, in their order, and taking the subset again changes nothing; the
    fingerprint of a dictionary is the fingerprint of its subset. *)
Theorem tool_constraint_subset_projection (d : dict) :
  tool_constraint_subset (tool_constraint_subset d) = tool_constraint_subset d
  /\ _tool_constraints_key (tool_constraint_subset d) = _tool_constraints_key d
  /\ (forall k v, In (k, v) (tool_constraint_subset d)
                  <-> In (k, v) d /\ In k tool_constraint_keys).
Proof.
  split; [apply filter_idempotent |].
  split.
  - unfold _tool_constraints_key. unfold tool_constraint_subset at 2.
    fold (tool_constraint_subset d).
    replace (tool_constraint_subset (tool_constraint_subset d))
      with (tool_constraint_subset d) by (symmetry; apply filter_idempotent).
    reflexivity.
  - intros k v. unfold tool_constraint_subset. rewrite filter_In. cbn [fst].
    now rewrite mem_In.
Qed.

(** ** Looking up the selected offer *)

Lemma find_by_some {A} (f : A -> bool) (l : list A) (a : A) :
  find_by f l = Some a -> In a l /\ f a = true.
Proof. unfold find_by. apply find_some. Qed.

Lemma find_by_none {A} (f : A -> bool) (l : list A) :
  find_by f l = None <-> forall a, In a l -> f a = false.
Proof.
  unfold find_by. split.
  - intros H a Ha. exact (find_none f l H a Ha).
  - induction l as [|x l IH]; intros H; [reflexivity |].
    cbn [find]. rewrite (H x (or_introl eq_refl)). apply IH.
    intros a Ha. apply H. now right.
Qed.

(** X6. The card [find_selected_offer] returns carries the identifier asked for,
    and is either one of the recommended cards or built on one of the session's
    offers. *)
Theorem find_selected_offer_sound
    (sel : option string) (recommended : list card) (offers : list offer)
    (candidates : list candidate) (found : card) :
  find_selected_offer sel recommended offers candidates = Some found ->
  sel = Some (offer_id (c_offer found))
  /\ offer_id (c_offer found) <> ""
  /\ (In found recommended \/ In (c_offer found) offers).
Proof.
  unfold find_selected_offer.
  destruct sel as [s|]; cbn [keep_if]; [| discriminate].
  destruct (truthy_str s) eqn:Hs; [| discriminate].
  assert (Hne : s <> "") by (intros ->; discriminate).
  destruct (find_by (fun c => String.eqb (offer_id (c_offer c)) s) recommended)
    as [c|] eqn:Hrec.
  - intros [= <-]. apply find_by_some in Hrec. destruct Hrec as [Hin Heq].
    apply String.eqb_eq in Heq. rewrite Heq. auto.
  - destruct (find_by (fun o => String.eqb (offer_id o) s) offers) as [o|] eqn:Hoff;
      [| discriminate].
    intros [= <-]. apply find_by_some in Hoff. destruct Hoff as [Hin Heq].
    apply String.eqb_eq in Heq. cbn [c_offer]. rewrite Heq. auto.
Qed.

Lemma find_selected_offer_sound_witness :
  Some (offer_id Runs.offer_one)
  = Some (offer_id
            (c_offer (mkcard Runs.offer_one "Hotel One" (Some "Austin") None
                        (Some 30.27%float) (Some (-97.74)%float) (Some 4%float))))
  /\ offer_id
       (c_offer (mkcard Runs.offer_one "Hotel One" (Some "Austin") None
                   (Some 30.27%float) (Some (-97.74)%float) (Some 4%float))) <> ""
  /\ (In (mkcard Runs.offer_one "Hotel One" (Some "Austin") None
            (Some 30.27%float) (Some (-97.74)%float) (Some 4%float)) []
      \/ In (c_offer (mkcard Runs.offer_one "Hotel One" (Some "Austin") None
                        (Some 30.27%float) (Some (-97.74)%float) (Some 4%float)))
            [Runs.offer_two; Runs.offer_one]).
Proof.
  apply (find_selected_offer_sound (Some (offer_id Runs.offer_one)) []
           [Runs.offer_two; Runs.offer_one] [Runs.hotel_one; Runs.hotel_two]).
  reflexivity.
Defined.

(** X7. Nothing is found exactly when no identifier is given (absent or empty)
    or when neither a recommended card nor an offer of the session carries it;
    the candidates play no part in that. *)
Theorem find_selected_offer_none_iff
    (sel : option string) (recommended : list card) (offers : list offer)
    (candidates : list candidate) :
  find_selected_offer sel recommended offers candidates = None
  <-> sel = None \/ sel = Some ""
      \/ exists s, sel = Some s
           /\ (forall c, In c recommended -> offer_id (c_offer c) <> s)
           /\ (forall o, In o offers -> offer_id o <> s).
Proof.
  unfold find_selected_offer.
  destruct sel as [s|]; cbn [keep_if]; [| split; auto].
  destruct (truthy_str s) eqn:Hs.
  - assert (Hne : s <> "") by (intros ->; discriminate).
    destruct (find_by (fun c => String.eqb (offer_id (c_offer c)) s) recommended)
      as [c|] eqn:Hrec.
    + split; [discriminate |].
      intros [H | [H | (s' & [= <-] & Hr & _)]]; try congruence.
      apply find_by_some in Hrec. destruct Hrec as [Hin Heq].
      apply String.eqb_eq in Heq. now apply Hr in Hin.
    + destruct (find_by (fun o => String.eqb (offer_id o) s) offers) as [o|] eqn:Hoff.
      * split; [discriminate |].
        intros [H | [H | (s' & [= <-] & _ & Ho)]]; try congruence.
        apply find_by_some in Hoff. destruct Hoff as [Hin Heq].
        apply String.eqb_eq in Heq. now apply Ho in Hin.
      * split; [| reflexivity]. intros _. right. right. exists s.
        split; [reflexivity |].
        split.
        -- intros c Hc E.
           pose proof (proj1 (find_by_none _ _) Hrec c Hc) as F.
           apply String.eqb_neq in F. contradiction.
        -- intros o Ho E.
           pose proof (proj1 (find_by_none _ _) Hoff o Ho) as F.
           apply String.eqb_neq in F. contradiction.
  - destruct s; [| discriminate]. split; auto.
Qed.

Lemma find_by_first {A} (f : A -> bool) (l : list A) (a : A) :
  find_by f l = Some a ->
  exists before after,
    l = (before ++ a :: after)%list /\ f a = true
    /\ forall b, In b before -> f b = false.
Proof.
  unfold find_by. induction l as [|x l IH]; cbn [find]; [discriminate |].
  destruct (f x) eqn:E.
  - intros [= <-]. exists [], l. repeat split; [exact E | intros b []].
  - intros H. destruct (IH H) as (before & after & -> & Ha & Hb).
    exists (x :: before), after. repeat split; [exact Ha |].
    intros b [<- | Hin]; auto.
Qed.

(** X8. A recommended card with the identifier wins over the offers: the
    card returned is the first recommended card that carries the identifier,
    no card before it in the list does, whatever the offers and the
    candidates are. *)
Theorem find_selected_offer_prefers_recommended
    (s : string) (recommended : list card) (offers : list offer)
    (candidates : list candidate) (c : card) :
  s <> "" ->
  In c recommended -> offer_id (c_offer c) = s ->
  exists before first after,
    recommended = (before ++ first :: after)%list
    /\ (forall b, In b before -> offer_id (c_offer b) <> s)
    /\ offer_id (c_offer first) = s
    /\ find_selected_offer (Some s) recommended offers candidates = Some first.
Proof.
  intros Hne Hin Hid. unfold find_selected_offer. cbn [keep_if].
  destruct s as [|a s]; [congruence |]. cbn [truthy_str].
  destruct (find_by (fun c0 => String.eqb (offer_id (c_offer c0)) (String a s)) recommended)
    as [f|] eqn:Hrec.
  - destruct (find_by_first _ _ _ Hrec) as (before & after & Hl & Hf & Hb).
    exists before, f, after. split; [exact Hl |].
    split.
    { intros b Hbin. apply String.eqb_neq. now apply Hb. }
    split; [now apply String.eqb_eq | reflexivity].
  - pose proof (proj1 (find_by_none _ _) Hrec c Hin) as F. cbv beta in F.
    rewrite Hid, String.eqb_refl in F. discriminate.
Qed.

Lemma find_selected_offer_prefers_recommended_witness :
  exists before first after,
    recommended_offers Runs.shopped = (before ++ first :: after)%list
    /\ (forall b, In b before -> offer_id (c_offer b) <> offer_id Runs.offer_one)
    /\ offer_id (c_offer first) = offer_id Runs.offer_one
    /\ find_selected_offer (Some (offer_id Runs.offer_one))
         (recommended_offers Runs.shopped) [Runs.offer_one] [] = Some first.
Proof.
  apply (find_selected_offer_prefers_recommended (offer_id Runs.offer_one)
           (recommended_offers Runs.shopped) [Runs.offer_one] []
           (nth 2 (recommended_offers Runs.shopped)
                (mkcard Runs.offer_one "" None None None None None))).
  - discriminate.
  - vm_compute. auto.
  - reflexivity.
Defined.

(** ** The JSON object in a model answer *)

Section ModelOutputFacts.

Lemma string_list_roundtrip (s : string) :
  string_of_list_ascii (list_ascii_of_string s) = s.
Proof. apply string_of_list_ascii_of_string. Qed.

Lemma list_string_roundtrip (l : list ascii) :
  list_ascii_of_string (string_of_list_ascii l) = l.
Proof. apply list_ascii_of_string_of_list_ascii. Qed.

Lemma string_of_list_app (a b : list ascii) :
  string_of_list_ascii (a ++ b) = string_of_list_ascii a ++ string_of_list_ascii b.
Proof. induction a as [|c a IH]; simpl; [reflexivity | now rewrite IH]. Qed.

Lemma list_of_string_app (a b : string) :
  list_ascii_of_string (a ++ b)
  = (list_ascii_of_string a ++ list_ascii_of_string b)%list.
Proof. induction a as [|c a IH]; simpl; [reflexivity | now rewrite IH]. Qed.

Lemma substring_split (s : string) :
  forall m, (m <= String.length s)%nat ->
  s = substring 0 m s ++ substring m (String.length s - m) s.
Proof.
  induction s as [|c s IH]; intros m Hm.
  - destruct m; reflexivity.
  - destruct m as [|m]; simpl.
    + now rewrite substring_all.
    + f_equal. apply IH. simpl in Hm. lia.
Qed.

(** [s.endswith(suffix)] holds exactly when [s] is some text followed by
    [suffix]. *)
Lemma endswith_iff (s suffix : string) :
  endswith s suffix = true <-> exists a, s = a ++ suffix.
Proof.
  split.
  - unfold endswith. intros H. apply andb_prop in H. destruct H as [Hle Heq].
    apply Nat.leb_le in Hle. apply String.eqb_eq in Heq.
    exists (substring 0 (String.length s - String.length suffix) s).
    pose proof (substring_split s (String.length s - String.length suffix)
                  ltac:(lia)) as Hs.
    replace (String.length s - (String.length s - String.length suffix))%nat
      with (String.length suffix) in Hs by lia.
    rewrite Heq in Hs. exact Hs.
  - intros [a ->]. apply endswith_append.
Qed.

Lemma prefix_brace (s : string) :
  String.prefix "{" s = true <-> exists r, s = String "{" r.
Proof.
  destruct s as [|c s]; cbn [String.prefix].
  - split; [discriminate | intros [r H]; discriminate].
  - destruct (Ascii.ascii_dec "{" c) as [<- | Hne].
    + split; eauto. intros _. destruct s; reflexivity.
    + split; [discriminate | intros [r [= E _]]; congruence].
Qed.

Lemma lstrip_nonspace (c : ascii) (l : list ascii) :
  is_space c = false -> lstrip_list (c :: l) = c :: l.
Proof. intros H. simpl. now rewrite H. Qed.

(** [strip] leaves a text alone that begins and ends with a brace. *)
Lemma strip_braced (mid : list ascii) (last : ascii) :
  is_space last = false ->
  strip (string_of_list_ascii ("{"%char :: mid ++ [last]))
  = string_of_list_ascii ("{"%char :: mid ++ [last]).
Proof.
  intros Hl. unfold strip. rewrite list_string_roundtrip.
  rewrite lstrip_nonspace by reflexivity.
  change ("{"%char :: mid ++ [last])%list with (("{"%char :: mid) ++ [last])%list.
  generalize ("{"%char :: mid). intros l.
  rewrite rev_unit, lstrip_nonspace by exact Hl.
  cbn [rev]. now rewrite rev_involutive.
Qed.

Lemma from_first_brace_some (l rest : list ascii) :
  from_first_brace l = Some rest ->
  exists pre r, l = (pre ++ rest)%list /\ rest = "{"%char :: r
                /\ ~ In "{"%char pre.
Proof.
  induction l as [|c l IH]; [discriminate |].
  cbn [from_first_brace]. destruct (Ascii.eqb_spec c "{") as [-> | Hne].
  - intros [= <-]. exists [], l. repeat split. intros [].
  - intros H. destruct (IH H) as (pre & r & -> & -> & Hpre).
    exists (c :: pre), r. repeat split. intros [E | E]; [congruence | auto].
Qed.

Lemma from_first_brace_none (l : list ascii) :
  from_first_brace l = None <-> ~ In "{"%char l.
Proof.
  induction l as [|c l IH]; cbn [from_first_brace].
  - split; [intros _ [] | reflexivity].
  - destruct (Ascii.eqb_spec c "{") as [-> | Hne].
    + split; [discriminate | intros H; exfalso; apply H; now left].
    + rewrite IH. split.
      * intros H [E | E]; [congruence | auto].
      * intros H E. apply H. now right.
Qed.

Lemma scan_object_prefix (l : list ascii) :
  forall depth obj, scan_object l depth = Some obj ->
  exists init rest, obj = (init ++ ["}"%char])%list /\ l = (obj ++ rest)%list.
Proof.
  induction l as [|c l IH]; intros depth obj; [discriminate |].
  cbn [scan_object].
  assert (Hrec : forall d, option_map (cons c) (scan_object l d) = Some obj ->
            exists init rest, obj = (init ++ ["}"%char])%list
                              /\ (c :: l = obj ++ rest)%list).
  { intros d H. destruct (scan_object l d) as [o|] eqn:E; [| discriminate].
    injection H as <-. destruct (IH d o E) as (init & rest & -> & ->).
    exists (c :: init), rest. split; reflexivity. }
  destruct (Ascii.eqb_spec c "{") as [-> | Hne]; [apply Hrec |].
  destruct (Ascii.eqb_spec c "}") as [-> | Hne2]; [| apply Hrec].
  destruct (depth - 1 =? 0); [| apply Hrec].
  intros [= <-]. exists [], l. split; reflexivity.
Qed.

Lemma brace_depth_app (a b : string) :
  brace_depth (a ++ b) = brace_depth a + brace_depth b.
Proof. induction a as [|c a IH]; simpl; [reflexivity | rewrite IH; lia]. Qed.

(** The block the scan returns closes the depth it started from, and not
    before its end. *)
Lemma scan_object_balanced (l : list ascii) :
  forall depth obj, 1 <= depth -> scan_object l depth = Some obj ->
  depth + brace_depth (string_of_list_ascii obj) = 0
  /\ forall p q, obj = (p ++ q)%list -> q <> [] ->
       1 <= depth + brace_depth (string_of_list_ascii p).
Proof.
  induction l as [|c l IH]; intros depth obj Hd; [discriminate |].
  cbn [scan_object].
  assert (Hrec : forall d, 1 <= d ->
            d = depth + (if Ascii.eqb c "{" then 1
                         else if Ascii.eqb c "}" then -1 else 0) ->
            option_map (cons c) (scan_object l d) = Some obj ->
            depth + brace_depth (string_of_list_ascii obj) = 0
            /\ forall p q, obj = (p ++ q)%list -> q <> [] ->
                 1 <= depth + brace_depth (string_of_list_ascii p)).
  { intros d Hd1 Hdd H. destruct (scan_object l d) as [o|] eqn:E; [| discriminate].
    injection H as <-. destruct (IH d o Hd1 E) as [Hz Hp].
    split; [cbn [string_of_list_ascii brace_depth]; lia |].
    intros p q Hpq Hq. destruct p as [|x p]; [cbn; lia |].
    injection Hpq as <- Ho. cbn [string_of_list_ascii brace_depth].
    specialize (Hp p q Ho Hq). lia. }
  destruct (Ascii.eqb_spec c "{") as [-> | Hne].
  { apply Hrec; [lia | reflexivity]. }
  destruct (Ascii.eqb_spec c "}") as [-> | Hne2].
  - destruct (Z.eqb_spec (depth - 1) 0) as [E | E].
    + intros [= <-]. split; [cbn; lia |].
      intros p q Hpq Hq. destruct p as [|x p]; [cbn; lia |].
      injection Hpq as _ Ho. destruct p; [destruct q; [congruence | discriminate]
                                          | discriminate].
    + apply Hrec; [lia | reflexivity].
  - apply Hrec; [lia |]. lia.
Qed.

End ModelOutputFacts.

(** X9. What [extract_first_json_object] returns is a piece of the stripped
    text that begins with an opening and ends with a closing brace, with no
    opening brace before it. Either it is the whole stripped text, or it is
    the shortest block from the first opening brace in which the braces
    balance: the depth is 0 at its end and at least 1 at every earlier
    point. *)
Theorem extract_first_json_object_block (text r : string) :
  extract_first_json_object text = Ok r ->
  exists pre post,
    strip text = pre ++ r ++ post
    /\ ~ In "{"%char (list_ascii_of_string pre)
    /\ String.prefix "{" r = true /\ endswith r "}" = true
    /\ ((pre = "" /\ post = "")
        \/ (brace_depth r = 0
            /\ forall p q, r = p ++ q -> p <> "" -> q <> "" -> 1 <= brace_depth p)).
Proof.
  unfold extract_first_json_object.
  destruct (String.prefix "{" (strip text) && endswith (strip text) "}") eqn:Hw.
  - intros [= <-]. apply andb_prop in Hw. destruct Hw as [Hp He].
    exists "", "". split.
    { cbn [append]. clear. induction (strip text); simpl; congruence. }
    split; [intros [] |]. auto.
  - destruct (from_first_brace (list_ascii_of_string (strip text))) as [rest|] eqn:Hf;
      [| discriminate].
    destruct (scan_object rest 0) as [obj|] eqn:Hs; [| discriminate].
    intros [= <-].
    destruct (from_first_brace_some _ _ Hf) as (pre & r0 & Hl & -> & Hpre).
    cbn [scan_object] in Hs. change (Ascii.eqb "{" "{") with true in Hs. cbv iota in Hs.
    destruct (scan_object r0 (0 + 1)) as [o|] eqn:Ho; [| discriminate].
    injection Hs as <-.
    destruct (scan_object_prefix _ _ _ Ho) as (init & rest & Hobj & Hr0).
    destruct (scan_object_balanced r0 (0 + 1) o ltac:(lia) Ho) as [Hz Hpfx].
    exists (string_of_list_ascii pre), (string_of_list_ascii rest).
    split.
    { rewrite <- !string_of_list_app, <- (string_list_roundtrip (strip text)), Hl, Hr0.
      reflexivity. }
    split; [now rewrite list_string_roundtrip |].
    split; [apply prefix_brace; cbn [string_of_list_ascii]; eauto |].
    split.
    { apply endswith_iff. exists (string_of_list_ascii ("{"%char :: init)).
      rewrite Hobj. change ("{"%char :: init ++ ["}"%char])%list
        with (("{"%char :: init) ++ ["}"%char])%list.
      now rewrite string_of_list_app. }
    right. split.
    { cbn [string_of_list_ascii brace_depth].
      change (Ascii.eqb "{" "{") with true. cbv iota. lia. }
    intros p q Hpq Hp Hq.
    destruct p as [|x p]; [congruence |].
    cbn [string_of_list_ascii append] in Hpq. injection Hpq as <- Hpq.
    assert (Ho' : o = (list_ascii_of_string p ++ list_ascii_of_string q)%list).
    { rewrite <- list_of_string_app, <- Hpq. now rewrite list_string_roundtrip. }
    assert (Hq' : list_ascii_of_string q <> []) by (destruct q; [congruence | discriminate]).
    specialize (Hpfx _ _ Ho' Hq'). rewrite string_list_roundtrip in Hpfx.
    cbn [brace_depth]. change (Ascii.eqb "{" "{") with true. cbv iota. lia.
Qed.

Lemma extract_first_json_object_block_witness :
  exists pre post,
    strip "Sure: {a: {b: 1}} done" = pre ++ "{a: {b: 1}}" ++ post
    /\ ~ In "{"%char (list_ascii_of_string pre)
    /\ String.prefix "{" "{a: {b: 1}}" = true
    /\ endswith "{a: {b: 1}}" "}" = true
    /\ ((pre = "" /\ post = "")
        \/ (brace_depth "{a: {b: 1}}" = 0
            /\ forall p q, "{a: {b: 1}}" = p ++ q -> p <> "" -> q <> "" ->
                 1 <= brace_depth p)).
Proof.
  apply (extract_first_json_object_block "Sure: {a: {b: 1}} done").
  reflexivity.
Defined.

Lemma extract_ok_braced (text r : string) :
  extract_first_json_object text = Ok r ->
  exists mid, r = string_of_list_ascii ("{"%char :: mid ++ ["}"%char]).
Proof.
  unfold extract_first_json_object.
  destruct (String.prefix "{" (strip text) && endswith (strip text) "}") eqn:Hw.
  - intros [= <-]. apply andb_prop in Hw. destruct Hw as [Hp He].
    apply prefix_brace in Hp. destruct Hp as [r' Hr'].
    apply endswith_iff in He. destruct He as [a Ha].
    destruct a as [|x a].
    + rewrite Ha in Hr'. discriminate.
    + rewrite Ha in Hr'. cbn [append] in Hr'. injection Hr' as -> _.
      exists (list_ascii_of_string a). rewrite Ha.
      cbn [string_of_list_ascii append].
      now rewrite string_of_list_app, string_list_roundtrip.
  - destruct (from_first_brace (list_ascii_of_string (strip text))) as [rest|] eqn:Hf;
      [| discriminate].
    destruct (scan_object rest 0) as [obj|] eqn:Hs; [| discriminate].
    intros [= <-].
    destruct (from_first_brace_some _ _ Hf) as (pre & r0 & Hl & -> & Hpre).
    cbn [scan_object] in Hs. change (Ascii.eqb "{" "{") with true in Hs. cbv iota in Hs.
    destruct (scan_object r0 (0 + 1)) as [o|] eqn:Ho; [| discriminate].
    injection Hs as <-.
    destruct (scan_object_prefix _ _ _ Ho) as (init & rest & -> & _).
    now exists init.
Qed.

(** X10. Extracting from an extracted block returns the block: what
    [extract_first_json_object] returns is a text it accepts whole. *)
Theorem extract_first_json_object_idempotent (text r : string) :
  extract_first_json_object text = Ok r ->
  extract_first_json_object r = Ok r.
Proof.
  intros H. destruct (extract_ok_braced _ _ H) as [mid ->].
  unfold extract_first_json_object.
  rewrite strip_braced by reflexivity.
  assert (Hp : String.prefix "{" (string_of_list_ascii ("{"%char :: mid ++ ["}"%char]))
               = true).
  { apply prefix_brace. cbn [string_of_list_ascii]. eauto. }
  assert (He : endswith (string_of_list_ascii ("{"%char :: mid ++ ["}"%char])) "}" = true).
  { apply endswith_iff. exists (string_of_list_ascii ("{"%char :: mid)).
    change ("{"%char :: mid ++ ["}"%char])%list with (("{"%char :: mid) ++ ["}"%char])%list.
    now rewrite string_of_list_app. }
  now rewrite Hp, He.
Qed.

Lemma extract_first_json_object_idempotent_witness :
  extract_first_json_object "{a: {b: 1}}" = Ok "{a: {b: 1}}".
Proof.
  apply (extract_first_json_object_idempotent "Sure: {a: {b: 1}} done").
  reflexivity.
Defined.

(** X11. [extract_first_json_object] raises its first error, that no JSON object
    was found, exactly when the stripped text has no opening brace; the only
    other failure is the error for an object that is not closed. *)
Theorem extract_first_json_object_errors (text : string) :
  (extract_first_json_object text
   = Raise (ValueError "No JSON object found in model output.")
   <-> ~ In "{"%char (list_ascii_of_string (strip text)))
  /\ (forall e, extract_first_json_object text = Raise e ->
        e = ValueError "No JSON object found in model output."
        \/ e = ValueError "Unterminated JSON object in model output.").
Proof.
  unfold extract_first_json_object. split.
  - destruct (String.prefix "{" (strip text) && endswith (strip text) "}") eqn:Hw.
    + split; [discriminate |].
      intros Hno. apply andb_prop in Hw. destruct Hw as [Hp _].
      apply prefix_brace in Hp. destruct Hp as [r' Hr'].
      exfalso. apply Hno. rewrite Hr'. now left.
    + destruct (from_first_brace (list_ascii_of_string (strip text))) as [rest|] eqn:Hf.
      * split.
        -- destruct (scan_object rest 0); discriminate.
        -- intros Hno. apply from_first_brace_none in Hno. congruence.
      * split; [| reflexivity]. intros _. now apply from_first_brace_none.
  - intros e. destruct (String.prefix "{" (strip text) && endswith (strip text) "}");
      [discriminate |].
    destruct (from_first_brace (list_ascii_of_string (strip text))) as [rest|].
    + destruct (scan_object rest 0); [discriminate |]. intros [= <-]. now right.
    + intros [= <-]. now left.
Qed.

(** The scan counts every brace, also inside a JSON string: the block cut
    from this answer ends at the brace within the quoted value. *)
Example extract_first_json_object_counts_quoted_braces :
  extract_first_json_object "Note {k: '}'} end" = Ok "{k: '}".
Proof. reflexivity. Qed.

(** ** Bounding what the timeline stores *)

Section TruncateFacts.

Variables max_str max_list : Z.

Lemma length_slice_to {A} (n : Z) (l : list A) :
  0 <= n -> Z.of_nat (List.length (slice_to n l)) <= n.
Proof.
  intros Hn. unfold slice_to. destruct (Z.ltb_spec n 0); [lia |].
  rewrite length_firstn. lia.
Qed.

Lemma rec_bounded (d : nat) :
  0 <= max_list -> forall x, bounded max_list d (rec max_str max_list d x).
Proof.
  intros Hl. induction d as [|d IH]; intros x; [exact I |].
  destruct x as [| b | n | f | s | l | items]; cbn [rec]; try exact I.
  - destruct (Z.of_nat (String.length s) <=? max_str); exact I.
  - destruct (Z.ltb_spec max_list (Z.of_nat (List.length l))) as [Hlong | Hshort];
      cbn [bounded].
    + split.
      * rewrite length_app, length_map. cbn [List.length].
        pose proof (length_slice_to max_list l Hl). lia.
      * apply Forall_app. split; [| constructor; [destruct d; exact I | constructor]].
        apply Forall_forall. intros y Hy. apply in_map_iff in Hy.
        destruct Hy as (z & <- & _). apply IH.
    + split; [rewrite length_map; lia |].
      apply Forall_forall. intros y Hy. apply in_map_iff in Hy.
      destruct Hy as (z & <- & _). apply IH.
  - cbn [bounded]. apply Forall_forall. intros [k v] Hy. apply in_map_iff in Hy.
    destruct Hy as ([k' v'] & [= <- <-] & _). cbn [snd]. apply IH.
Qed.

Lemma map_fixed {A} (f : A -> A) (l : list A) :
  Forall (fun a => f a = a) l -> map f l = l.
Proof. induction 1; cbn [map]; congruence. Qed.

Lemma rec_fits (d : nat) :
  forall x, fits max_str max_list d x -> rec max_str max_list d x = x.
Proof.
  induction d as [|d IH]; intros x; [intros [] |].
  destruct x as [| b | n | f | s | l | items]; cbn [rec fits]; try reflexivity.
  - intros H. apply Z.leb_le in H. now rewrite H.
  - intros [Hlen Hall].
    destruct (Z.ltb_spec max_list (Z.of_nat (List.length l))); [lia |].
    f_equal. apply map_fixed. eapply Forall_impl; [| exact Hall]. exact IH.
  - intros Hall. f_equal. apply map_fixed.
    eapply Forall_impl; [| exact Hall].
    intros [k v] Hv. cbn [fst snd] in *. f_equal. now apply IH.
Qed.

Lemma firstn_string_prefix (s : string) :
  forall n, (n <= String.length s)%nat ->
  String.prefix (string_of_list_ascii (firstn n (list_ascii_of_string s))) s = true
  /\ String.length (string_of_list_ascii (firstn n (list_ascii_of_string s))) = n.
Proof.
  induction s as [|c s IH]; intros n Hn.
  - destruct n; [split; reflexivity | simpl in Hn; lia].
  - destruct n as [|n]; [split; reflexivity |].
    cbn [list_ascii_of_string firstn string_of_list_ascii String.prefix String.length].
    destruct (IH n ltac:(simpl in Hn; lia)) as [Hp Hlen].
    destruct (Ascii.ascii_dec c c); [| congruence].
    split; [exact Hp | now rewrite Hlen].
Qed.

End TruncateFacts.

(** X12. Whatever the value, the result of [_truncate_json] nests containers at
    most [max_depth] deep and holds no list of more than [max_list + 1]
    elements. Dictionaries are not shortened. *)
Theorem truncate_json_bounded (obj : jval) (max_str max_list max_depth : Z) :
  0 <= max_list ->
  bounded max_list (Z.to_nat max_depth) (_truncate_json obj max_str max_list max_depth).
Proof. intros H. unfold _truncate_json. now apply rec_bounded. Qed.

Lemma truncate_json_bounded_witness :
  bounded 2 (Z.to_nat 2)
    (_truncate_json
       (JList [JInt 1; JList [JList [JInt 2]]; JStr "three"; JDict [("k", JNone)]])
       4000 2 2).
Proof.
  apply (truncate_json_bounded
           (JList [JInt 1; JList [JList [JInt 2]]; JStr "three"; JDict [("k", JNone)]])
           4000 2 2).
  discriminate.
Defined.

(** X13. A value within the limits passes through [_truncate_json] unchanged. *)
Theorem truncate_json_keeps_small_values (obj : jval) (max_str max_list max_depth : Z) :
  fits max_str max_list (Z.to_nat max_depth) obj ->
  _truncate_json obj max_str max_list max_depth = obj.
Proof. apply rec_fits. Qed.

Lemma truncate_json_keeps_small_values_witness :
  truncate_default
    (JDict [("tenant_id", JStr "t_default");
            ("hotel_ids", JList [JStr "h1"; JStr "h2"]);
            ("trip", JDict [("occupancy", JDict [("adults", JInt 2); ("rooms", JInt 1)])])])
  = JDict [("tenant_id", JStr "t_default");
           ("hotel_ids", JList [JStr "h1"; JStr "h2"]);
           ("trip", JDict [("occupancy", JDict [("adults", JInt 2); ("rooms", JInt 1)])])].
Proof.
  apply (truncate_json_keeps_small_values
           (JDict [("tenant_id", JStr "t_default");
                   ("hotel_ids", JList [JStr "h1"; JStr "h2"]);
                   ("trip", JDict [("occupancy",
                                    JDict [("adults", JInt 2); ("rooms", JInt 1)])])])
           4000 50 6).
  vm_compute.
  repeat first [ apply Forall_cons | apply Forall_nil | split | exact I | discriminate ].
Defined.

(** X14. A string of more than [max_str] characters comes out as its first
    [max_str - 20] characters followed by a marker of 16 characters:
    [max_str - 4] characters in all. *)
Theorem truncate_json_cuts_long_strings (s : string) (max_str max_list max_depth : Z) :
  1 <= max_depth -> 20 <= max_str -> max_str < Z.of_nat (String.length s) ->
  exists kept,
    _truncate_json (JStr s) max_str max_list max_depth
    = JStr (kept ++ "...__truncated__")
    /\ String.prefix kept s = true
    /\ Z.of_nat (String.length kept) = max_str - 20
    /\ Z.of_nat (String.length (kept ++ "...__truncated__")) = max_str - 4.
Proof.
  intros Hd Hs Hlong. unfold _truncate_json.
  destruct (Z.to_nat max_depth) as [|d] eqn:Ed; [lia |].
  cbn [rec]. destruct (Z.leb_spec (Z.of_nat (String.length s)) max_str); [lia |].
  unfold str_slice_to, slice_to. destruct (Z.ltb_spec (max_str - 20) 0); [lia |].
  destruct (firstn_string_prefix s (Z.to_nat (max_str - 20)) ltac:(lia)) as [Hp Hlen].
  eexists. split; [reflexivity |].
  split; [exact Hp |].
  split; [rewrite Hlen; lia |].
  rewrite length_append, Hlen. cbn [String.length]. lia.
Qed.

Lemma truncate_json_cuts_long_strings_witness :
  exists kept,
    _truncate_json (JStr "abcdefghijklmnopqrstuvwxyz") 24 50 6
    = JStr (kept ++ "...__truncated__")
    /\ String.prefix kept "abcdefghijklmnopqrstuvwxyz" = true
    /\ Z.of_nat (String.length kept) = 24 - 20
    /\ Z.of_nat (String.length (kept ++ "...__truncated__")) = 24 - 4.
Proof.
  apply (truncate_json_cuts_long_strings "abcdefghijklmnopqrstuvwxyz" 24 50 6).
  - discriminate.
  - discriminate.
  - reflexivity.
Defined.

(** A list of more than [max_list] elements is cut to its first [max_list]
    elements and a marker naming its length; truncating the result again
    changes the marker, so [_truncate_json] is not idempotent. *)
Example truncate_json_not_idempotent :
  _truncate_json (JList [JInt 1; JInt 2; JInt 3]) 4000 1 6
  = JList [JInt 1; JStr "__truncated_list_len=3__"]
  /\ _truncate_json (JList [JInt 1; JStr "__truncated_list_len=3__"]) 4000 1 6
     = JList [JInt 1; JStr "__truncated_list_len=2__"].
Proof. vm_compute. split; reflexivity. Qed.

(** ** Grounding *)

(** X15. Allowing more can only accept more: a text that passes with some
    allowed prices and timestamps passes with any larger lists. *)
Theorem validate_grounded_response_monotone
    (text : string) (prices prices' : list float) (tss tss' : list datetime) :
  incl prices prices' -> incl tss tss' ->
  validate_grounded_response text prices tss = Ok tt ->
  validate_grounded_response text prices' tss' = Ok tt.
Proof.
  intros Hp Ht. unfold validate_grounded_response.
  destruct (first_outside strip_commas (map format_2f prices) (money_tokens text))
    eqn:E1; [discriminate |].
  destruct (first_outside (fun g => g) (allowed_ts_strings tss) (ts_tokens text))
    eqn:E2; [discriminate |].
  intros _.
  assert (E1' : first_outside strip_commas (map format_2f prices') (money_tokens text)
                = None).
  { apply first_outside_None. intros g Hg.
    pose proof (proj1 (first_outside_None _ _ _) E1 g Hg) as H.
    apply in_map_iff in H. destruct H as (p & <- & Hin).
    apply in_map. now apply Hp. }
  assert (E2' : first_outside (fun g => g) (allowed_ts_strings tss') (ts_tokens text)
                = None).
  { apply first_outside_None. intros g Hg.
    pose proof (proj1 (first_outside_None _ _ _) E2 g Hg) as H.
    apply allowed_ts_strings_In in H. destruct H as (t & Hin & H).
    apply allowed_ts_strings_In. exists t. split; [now apply Ht | exact H]. }
  now rewrite E1', E2'.
Qed.

Lemma validate_grounded_response_monotone_witness :
  validate_grounded_response "Hotel One for $300.00 tonight" [200; 300]%float
    [Examples.noon_utc] = Ok tt.
Proof.
  apply (validate_grounded_response_monotone "Hotel One for $300.00 tonight"
           [300]%float [200; 300]%float [] [Examples.noon_utc]).
  - intros p [<- | []]. right. now left.
  - intros t [].
  - reflexivity.
Defined.

Section ProseFacts.

Lemma money_scan_no_dollar (l : list ascii) :
  ~ In "$"%char l -> forall prev skip, money_scan prev skip l = [].
Proof.
  induction l as [|c l IH]; intros Hno prev skip; [reflexivity |].
  assert (Hl : ~ In "$"%char l) by (intros H; apply Hno; now right).
  cbn [money_scan]. destruct skip; [| now apply IH].
  destruct (Ascii.eqb_spec c "$") as [-> | Hne].
  - exfalso. apply Hno. now left.
  - rewrite andb_false_r. now apply IH.
Qed.

Lemma ts_group_needs_digit (l : list ascii) :
  match l with c :: _ => is_digit c = false | [] => True end -> ts_group l = None.
Proof.
  intros H. unfold ts_group. destruct l as [|c l]; [reflexivity |].
  cbn [read_digits]. now rewrite H.
Qed.

Lemma ts_scan_no_digit (l : list ascii) :
  Forall (fun c => is_digit c = false) l -> forall prev skip, ts_scan prev skip l = [].
Proof.
  induction 1 as [|c l Hc Hl IH]; intros prev skip; [reflexivity |].
  cbn [ts_scan]. destruct skip; [| apply IH].
  rewrite (ts_group_needs_digit (c :: l) Hc).
  destruct (match prev with Some p => negb (is_word p) | None => true end); apply IH.
Qed.

End ProseFacts.

(** X16. A text without a dollar sign and without a digit holds no token to
    check: it passes whatever is allowed, also when nothing is. *)
Theorem validate_grounded_response_accepts_prose
    (text : string) (prices : list float) (tss : list datetime) :
  ~ In "$"%char (list_ascii_of_string text) ->
  Forall (fun c => is_digit c = false) (list_ascii_of_string text) ->
  validate_grounded_response text prices tss = Ok tt.
Proof.
  intros Hd Hn. unfold validate_grounded_response, money_tokens, ts_tokens.
  rewrite (money_scan_no_dollar _ Hd), (ts_scan_no_digit _ Hn). reflexivity.
Qed.

Lemma validate_grounded_response_accepts_prose_witness :
  validate_grounded_response "Which city should I search in?" [] [] = Ok tt.
Proof.
  apply (validate_grounded_response_accepts_prose "Which city should I search in?" [] []).
  - vm_compute. intuition discriminate.
  - vm_compute. repeat constructor.
Defined.

(** ** Timestamps from the tool service *)

Lemma replace_char_app (old : ascii) (new a b : string) :
  replace_char old new (a ++ b) = replace_char old new a ++ replace_char old new b.
Proof.
  induction a as [|c a IH]; [reflexivity |].
  cbn [append replace_char]. rewrite IH.
  destruct (Ascii.eqb c old); [now rewrite append_assoc | reflexivity].
Qed.

Lemma replace_char_absent (old : ascii) (new s : string) :
  ~ In old (list_ascii_of_string s) -> replace_char old new s = s.
Proof.
  induction s as [|c s IH]; [reflexivity |].
  cbn [list_ascii_of_string replace_char]. intros H.
  destruct (Ascii.eqb_spec c old) as [-> | _]; [exfalso; apply H; now left |].
  f_equal. apply IH. intros Hin. apply H. now right.
Qed.

(** X17. [parse_dt] reads a closing [Z] as the offset [+00:00]: a timestamp
    written either way parses to the same value. *)
Theorem parse_dt_z_is_utc (s : string) :
  ~ In "Z"%char (list_ascii_of_string s) ->
  parse_dt (s ++ "Z") = parse_dt (s ++ "+00:00")
  /\ parse_dt (s ++ "Z") = fromisoformat (s ++ "+00:00").
Proof.
  intros H. unfold parse_dt.
  rewrite !replace_char_app, (replace_char_absent _ _ s H). split; reflexivity.
Qed.

Lemma parse_dt_z_is_utc_witness :
  parse_dt ("2026-02-15T12:00:00" ++ "Z") = parse_dt ("2026-02-15T12:00:00" ++ "+00:00")
  /\ parse_dt ("2026-02-15T12:00:00" ++ "Z")
     = fromisoformat ("2026-02-15T12:00:00" ++ "+00:00").
Proof.
  apply (parse_dt_z_is_utc "2026-02-15T12:00:00").
  vm_compute. intuition discriminate.
Defined.

(** The separator of date and time is [T] in what the tools emit; [parse_dt]
    gives the instant at offset zero for such a text. *)
Example parse_dt_reads_tool_timestamp :
  option_map tzoffset (parse_dt "2026-02-15T12:00:00Z") = Some (Some 0)
  /\ parse_dt "2026-02-15 noon" = None.
Proof. vm_compute. split; reflexivity. Qed.

(** ** Hard filters *)

Lemma keep_if_some {A} (t : A -> bool) (o : option A) (x : A) :
  keep_if t o = Some x -> o = Some x /\ t x = true.
Proof.
  destruct o as [a|]; cbn [keep_if]; [| discriminate].
  destruct (t a) eqn:E; [| discriminate]. intros [= <-]. auto.
Qed.

(** X18. The hard-filter payload carries only filters that are set to something:
    a zero price or star rating, an empty amenity list and a false refundable
    preference are left out, and with nothing left there is no payload. *)
Theorem hard_filters_payload_only_truthy (c : Constraints) :
  match hard_filters_payload c with
  | None =>
      keep_if truthy_float (k_max_price c) = None
      /\ keep_if truthy_float (k_min_star c) = None
      /\ keep_if truthy_list (k_amenities c) = None
      /\ (k_refundable_preferred c = None \/ k_refundable_preferred c = Some false)
  | Some hf =>
      (forall p, hf_max_price hf = Some p -> k_max_price c = Some p /\ truthy_float p = true)
      /\ (forall m, hf_min_star hf = Some m ->
            k_min_star c = Some m /\ truthy_float m = true)
      /\ (forall a, hf_amenities hf = Some a -> k_amenities c = Some a /\ a <> [])
      /\ (forall b, hf_refundable_only hf = Some b ->
            b = true /\ k_refundable_preferred c = Some true)
      /\ (hf_max_price hf <> None \/ hf_min_star hf <> None
          \/ hf_amenities hf <> None \/ hf_refundable_only hf <> None)
  end.
Proof.
  unfold hard_filters_payload.
  pose proof (keep_if_some truthy_float (k_max_price c)) as Hp.
  pose proof (keep_if_some truthy_float (k_min_star c)) as Hm.
  assert (Ha : forall a, keep_if truthy_list (k_amenities c) = Some a ->
                 k_amenities c = Some a /\ a <> []).
  { intros a H. apply keep_if_some in H. destruct H as [H1 H2].
    split; [exact H1 | intros ->; discriminate]. }
  assert (Hr : forall b, keep_if (fun b => b) (k_refundable_preferred c) = Some b ->
                 b = true /\ k_refundable_preferred c = Some true).
  { intros b H. apply keep_if_some in H. destruct H as [H1 H2]. subst b. auto. }
  assert (Hn : keep_if (fun b => b) (k_refundable_preferred c) = None ->
               k_refundable_preferred c = None \/ k_refundable_preferred c = Some false).
  { destruct (k_refundable_preferred c) as [[|]|]; cbn; auto; discriminate. }
  destruct (keep_if truthy_float (k_max_price c)) as [p|],
    (keep_if truthy_float (k_min_star c)) as [m|],
    (keep_if truthy_list (k_amenities c)) as [a|],
    (keep_if (fun b => b) (k_refundable_preferred c)) as [b|];
    cbn [hf_max_price hf_min_star hf_amenities hf_refundable_only];
    first
      [ (split; [reflexivity |]; split; [reflexivity |]; split; [reflexivity |]; now apply Hn)
      | (split; [exact Hp |]; split; [exact Hm |]; split; [exact Ha |];
         split; [exact Hr |];
         first [ left; discriminate | right; left; discriminate
               | right; right; left; discriminate | right; right; right; discriminate ]) ].
Qed.

(** ** The tool client at its edges *)

(** X19. With a negative [tool_max_retries] the loop over the attempts is empty:
    the call is logged, no HTTP request is made, and the client raises its
    own error with no cause recorded. *)
Theorem call_with_negative_retries
    (SETTINGS : AgentSettings) (tool : ToolName) (path : string) (p : payload) (w : world) :
  tool_max_retries SETTINGS < 0 ->
  call SETTINGS tool path p w
  = (Raise (ToolClientError ("tool " ++ tool_name_str tool ++ " failed: None")),
     mkworld (llm_tape w) (http_tape w)
             (tool_calls w ++ [mktool_call tool path p])%list (http_posts w)).
Proof.
  intros H. unfold call, bind, log_tool_call.
  replace (Z.to_nat (tool_max_retries SETTINGS + 1)) with O by lia.
  reflexivity.
Qed.

Lemma call_with_negative_retries_witness :
  call (mkAgentSettings "t_default" "http://localhost:8001" (Some "test-key") 8 20 (-1))
       search_candidates "/tools/search_candidates" Runs.austin_search
       Runs.failing_search_world
  = (Raise (ToolClientError ("tool " ++ tool_name_str search_candidates ++ " failed: None")),
     mkworld (llm_tape Runs.failing_search_world) (http_tape Runs.failing_search_world)
             (tool_calls Runs.failing_search_world
              ++ [mktool_call search_candidates "/tools/search_candidates"
                              Runs.austin_search])%list
             (http_posts Runs.failing_search_world)).
Proof.
  apply (call_with_negative_retries
           (mkAgentSettings "t_default" "http://localhost:8001" (Some "test-key") 8 20 (-1))
           search_candidates "/tools/search_candidates" Runs.austin_search
           Runs.failing_search_world).
  reflexivity.
Defined.

Section BaseUrl.

Lemma lstrip_slash_idempotent (l : list ascii) :
  lstrip_slash (lstrip_slash l) = lstrip_slash l.
Proof.
  induction l as [|c l IH]; [reflexivity |].
  cbn [lstrip_slash].
  destruct c as [[|] [|] [|] [|] [|] [|] [|] [|]]; try reflexivity. exact IH.
Qed.

Lemma lstrip_slash_head (l : list ascii) :
  match lstrip_slash l with c :: _ => c <> "/"%char | [] => True end.
Proof.
  induction l as [|c l IH]; [exact I |].
  cbn [lstrip_slash].
  destruct c as [[|] [|] [|] [|] [|] [|] [|] [|]]; try discriminate. exact IH.
Qed.

Lemma lstrip_slash_cons (l : list ascii) :
  lstrip_slash ("/"%char :: l) = lstrip_slash l.
Proof. reflexivity. Qed.

End BaseUrl.

(** X20. The base URL loses every trailing slash: what is left does not end in
    one, stripping again changes nothing, and a setting written with one more
    trailing slash gives the same URL for every tool path. *)
Theorem rstrip_slash_normalises (base : string) :
  endswith (rstrip_slash base) "/" = false
  /\ rstrip_slash (rstrip_slash base) = rstrip_slash base
  /\ rstrip_slash (base ++ "/") = rstrip_slash base.
Proof.
  unfold rstrip_slash. split; [| split].
  - destruct (endswith _ "/") eqn:E; [| reflexivity]. exfalso.
    apply endswith_iff in E. destruct E as [a Ha].
    apply (f_equal list_ascii_of_string) in Ha.
    rewrite list_string_roundtrip, list_of_string_app in Ha.
    apply (f_equal (@rev ascii)) in Ha.
    rewrite rev_involutive, rev_app_distr in Ha. cbn [list_ascii_of_string rev app] in Ha.
    pose proof (lstrip_slash_head (rev (list_ascii_of_string base))) as Hh.
    rewrite Ha in Hh. now apply Hh.
  - rewrite list_string_roundtrip, rev_involutive, lstrip_slash_idempotent. reflexivity.
  - rewrite list_of_string_app, rev_app_distr. cbn [list_ascii_of_string rev app].
    now rewrite lstrip_slash_cons.
Qed.

(** ** The snapshot between two turns *)

Lemma parsed_jsonb_dates (c : cdict) : parsed (jsonb_dates c) = parsed c.
Proof.
  unfold parsed, model_validate, jsonb_dates.
  cbn [d_city d_check_in d_check_out d_adults d_children d_rooms d_max_price d_min_star
       d_amenities d_currency d_refundable_preferred].
  destruct (d_check_in c) as [[?|?]|], (d_check_out c) as [[?|?]|]; reflexivity.
Qed.

(** X21. Storing a turn's state and loading it for the next turn keeps the
    constraints as the tools read them, their fingerprint and the cached tool
    results; so when the stored fingerprint is the one of the stored
    constraints, the next turn starts with its caches intact. *)
Theorem reloaded_snapshot_keeps_caches (out : GraphState) (message : string) :
  tool_constraints_key out = Some (Some (current_key out)) ->
  let st := turn_state (Some (stored out)) message in
  parsed (constraints st) = parsed (constraints out)
  /\ current_key st = current_key out
  /\ invalidate_stage st = st
  /\ candidates st = candidates out /\ offers st = offers out
  /\ ranked_offers st = ranked_offers out
  /\ recommended_offers st = recommended_offers out
  /\ tool_timeline st = [] /\ tool_calls_this_turn st = 0
  /\ llm_action st = None /\ selected_offer_id st = None.
Proof.
  intros Hk st.
  assert (Hp : parsed (constraints st) = parsed (constraints out)).
  { subst st. cbn. apply parsed_jsonb_dates. }
  assert (Hc : current_key st = current_key out).
  { unfold current_key. now rewrite Hp. }
  split; [exact Hp |]. split; [exact Hc |].
  split.
  { apply invalidate_fresh. rewrite Hc. subst st. cbn. now rewrite Hk. }
  subst st. cbn. repeat split.
Qed.

Lemma reloaded_snapshot_keeps_caches_witness :
  let st := turn_state (Some (stored Runs.shopped)) "and with a pool?" in
  parsed (constraints st) = parsed (constraints Runs.shopped)
  /\ current_key st = current_key Runs.shopped
  /\ invalidate_stage st = st
  /\ candidates st = candidates Runs.shopped /\ offers st = offers Runs.shopped
  /\ ranked_offers st = ranked_offers Runs.shopped
  /\ recommended_offers st = recommended_offers Runs.shopped
  /\ tool_timeline st = [] /\ tool_calls_this_turn st = 0
  /\ llm_action st = None /\ selected_offer_id st = None.
Proof.
  apply (reloaded_snapshot_keeps_caches Runs.shopped "and with a pool?").
  vm_compute. reflexivity.
Defined.

(** ** Which node talks to the tools *)

(** X22. The decision node and the response node never invoke the tool client:
    whatever the state and the answers of the model, they make no tool call
    and no HTTP request and read no tool response. *)
Theorem decide_and_respond_make_no_tool_call
    (SETTINGS : AgentSettings) (st : GraphState) (w : world) :
  same_tools w (snd (_llm_decide SETTINGS st w))
  /\ same_tools w (snd (_llm_respond SETTINGS st w)).
Proof.
  split; [apply llm_only_llm_decide | apply llm_only_llm_respond].
Qed.

(** ** The tool timeline of a turn *)

Section TimelineFacts.

Variable SETTINGS : AgentSettings.

(** The event of a call that returns names the tool called, its path and the
    size of the answer. *)
Lemma call_loop_event (n : nat) :
  forall attempt retries req w d e w1,
  call_loop SETTINGS n attempt retries req w = (Ok (d, e), w1) ->
  ev_tool_name e = tool_name_str (tc_tool req) /\ ev_path e = tc_path req
  /\ ev_result_count e = _result_counts (tc_tool req) d.
Proof.
  induction n as [|n IH]; intros attempt retries req w d e w1; [discriminate |].
  cbn [call_loop]. unfold bind.
  destruct (http_post req w) as [[o | ex] w0] eqn:Ep.
  - destruct (attempt_result (tc_tool req) o) as [data | ex].
    + intros [= <- <- _]. repeat split.
    + destruct (attempt <? tool_max_retries SETTINGS); [apply IH | discriminate].
  - unfold http_post in Ep. destruct (http_tape w); discriminate.
Qed.

Lemma call_ok tool path p w d e w1 :
  call SETTINGS tool path p w = (Ok (d, e), w1) ->
  tool_calls w1 = (tool_calls w ++ [mktool_call tool path p])%list
  /\ ev_tool_name e = tool_name_str tool.
Proof.
  intros H. split.
  - pose proof (call_tool_calls SETTINGS tool path p w) as Hc. now rewrite H in Hc.
  - unfold call, bind, log_tool_call in H.
    now destruct (call_loop_event _ _ _ _ _ _ _ _ H) as [He _].
Qed.

(** What a node adds to the timeline and what it adds to the log of tool
    calls name the same tools in the same order. *)
Definition in_step (st : GraphState) (w : world) (st' : GraphState) (w' : world) : Prop :=
  exists evs calls,
    tool_timeline st' = (tool_timeline st ++ evs)%list
    /\ tool_calls w' = (tool_calls w ++ calls)%list
    /\ map ev_tool_name evs = map (fun c => tool_name_str (tc_tool c)) calls.

Lemma in_step_same st w st' w' :
  tool_timeline st' = tool_timeline st -> tool_calls w' = tool_calls w ->
  in_step st w st' w'.
Proof.
  intros Ht Hc. exists [], []. rewrite !app_nil_r. auto.
Qed.

Lemma in_step_trans st w s1 w1 s2 w2 :
  in_step st w s1 w1 -> in_step s1 w1 s2 w2 -> in_step st w s2 w2.
Proof.
  intros (e1 & c1 & Ht1 & Hc1 & Hm1) (e2 & c2 & Ht2 & Hc2 & Hm2).
  exists (e1 ++ e2)%list, (c1 ++ c2)%list.
  rewrite Ht2, Ht1, Hc2, Hc1, <- !app_assoc, !map_app, Hm1, Hm2. auto.
Qed.

Lemma timeline_llm_decide st w st' w' :
  _llm_decide SETTINGS st w = (Ok st', w') -> in_step st w st' w'.
Proof.
  intros H. apply in_step_same.
  - revert H. rewrite llm_decide_pipeline. revert w st' w'.
    change (post (bind (get_chat_model SETTINGS) (fun _ =>
              bind (resolution_pipeline (enter_decide st)) (fun '(st1, x) =>
                if _end_turn st1 then ret st1
                else decision_step (invalidate_stage st1) x)))
              (fun st' => tool_timeline st' = tool_timeline st)).
    apply post_bind_any. intros _.
    eapply post_bind.
    { apply (frame_resolution_pipeline tool_timeline); reflexivity. }
    intros [st1 x] H1. cbn [fst] in H1.
    destruct (_end_turn st1); [now apply post_ret |].
    eapply post_weaken.
    { apply (frame_decision_step tool_timeline); reflexivity. }
    intros st2 H2. cbv beta in H2. rewrite H2, (invalidate_frame tool_timeline); auto.
  - pose proof (llm_only_llm_decide SETTINGS st w) as Hs. rewrite H in Hs. apply Hs.
Qed.

Lemma timeline_generate n k st ps ts :
  post (generate n k st ps ts) (fun _ => True).
Proof. intros w a w' _. exact I. Qed.

Lemma timeline_llm_respond st w st' w' :
  _llm_respond SETTINGS st w = (Ok st', w') -> in_step st w st' w'.
Proof.
  intros H. apply in_step_same.
  - revert H. unfold _llm_respond, bind.
    destruct (get_chat_model SETTINGS w) as [[[] | e] w0]; [| discriminate].
    cbn [llm_action set_agent_state selected_offer_id recommended_offers offers
         candidates ranked_offers].
    destruct (match llm_action st with
              | Some (CallTool _) => None
              | Some (Respond k m) => Some (k, m)
              | None => Some (generic, None)
              end) as [[k hint] |]; [| discriminate].
    destruct (kind_eqb k confirm || truthy_ostr (selected_offer_id st)).
    { destruct (find_selected_offer _ _ _ _); intros [= <- _]; reflexivity. }
    destruct (truthy_list (ranked_offers st)).
    { destruct (_build_offer_cards _) as [[[cards ps] ts] | e]; [| discriminate].
      intros [= <- _]. reflexivity. }
    destruct (generate 3 k _ [] [] w0) as [[msg | e] w1]; [| discriminate].
    repeat match goal with |- context [if ?b then _ else _] => destruct b end;
      intros [= <- _]; reflexivity.
  - pose proof (llm_only_llm_respond SETTINGS st w) as Hs. rewrite H in Hs. apply Hs.
Qed.

Lemma in_step_call st w tool path p d e w1 (st1 : GraphState) :
  call SETTINGS tool path p w = (Ok (d, e), w1) ->
  tool_timeline st1 = (tool_timeline st ++ [e])%list ->
  in_step st w st1 w1.
Proof.
  intros Hc Ht. destruct (call_ok _ _ _ _ _ _ _ Hc) as [Hcalls Hname].
  exists [e], [mktool_call tool path p]. repeat split; try assumption.
  cbn [map tc_tool]. now rewrite Hname.
Qed.

Lemma timeline_call_tool st w st' w' :
  _call_tool SETTINGS st w = (Ok st', w') -> in_step st w st' w'.
Proof.
  unfold _call_tool. cbn [llm_action set_agent_state tool_calls_this_turn].
  destruct (llm_action st) as [[t | k m] |]; try discriminate.
  destruct (max_tool_calls_per_turn SETTINGS <=? tool_calls_this_turn st).
  { intros [= <- <-]. now apply in_step_same. }
  destruct t.
  - unfold _call_search_candidates.
    destruct (negb (is_complete _)); [intros [= <- <-]; now apply in_step_same |].
    destruct (to_tool_payload _ _) as [p|]; [| discriminate].
    unfold bind.
    destruct (call SETTINGS search_candidates "/tools/search_candidates" (SearchPayload p) w)
      as [[[d e] | ex] w1] eqn:Ec; [| discriminate].
    destruct (negb (truthy_list _)); intros [= <- <-];
      apply (in_step_call _ _ _ _ _ _ _ _ _ Ec); reflexivity.
  - unfold _call_get_offers.
    destruct (map hotel_id _) as [|h hs]; [intros [= <- <-]; now apply in_step_same |].
    destruct (k_check_in _) as [ci|]; [| intros [= <- <-]; now apply in_step_same].
    destruct (k_check_out _) as [co|]; [| intros [= <- <-]; now apply in_step_same].
    unfold bind.
    match goal with
    | |- context [call SETTINGS ?tool ?path ?p w] =>
        destruct (call SETTINGS tool path p w) as [[[d e] | ex] w1] eqn:Ec; [| discriminate]
    end.
    intros [= <- <-]. apply (in_step_call _ _ _ _ _ _ _ _ _ Ec). reflexivity.
  - unfold _call_rank_offers.
    cbn [offers set_tool_calls_this_turn set_agent_state].
    destruct (offers st) as [|o os]; [intros [= <- <-]; now apply in_step_same |].
    unfold bind.
    match goal with
    | |- context [call SETTINGS ?tool ?path ?p w] =>
        destruct (call SETTINGS tool path p w) as [[[d e] | ex] w1] eqn:Ec; [| discriminate]
    end.
    intros [= <- <-]. apply (in_step_call _ _ _ _ _ _ _ _ _ Ec). reflexivity.
Qed.

Lemma in_step_refl st w : in_step st w st w.
Proof. now apply in_step_same. Qed.

Lemma timeline_run_from (fuel : nat) :
  forall n st w st' w',
  run_from SETTINGS fuel n st w = (Ok st', w') -> in_step st w st' w'.
Proof.
  induction fuel as [|fuel IH]; intros n st w st' w'; [discriminate |].
  cbn [run_from]. destruct n.
  - unfold bind. destruct (_llm_decide SETTINGS st w) as [[s1 | e] w1] eqn:E;
      [| discriminate].
    pose proof (timeline_llm_decide _ _ _ _ E) as H1.
    destruct (_route_after_llm_decide s1).
    + intros H. eapply in_step_trans; [exact H1 | now apply IH in H].
    + intros H. eapply in_step_trans; [exact H1 | now apply IH in H].
    + intros [= <- <-]. exact H1.
    + intros [= <- <-]. exact H1.
  - unfold bind. destruct (_call_tool SETTINGS st w) as [[s1 | e] w1] eqn:E;
      [| discriminate].
    pose proof (timeline_call_tool _ _ _ _ E) as H1.
    destruct (_route_after_call_tool s1);
      intros H; (eapply in_step_trans; [exact H1 | now apply IH in H]).
  - apply timeline_llm_respond.
Qed.

End TimelineFacts.

(** X23. The timeline a turn returns is the record of its tool calls: it has
    one event per invocation of the tool client made during the turn, naming
    the same tools in the same order, and the guardrail count in the response
    is the number of those invocations. *)
Theorem chat_timeline_matches_tool_calls
    (SETTINGS : AgentSettings) (snap : option GraphState) (message : string)
    (w : world) (resp : ChatResponse) (snapshot : GraphState) (w' : world) :
  chat SETTINGS snap message w = (ChatOk resp snapshot, w') ->
  exists calls,
    tool_calls w' = (tool_calls w ++ calls)%list
    /\ map ev_tool_name (resp_tool_timeline resp)
       = map (fun c => tool_name_str (tc_tool c)) calls
    /\ resp_tool_calls resp = Z.of_nat (List.length calls).
Proof.
  unfold chat, GRAPH_ainvoke.
  destruct (run_from SETTINGS recursion_limit LLM_DECIDE (turn_state snap message) w)
    as [[out | e] w1] eqn:E; [| destruct e; discriminate].
  intros [= <- _ <-].
  destruct (timeline_run_from SETTINGS _ _ _ _ _ _ E) as (evs & calls & Ht & Hc & Hm).
  change (tool_timeline (turn_state snap message)) with (@nil event) in Ht.
  cbn [app] in Ht. exists calls.
  cbn [resp_tool_timeline resp_tool_calls]. rewrite Ht.
  repeat split; try assumption.
  f_equal. rewrite <- (length_map ev_tool_name), Hm, length_map. reflexivity.
Qed.

Lemma chat_timeline_matches_tool_calls_witness :
  exists calls,
    tool_calls
      (snd (chat default_settings None "Find me a hotel in Austin" Runs.shopping_world))
    = (tool_calls Runs.shopping_world ++ calls)%list
    /\ map ev_tool_name
         (resp_tool_timeline
            (match fst (chat default_settings None "Find me a hotel in Austin"
                          Runs.shopping_world) with
             | ChatOk resp _ => resp
             | _ => mkChatResponse "" "" [] [] 0
             end))
       = map (fun c => tool_name_str (tc_tool c)) calls
    /\ resp_tool_calls
         (match fst (chat default_settings None "Find me a hotel in Austin"
                       Runs.shopping_world) with
          | ChatOk resp _ => resp
          | _ => mkChatResponse "" "" [] [] 0
          end)
       = Z.of_nat (List.length calls).
Proof.
  apply (chat_timeline_matches_tool_calls default_settings None
           "Find me a hotel in Austin" Runs.shopping_world _ Runs.shopped).
  vm_compute. reflexivity.
Defined.

(** ** The recursion limit *)

Section RecursionLimit.

Variable SETTINGS : AgentSettings.

(** An exception of the computation is never langgraph's recursion error. *)
Definition not_recursion {A} (m : M A) : Prop :=
  forall w w', m w <> (Raise GraphRecursionError, w').

Lemma not_recursion_ret {A} (a : A) : not_recursion (ret a).
Proof. intros w w'. discriminate. Qed.

Lemma not_recursion_raise {A} (e : exn) :
  e <> GraphRecursionError -> not_recursion (@raise A e).
Proof. intros H w w' [= E _]. contradiction. Qed.

Lemma not_recursion_bind {A B} (m : M A) (f : A -> M B) :
  not_recursion m -> (forall a, not_recursion (f a)) -> not_recursion (bind m f).
Proof.
  intros Hm Hf w w'. unfold bind.
  destruct (m w) as [[a | e] w1] eqn:E; [apply Hf |].
  intros [= -> ->]. now apply (Hm w w').
Qed.

Lemma not_recursion_attempts {A} n (accept : llm_reply -> string + A) e :
  not_recursion (llm_attempts n accept e).
Proof.
  intros w w'. destruct (attempts_return n accept e w) as (r & w1 & ->). discriminate.
Qed.

Lemma not_recursion_generate n k st ps ts : not_recursion (generate n k st ps ts).
Proof.
  intros w w'. destruct (generate_returns n k st ps ts w) as (r & w1 & ->). discriminate.
Qed.

Lemma not_recursion_call_loop n :
  forall attempt retries req, not_recursion (call_loop SETTINGS n attempt retries req).
Proof.
  induction n as [|n IH]; intros attempt retries req.
  - apply not_recursion_raise. discriminate.
  - cbn [call_loop]. apply not_recursion_bind.
    + intros w w'. unfold http_post. destruct (http_tape w); discriminate.
    + intros o. destruct o as [err | status text body]; cbn [attempt_result].
      * destruct (attempt <? tool_max_retries SETTINGS);
          [apply IH | apply not_recursion_raise; discriminate].
      * destruct (400 <=? status).
        -- destruct (attempt <? tool_max_retries SETTINGS);
             [apply IH | apply not_recursion_raise; discriminate].
        -- destruct body.
           ++ apply not_recursion_ret.
           ++ destruct (attempt <? tool_max_retries SETTINGS);
                [apply IH | apply not_recursion_raise; discriminate].
Qed.

Lemma not_recursion_call tool path p : not_recursion (call SETTINGS tool path p).
Proof.
  unfold call. apply not_recursion_bind.
  - intros w w'. discriminate.
  - intros _. apply not_recursion_call_loop.
Qed.

Ltac not_recursion_step :=
  first
    [ apply not_recursion_ret
    | apply not_recursion_raise; discriminate
    | apply not_recursion_attempts
    | apply not_recursion_generate
    | apply not_recursion_call
    | apply not_recursion_bind; [| intros ? ]
    | match goal with
      | |- not_recursion (if ?b then _ else _) => destruct b
      | |- not_recursion (match ?x with _ => _ end) => destruct x
      | |- not_recursion (let '(_, _) := ?x in _) => destruct x
      end ].

Ltac not_recursion_tac := repeat not_recursion_step.

Lemma not_recursion_llm_decide st : not_recursion (_llm_decide SETTINGS st).
Proof.
  unfold _llm_decide, get_chat_model, extract_stage, date_stage, _resolve_non_date_fields,
    resolve_city, resolve_occupancy, resolve_amenities, _resolve_budget,
    _resolve_hard_filters_patch, decision_step.
  not_recursion_tac.
Qed.

Lemma not_recursion_call_tool st : not_recursion (_call_tool SETTINGS st).
Proof.
  unfold _call_tool, _call_search_candidates, _call_get_offers, _call_rank_offers.
  not_recursion_tac.
Qed.

Lemma cards_loop_error cands top e :
  cards_loop cands top = Raise e -> e <> GraphRecursionError.
Proof.
  induction top as [|item rest IH]; cbn [cards_loop]; [discriminate |].
  unfold offer_timestamps, parse_or_raise.
  repeat match goal with
         | |- context [match parse_dt ?v with _ => _ end] => destruct (parse_dt v)
         | |- context [match keep_if ?t ?o with _ => _ end] => destruct (keep_if t o)
         end;
    try (intros [= <-]; discriminate);
    (destruct (cards_loop cands rest) as [[[? ?] ?] | e'];
     [discriminate | intros [= <-]; now apply IH]).
Qed.

Lemma not_recursion_llm_respond st : not_recursion (_llm_respond SETTINGS st).
Proof.
  unfold _llm_respond, get_chat_model.
  apply not_recursion_bind; [not_recursion_tac |]. intros _.
  destruct (match llm_action (set_agent_state (Some "LLM_RESPOND") st) with
            | Some (CallTool _) => None
            | Some (Respond k m) => Some (k, m)
            | None => Some (generic, None)
            end) as [[k hint] |]; [| apply not_recursion_raise; discriminate].
  destruct (kind_eqb k confirm || _); [not_recursion_tac |].
  destruct (truthy_list _).
  - destruct (_build_offer_cards _) as [[[cards ps] ts] | e] eqn:E.
    + apply not_recursion_ret.
    + apply not_recursion_raise. unfold _build_offer_cards in E.
      now apply cards_loop_error in E.
  - not_recursion_tac.
Qed.

(** The node executions a run can still need: two for every tool call the
    budget allows, and the closing decision, refused call and response. *)
Definition nodes_needed (n : node) (st : GraphState) : nat :=
  let calls_left :=
    Z.to_nat (max_tool_calls_per_turn SETTINGS - tool_calls_this_turn st) in
  match n with
  | LLM_DECIDE => 2 * calls_left + 3
  | CALL_TOOL_NODE => 2 * calls_left + 2
  | LLM_RESPOND => 1
  end.

Lemma run_from_within_limit (fuel : nat) :
  forall n st w w', (nodes_needed n st <= fuel)%nat ->
  run_from SETTINGS fuel n st w <> (Raise GraphRecursionError, w').
Proof.
  induction fuel as [|fuel IH]; intros n st w w' Hn.
  { destruct n; cbn in Hn; lia. }
  cbn [run_from]. destruct n.
  - unfold bind. destruct (_llm_decide SETTINGS st w) as [[s1 | e] w1] eqn:E.
    + pose proof (counter_llm_decide SETTINGS st w s1 w1 E) as Hc. cbv beta in Hc.
      unfold nodes_needed in Hn.
      destruct (_route_after_llm_decide s1); try discriminate;
        apply IH; unfold nodes_needed; rewrite ?Hc; lia.
    + intros [= He Hw]. subst e w1. exact (not_recursion_llm_decide st w w' E).
  - unfold bind. destruct (_call_tool SETTINGS st w) as [[s1 | e] w1] eqn:E.
    + destruct (call_tool_effect SETTINGS st w) as [_ Hc]. specialize (Hc s1 w1 E).
      unfold nodes_needed in Hn.
      destruct (max_tool_calls_per_turn SETTINGS <=? tool_calls_this_turn st) eqn:Eb.
      * apply Z.leb_le in Eb.
        destruct (llm_action st) as [[t | k m] |] eqn:Ea;
          try (unfold _call_tool in E; cbn [llm_action set_agent_state] in E;
               rewrite Ea in E; discriminate).
        rewrite (call_tool_at_budget SETTINGS st t w Eb Ea) in E.
        injection E as <- <-.
        change (_route_after_call_tool
                  (respond_with generic "Tool call limit reached for this turn."
                     (set_agent_state (Some "CALL_TOOL") st))) with RESPOND.
        cbv iota. apply IH. cbn. lia.
      * apply Z.leb_gt in Eb.
        destruct (_route_after_call_tool s1);
          apply IH; unfold nodes_needed; rewrite ?Hc; lia.
    + intros [= He Hw]. subst e w1. exact (not_recursion_call_tool st w w' E).
  - apply not_recursion_llm_respond.
Qed.

End RecursionLimit.

(** X24. With a budget of at most ten tool calls per turn (the default is
    eight), langgraph's recursion limit of 25 is never what ends a turn: a
    turn runs at most 23 nodes, the graph does not raise its recursion error,
    and the chat handler does not fail with it. *)
Theorem recursion_limit_not_reached
    (SETTINGS : AgentSettings) (snap : option GraphState) (message : string) (w : world) :
  max_tool_calls_per_turn SETTINGS <= 10 ->
  fst (GRAPH_ainvoke SETTINGS (turn_state snap message) w) <> Raise GraphRecursionError
  /\ fst (chat SETTINGS snap message w) <> ChatUnhandled GraphRecursionError.
Proof.
  intros Hmax.
  assert (H : forall w', GRAPH_ainvoke SETTINGS (turn_state snap message) w
                         <> (Raise GraphRecursionError, w')).
  { intros w'. unfold GRAPH_ainvoke. apply run_from_within_limit.
    unfold nodes_needed, recursion_limit.
    change (tool_calls_this_turn (turn_state snap message)) with 0. lia. }
  split.
  - destruct (GRAPH_ainvoke SETTINGS (turn_state snap message) w) as [r w1] eqn:E.
    cbn [fst]. intros ->. now apply (H w1).
  - unfold chat.
    destruct (GRAPH_ainvoke SETTINGS (turn_state snap message) w) as [[out | e] w1] eqn:E;
      [discriminate |].
    destruct e; cbn [fst]; try discriminate.
    exfalso. now apply (H w1).
Qed.

Lemma recursion_limit_not_reached_witness :
  fst (GRAPH_ainvoke default_settings
         (turn_state None "Find me a hotel in Austin") Runs.unpriced_world)
  <> Raise GraphRecursionError
  /\ fst (chat default_settings None "Find me a hotel in Austin" Runs.unpriced_world)
     <> ChatUnhandled GraphRecursionError.
Proof.
  apply (recursion_limit_not_reached default_settings None "Find me a hotel in Austin"
           Runs.unpriced_world).
  discriminate.
Defined.

(** The limit does bite with a larger budget: with twelve calls allowed and a
    pricing that never finds an offer, the turn ends in the recursion error. *)
Example recursion_limit_reached_with_twelve_calls :
  fst (chat (mkAgentSettings "t_default" "http://localhost:8001" (Some "test-key") 12 20 2)
         None "Find me a hotel in Austin"
         (mkworld ([ReplyExtraction (Some Examples.austin) None; Runs.no_patch]
                   ++ repeat (ReplyCallTool get_offers None) 13)
                  (Runs.ok_response
                     (mktool_data [Runs.hotel_one; Runs.hotel_two; Runs.hotel_unrated]
                                  [] [] [])
                   :: repeat (Runs.ok_response (mktool_data [] [] [] [])) 12) [] []))
  = ChatUnhandled GraphRecursionError.
Proof. vm_compute. reflexivity. Qed.

(** ** How a turn ends *)

Section TurnEnds.

Variable SETTINGS : AgentSettings.

Lemma index_app_r (needle a b : string) :
  is_some (String.index 0 needle b) = true ->
  is_some (String.index 0 needle (a ++ b)) = true.
Proof.
  intros H. induction a as [|c a IH]; [exact H |].
  cbn [append String.index].
  destruct (String.prefix needle (String c (a ++ b))); [reflexivity |].
  destruct (String.index 0 needle (a ++ b)); [reflexivity | discriminate].
Qed.

Lemma contains_app_r (needle a b : string) :
  contains needle b = true -> contains needle (a ++ b) = true.
Proof. apply index_app_r. Qed.

Lemma lower_app (a b : string) : lower (a ++ b) = lower a ++ lower b.
Proof. induction a as [|c a IH]; cbn [append lower]; [reflexivity | now rewrite IH]. Qed.

Definition select_instruction : string := "Select by replying with the offer_id.".

Lemma mentions_instruction (a : string) :
  contains "offer_id" (lower (a ++ select_instruction)) = true.
Proof. rewrite lower_app. apply contains_app_r. reflexivity. Qed.

Lemma render_top_offers_mentions (c : cdict) (cards : list card) :
  contains "offer_id" (lower (_render_top_offers_message c cards)) = true.
Proof.
  unfold _render_top_offers_message. cbv zeta.
  repeat rewrite <- append_assoc.
  match goal with
  | |- contains _ (lower (?a ++ "Select by replying with the offer_id.")) = _ =>
      apply (mentions_instruction a)
  end.
Qed.

(** The states a turn can end in, with a message, and with the instruction
    to select when it waits for a selection. *)
Definition final_states : list string :=
  ["COLLECT_CONSTRAINTS"; "WAIT_FOR_SELECTION"; "CONFIRM"; "RESPOND"].

Definition final (s : GraphState) : Prop :=
  exists a m,
    agent_state s = Some a /\ In a final_states /\ assistant_message s = Some m
    /\ (a = "WAIT_FOR_SELECTION" -> contains "offer_id" (lower m) = true).

Lemma final_intro s a m :
  agent_state s = Some a -> assistant_message s = Some m ->
  In a final_states ->
  (a = "WAIT_FOR_SELECTION" -> contains "offer_id" (lower m) = true) ->
  final s.
Proof. intros. exists a, m. auto. Qed.

(** A state whose turn was ended by a question. *)
Definition ended_ok (s : GraphState) : Prop := _end_turn s = true -> final s.

Lemma ended_ok_question q st : ended_ok (end_turn_with q st).
Proof.
  intros _. apply (final_intro _ "COLLECT_CONSTRAINTS" q); try reflexivity.
  - cbn. auto.
  - discriminate.
Qed.

Lemma ended_ok_constraints v st : ended_ok st -> ended_ok (set_constraints v st).
Proof. exact (fun H => H). Qed.

Lemma ended_ok_merge u st : ended_ok st -> ended_ok (merge_into u st).
Proof. exact (fun H => H). Qed.

Ltac ended_tac :=
  post_tac;
  repeat match goal with |- context [match ?x with _ => _ end] => destruct x end;
  repeat first [ apply ended_ok_question | apply ended_ok_merge
               | apply ended_ok_constraints | assumption ].

Lemma ended_extract_stage st :
  ended_ok st -> post (extract_stage st) (fun r => ended_ok (fst r)).
Proof. intros H. unfold extract_stage. ended_tac. Qed.

Lemma ended_date_stage st : ended_ok st -> post (date_stage st) ended_ok.
Proof. intros H. unfold date_stage. ended_tac. Qed.

Lemma ended_resolve_city st : ended_ok st -> post (resolve_city st) ended_ok.
Proof. intros H. unfold resolve_city. ended_tac. Qed.

Lemma ended_resolve_occupancy st : ended_ok st -> post (resolve_occupancy st) ended_ok.
Proof. intros H. unfold resolve_occupancy. ended_tac. Qed.

Lemma ended_resolve_amenities st : ended_ok st -> post (resolve_amenities st) ended_ok.
Proof. intros H. unfold resolve_amenities. ended_tac. Qed.

Lemma ended_resolve_budget st : ended_ok st -> post (_resolve_budget st) ended_ok.
Proof. intros H. unfold _resolve_budget. ended_tac. Qed.

Lemma ended_resolve_patch st :
  ended_ok st -> post (_resolve_hard_filters_patch st) ended_ok.
Proof. intros H. unfold _resolve_hard_filters_patch. ended_tac. Qed.

Lemma ended_resolve_non_date st :
  ended_ok st -> post (_resolve_non_date_fields st) ended_ok.
Proof.
  intros H. unfold _resolve_non_date_fields.
  eapply post_bind; [now apply ended_resolve_city |]. intros st1 H1.
  destruct (_end_turn st1); [now apply post_ret |].
  eapply post_bind; [now apply ended_resolve_occupancy |]. intros st2 H2.
  destruct (_end_turn st2); [now apply post_ret |].
  now apply ended_resolve_amenities.
Qed.

Lemma ended_resolution_pipeline st :
  ended_ok st -> post (resolution_pipeline st) (fun r => ended_ok (fst r)).
Proof.
  intros H. unfold resolution_pipeline.
  eapply post_bind; [now apply ended_extract_stage |]. intros [st1 x] H1. cbn [fst] in H1.
  eapply post_bind; [now apply ended_date_stage |]. intros st2 H2.
  destruct (_end_turn st2); [now apply post_ret |].
  eapply post_bind with (P := ended_ok).
  { destruct (at_turn_start st2); [now apply ended_resolve_non_date | now apply post_ret]. }
  intros st3 H3.
  destruct (_end_turn st3); [now apply post_ret |].
  eapply post_bind with (P := ended_ok).
  { destruct (at_turn_start st3); [now apply ended_resolve_budget | now apply post_ret]. }
  intros st4 H4.
  destruct (_end_turn st4); [now apply post_ret |].
  eapply post_bind with (P := ended_ok).
  { destruct (at_turn_start st4); [now apply ended_resolve_patch | now apply post_ret]. }
  intros st5 H5. now apply post_ret.
Qed.

(** After the decision node the turn has ended with a question, or an action
    is pending. *)
Definition decided (s : GraphState) : Prop :=
  (_end_turn s = true /\ final s) \/ (_end_turn s = false /\ llm_action s <> None).

Lemma decided_decision_step st x :
  _end_turn st = false -> post (decision_step st x) decided.
Proof.
  intros He. unfold decision_step.
  post_tac;
    repeat match goal with |- context [if ?b then _ else _] => destruct b end;
    repeat match goal with |- context [match ?x with _ => _ end] => destruct x end;
    try apply post_ret;
    first [ (left; split; [reflexivity | now apply ended_ok_question])
          | (right; split; [exact He | discriminate]) ].
Qed.

Lemma decided_llm_decide st : post (_llm_decide SETTINGS st) decided.
Proof.
  intros w a w'. rewrite llm_decide_pipeline. revert w a w'.
  apply post_bind_any. intros _.
  eapply post_bind.
  { apply ended_resolution_pipeline. intros H. discriminate. }
  intros [s1 x] H1. cbn [fst] in H1.
  destruct (_end_turn s1) eqn:E.
  - apply post_ret. left. split; [exact E | now apply H1].
  - apply decided_decision_step. rewrite (invalidate_frame _end_turn); auto.
Qed.

Ltac final_as a :=
  eapply (final_intro _ a); [reflexivity | reflexivity | cbn; auto | ].

Lemma final_llm_respond st : post (_llm_respond SETTINGS st) final.
Proof.
  unfold _llm_respond.
  apply post_bind_any. intros _.
  destruct (match llm_action (set_agent_state (Some "LLM_RESPOND") st) with
            | Some (CallTool _) => None
            | Some (Respond k m) => Some (k, m)
            | None => Some (generic, None)
            end) as [[k hint] |]; [| apply post_raise].
  destruct (kind_eqb k confirm || _).
  { destruct (find_selected_offer _ _ _ _); apply post_ret.
    - final_as "CONFIRM". discriminate.
    - final_as "WAIT_FOR_SELECTION". intros _. reflexivity. }
  destruct (truthy_list _).
  { destruct (_build_offer_cards _) as [[[cards ps] ts] | e]; [| apply post_raise].
    apply post_ret. final_as "WAIT_FOR_SELECTION".
    intros _. apply render_top_offers_mentions. }
  apply post_bind_any. intros msg. cbv zeta.
  cbn [recommended_offers set_assistant_message set_agent_state].
  destruct (kind_eqb k explain && truthy_list (recommended_offers st)) eqn:Eshow.
  - cbn [andb].
    destruct (negb (contains "offer_id" (lower msg))) eqn:Ec;
      repeat match goal with |- context [if ?b then _ else _] => destruct b end;
      apply post_ret; final_as "WAIT_FOR_SELECTION"; intros _.
    all: first [ (repeat rewrite <- append_assoc; apply (mentions_instruction _))
               | (apply negb_false_iff in Ec; exact Ec) ].
  - cbn [andb].
    repeat match goal with |- context [if ?b then _ else _] => destruct b end;
      apply post_ret; destruct k;
      first [ (final_as "CONFIRM"; discriminate)
            | (final_as "COLLECT_CONSTRAINTS"; discriminate)
            | (final_as "RESPOND"; discriminate) ].
Qed.

Lemma final_run_from (fuel : nat) :
  forall n st, post (run_from SETTINGS fuel n st) final.
Proof.
  induction fuel as [|fuel IH]; intros n st; [apply post_raise |].
  cbn [run_from]. destruct n.
  - eapply post_bind; [apply decided_llm_decide |]. intros s1 H1.
    unfold _route_after_llm_decide.
    destruct H1 as [[He Hf] | [He Ha]]; rewrite He.
    + now apply post_ret.
    + destruct (llm_action s1) as [[t | k m] |]; [apply IH | apply IH | congruence].
  - apply post_bind_any. intros s1. destruct (_route_after_call_tool s1); apply IH.
  - apply final_llm_respond.
Qed.

End TurnEnds.

Lemma chat_ok_final
    (SETTINGS : AgentSettings) (snap : option GraphState) (message : string)
    (w : world) (resp : ChatResponse) (snapshot : GraphState) (w' : world) :
  chat SETTINGS snap message w = (ChatOk resp snapshot, w') ->
  exists out,
    GRAPH_ainvoke SETTINGS (turn_state snap message) w = (Ok out, w')
    /\ agent_state out = Some (resp_agent_state resp)
    /\ assistant_message out = Some (resp_assistant_message resp)
    /\ In (resp_agent_state resp) final_states
    /\ (resp_agent_state resp = "WAIT_FOR_SELECTION" ->
        contains "offer_id" (lower (resp_assistant_message resp)) = true).
Proof.
  unfold chat.
  destruct (GRAPH_ainvoke SETTINGS (turn_state snap message) w) as [[out | e] w1] eqn:E;
    [| destruct e; discriminate].
  intros [= <- _ <-]. exists out. split; [reflexivity |].
  destruct (final_run_from SETTINGS _ _ _ _ _ _ E) as (a & m & Ha & Hin & Hm & Hw).
  cbn [resp_agent_state resp_assistant_message]. rewrite Ha, Hm.
  assert (Hk : keep_if truthy_str (Some a) = Some a).
  { cbn in Hin. destruct Hin as [<- | [<- | [<- | [<- | []]]]]; reflexivity. }
  rewrite Hk. auto.
Qed.

(** X25. A turn that returns a response ends in one of four states, collecting
    constraints, waiting for a selection, confirming or responding, and with
    a message written by the graph: the handler's fallbacks, the state
    UNKNOWN and the empty message for a missing one, are never used. *)
Theorem chat_ends_in_a_final_state
    (SETTINGS : AgentSettings) (snap : option GraphState) (message : string)
    (w : world) (resp : ChatResponse) (snapshot : GraphState) (w' : world) :
  chat SETTINGS snap message w = (ChatOk resp snapshot, w') ->
  In (resp_agent_state resp)
     ["COLLECT_CONSTRAINTS"; "WAIT_FOR_SELECTION"; "CONFIRM"; "RESPOND"]
  /\ exists out,
       GRAPH_ainvoke SETTINGS (turn_state snap message) w = (Ok out, w')
       /\ agent_state out = Some (resp_agent_state resp)
       /\ assistant_message out = Some (resp_assistant_message resp).
Proof.
  intros H. destruct (chat_ok_final _ _ _ _ _ _ _ H) as (out & Hg & Ha & Hm & Hin & _).
  split; [exact Hin |]. exists out. auto.
Qed.

Lemma chat_ends_in_a_final_state_witness :
  In (resp_agent_state
        (match fst (chat default_settings None "a hotel" Runs.city_question_world) with
         | ChatOk resp _ => resp
         | _ => mkChatResponse "" "" [] [] 0
         end))
     ["COLLECT_CONSTRAINTS"; "WAIT_FOR_SELECTION"; "CONFIRM"; "RESPOND"]
  /\ exists out,
       GRAPH_ainvoke default_settings (turn_state None "a hotel") Runs.city_question_world
       = (Ok out, snd (chat default_settings None "a hotel" Runs.city_question_world))
       /\ agent_state out
          = Some (resp_agent_state
                    (match fst (chat default_settings None "a hotel"
                                  Runs.city_question_world) with
                     | ChatOk resp _ => resp
                     | _ => mkChatResponse "" "" [] [] 0
                     end))
       /\ assistant_message out
          = Some (resp_assistant_message
                    (match fst (chat default_settings None "a hotel"
                                  Runs.city_question_world) with
                     | ChatOk resp _ => resp
                     | _ => mkChatResponse "" "" [] [] 0
                     end)).
Proof.
  apply (chat_ends_in_a_final_state default_settings None "a hotel"
           Runs.city_question_world _
           (match fst (chat default_settings None "a hotel" Runs.city_question_world) with
            | ChatOk _ s => s
            | _ => initial_state
            end)).
  vm_compute. reflexivity.
Defined.

(** X26. Whenever a turn ends waiting for a selection, its message names the
    offer_id to reply with (in whatever letter case the model wrote it when
    the text is generated). *)
Theorem waiting_for_selection_names_offer_id
    (SETTINGS : AgentSettings) (snap : option GraphState) (message : string)
    (w : world) (resp : ChatResponse) (snapshot : GraphState) (w' : world) :
  chat SETTINGS snap message w = (ChatOk resp snapshot, w') ->
  resp_agent_state resp = "WAIT_FOR_SELECTION" ->
  contains "offer_id" (lower (resp_assistant_message resp)) = true.
Proof.
  intros H. destruct (chat_ok_final _ _ _ _ _ _ _ H) as (out & _ & _ & _ & _ & Hw).
  exact Hw.
Qed.

Lemma waiting_for_selection_names_offer_id_witness :
  contains "offer_id"
    (lower (resp_assistant_message
              (match fst (chat default_settings None "Find me a hotel in Austin"
                            Runs.shopping_world) with
               | ChatOk resp _ => resp
               | _ => mkChatResponse "" "" [] [] 0
               end))) = true.
Proof.
  apply (waiting_for_selection_names_offer_id default_settings None
           "Find me a hotel in Austin" Runs.shopping_world _ Runs.shopped
           (snd (chat default_settings None "Find me a hotel in Austin"
                   Runs.shopping_world))).
  - vm_compute. reflexivity.
  - vm_compute. reflexivity.
Defined.

(** ** The caches and their fingerprint *)

Definition has_tool_cache (st : GraphState) : bool :=
  truthy_list (candidates st) || truthy_list (offers st)
  || truthy_list (ranked_offers st) || truthy_list (recommended_offers st).

Lemma invalidate_cases (st : GraphState) :
  (invalidate_stage st = st
   /\ (tool_constraints_key st = Some (Some (current_key st))
       \/ tool_constraints_key st = Some None
       \/ tool_constraints_key st = Some (Some "")
       \/ (tool_constraints_key st = None /\ has_tool_cache st = false)))
  \/ invalidate_stage st = clear_tool_state st.
Proof.
  unfold invalidate_stage. fold (has_tool_cache st).
  destruct (tool_constraints_key st) as [[k|]|] eqn:Hk; cbn [is_some negb].
  - rewrite andb_false_r. cbn [opt_eqb truthy_ostr].
    destruct (truthy_str k) eqn:Ht; cbn [andb].
    + destruct (String.eqb_spec k (current_key st)) as [-> | Hne]; cbn [negb].
      * left. split; [reflexivity | now left].
      * now right.
    + destruct k; [| discriminate]. left. split; [reflexivity |]. right. right. now left.
  - rewrite andb_false_r. cbn [truthy_ostr andb].
    left. split; [reflexivity |]. right. now left.
  - rewrite andb_true_r. cbn [truthy_ostr andb].
    destruct (has_tool_cache st) eqn:Hc.
    + now right.
    + left. split; [reflexivity |]. right. right. right. auto.
Qed.

(** X27. The check of [_llm_decide] either leaves the state as it is or clears
    the tool state, and running it twice is running it once. Cached results
    survive it only under a stored fingerprint that equals the current one or
    under a stored key that holds nothing. *)
Theorem invalidate_stage_outcome (st : GraphState) :
  (invalidate_stage st = st \/ invalidate_stage st = clear_tool_state st)
  /\ invalidate_stage (invalidate_stage st) = invalidate_stage st
  /\ (has_tool_cache (invalidate_stage st) = true ->
      invalidate_stage st = st
      /\ (tool_constraints_key st = Some (Some (current_key st))
          \/ tool_constraints_key st = Some None
          \/ tool_constraints_key st = Some (Some ""))).
Proof.
  assert (Hclear : invalidate_stage (clear_tool_state st) = clear_tool_state st)
    by reflexivity.
  destruct (invalidate_cases st) as [[Hs Hk] | Hc].
  - split; [now left |]. split; [now rewrite Hs |].
    rewrite Hs. intros Hcache. split; [reflexivity |].
    destruct Hk as [H | [H | [H | [_ H]]]]; auto. congruence.
  - split; [now right |]. split; [now rewrite Hc |].
    rewrite Hc. discriminate.
Qed.

Section SearchFacts.

Variable SETTINGS : AgentSettings.

Lemma search_returns st c p w st' w' :
  _call_search_candidates SETTINGS st c p w = (Ok st', w') ->
  is_complete c = false /\ st' = clarify_missing p st /\ w' = w
  \/ is_complete c = true
     /\ offers st' = [] /\ ranked_offers st' = [] /\ recommended_offers st' = []
     /\ reasons st' = []
     /\ tool_constraints_key st' = Some (Some (_tool_constraints_key (to_dict p)))
     /\ constraints st' = constraints st
     /\ (candidates st' = [] ->
         llm_action st'
         = Some (Respond generic (Some "No candidate hotels matched these constraints."))).
Proof.
  unfold _call_search_candidates.
  destruct (is_complete c) eqn:Hc; cbn [negb].
  - destruct (to_tool_payload c (default_tenant_id SETTINGS)) as [pl|]; [| discriminate].
    unfold bind.
    destruct (call SETTINGS search_candidates "/tools/search_candidates" (SearchPayload pl) w)
      as [[[d e] | ex] w1]; [| discriminate].
    cbn [candidates set_candidates].
    destruct (td_candidates d) as [|h hs] eqn:Hd; cbn [truthy_list negb];
      intros [= <- <-]; right; repeat split; try reflexivity.
    cbn. discriminate.
  - intros [= <- <-]. left. auto.
Qed.

End SearchFacts.

(** X28. A search that was made replaces the whole tool state: whatever was cached
    before, the offers, ranked offers, recommended offers and reasons are
    empty afterwards, the stored fingerprint is the one of the constraints
    searched with, and an empty result leaves the answer that no hotel
    matched. *)
Theorem search_resets_the_tool_state
    (SETTINGS : AgentSettings) (st : GraphState) (w : world)
    (st' : GraphState) (w' : world) :
  llm_action st = Some (CallTool search_candidates) ->
  tool_calls_this_turn st < max_tool_calls_per_turn SETTINGS ->
  complete st = true ->
  _call_tool SETTINGS st w = (Ok st', w') ->
  offers st' = [] /\ ranked_offers st' = [] /\ recommended_offers st' = []
  /\ reasons st' = []
  /\ tool_constraints_key st' = Some (Some (current_key st'))
  /\ invalidate_stage st' = st'
  /\ (candidates st' = [] ->
      llm_action st'
      = Some (Respond generic (Some "No candidate hotels matched these constraints."))).
Proof.
  intros Ha Hlt Hc. rewrite (call_tool_enter SETTINGS st _ w Ha Hlt).
  intros H. apply search_returns in H. unfold complete in Hc.
  destruct H as [[Hn _] | (_ & Ho & Hr & Hrec & Hre & Hk & Hcon & Hempty)];
    [congruence |].
  assert (Hkey : tool_constraints_key st' = Some (Some (current_key st'))).
  { rewrite Hk. unfold current_key. now rewrite Hcon. }
  repeat split; try assumption.
  now apply invalidate_fresh.
Qed.

Lemma search_resets_the_tool_state_witness :
  let st' :=
    match _call_tool default_settings
            (set_llm_action (Some (CallTool search_candidates)) Runs.shopped)
            (mkworld [] [Runs.ok_response (mktool_data [Runs.hotel_two] [] [] [])] [] [])
    with
    | (Ok s, _) => s
    | _ => initial_state
    end in
  offers st' = [] /\ ranked_offers st' = [] /\ recommended_offers st' = []
  /\ reasons st' = []
  /\ tool_constraints_key st' = Some (Some (current_key st'))
  /\ invalidate_stage st' = st'
  /\ (candidates st' = [] ->
      llm_action st'
      = Some (Respond generic (Some "No candidate hotels matched these constraints."))).
Proof.
  apply (search_resets_the_tool_state default_settings
           (set_llm_action (Some (CallTool search_candidates)) Runs.shopped)
           (mkworld [] [Runs.ok_response (mktool_data [Runs.hotel_two] [] [] [])] [] [])
           _
           (snd (_call_tool default_settings
                   (set_llm_action (Some (CallTool search_candidates)) Runs.shopped)
                   (mkworld [] [Runs.ok_response (mktool_data [Runs.hotel_two] [] [] [])]
                            [] [])))).
  - reflexivity.
  - reflexivity.
  - vm_compute. reflexivity.
  - vm_compute. reflexivity.
Defined.
